(** * rep-cli traffic store: a shallow embedding and its properties

    The development follows the layout of the Go sources:
    - [GoString], [SHA256], [JSON]: the parts of the Go standard library the
      store relies on (byte strings, crypto/sha256, encoding/json values);
    - [store]: package internal/store (types.go, headers.go, hash.go,
      store.go);
    - [cmd]: the chain command (buildChainForRequest);
    - [host]: the native messaging host (cmd/host/main.go);
    - [Sample]: small instances of the library interfaces and sample data.

    Go strings are byte sequences and are modelled by [string]; Go [int] and
    [int64] values are modelled by [Z]; Go maps by [gmap]. *)

From Stdlib Require Import ZArith List Ascii String Lia Bool DecimalString.
From stdpp Require Import base option list strings gmap fin_maps sets sorting.

Set Warnings "-register-all,-clear-no-such-hyp".


Open Scope string_scope.
Open Scope Z_scope.

(** A Go result [(A, error)]: the value, or the error's message. *)
Inductive result (A : Type) : Type :=
| Ok (a : A)
| Error (msg : string).
Arguments Ok {A} a.
Arguments Error {A} msg.

(** ** Byte strings (package strings, fmt verbs) *)

Module GoString.

(** [strings.HasPrefix s prefix]. *)
Definition HasPrefix (s prefix : string) : bool := String.prefix prefix s.

(** All suffixes of [s], longest first (the candidate start positions of a
    substring search). *)
Fixpoint suffixes (s : string) : list string :=
  match s with
  | EmptyString => [EmptyString]
  | String _ s' => s :: suffixes s'
  end.

(** [strings.Contains s substr]: byte-wise substring test. *)
Definition Contains (s substr : string) : bool :=
  existsb (String.prefix substr) (suffixes s).

(** The verb [%d] applied to an integer. *)
Definition fmt_d (z : Z) : string := NilZero.string_of_int (Z.to_int z).

Definition hex_digit (n : Z) : ascii :=
  if n <? 10 then ascii_of_N (Z.to_N (48 + n)) else ascii_of_N (Z.to_N (87 + n)).

(** The verb [%x] applied to a byte sequence: two lower-case hexadecimal
    digits per byte. *)
Fixpoint fmt_x (bytes : list Z) : string :=
  match bytes with
  | [] => EmptyString
  | b :: bs => String (hex_digit (b / 16)) (String (hex_digit (b mod 16)) (fmt_x bs))
  end.

Definition bytes_of (s : string) : list Z :=
  map (fun c => Z.of_N (N_of_ascii c)) (list_ascii_of_string s).

(** The Unicode-aware functions of package strings, taken as an
    interface. *)
Class Unicode : Type := {
  EqualFold : string -> string -> bool;
  ToLower : string -> string;
  TrimSpace : string -> string
}.

End GoString.

(** ** Package regexp, taken as an interface *)

Module regexp.
(** [Compile] gives [None] when the pattern is rejected. *)
Class Engine : Type := {
  Regexp : Type;
  Compile : string -> option Regexp;
  MatchString : Regexp -> string -> bool
}.
End regexp.

(** ** Package net/url, taken as an interface *)

Module url.
Record URL : Type := { Host : string; Path : string; RawQuery : string }.

(** [Parse] gives [None] when the URL is rejected. *)
Class Parser : Type := {
  Parse : string -> option URL
}.
End url.

(** ** Package sonic, taken as an interface *)

Module sonic.
(** [Unmarshal data v] gives the value of [*v] after decoding. *)
Class Decoder (A : Type) : Type := {
  Unmarshal : string -> A -> result A
}.
End sonic.

(** ** crypto/sha256 (FIPS 180-4), on 32-bit words written as [Z] *)

Module SHA256.

Definition w32 (x : Z) : Z := x mod 2 ^ 32.

Definition add32 (x y : Z) : Z := w32 (x + y).

Definition rotr (n x : Z) : Z :=
  Z.lor (Z.shiftr x n) (w32 (Z.shiftl x (32 - n))).

Definition Ch (x y z : Z) : Z :=
  Z.lxor (Z.land x y) (Z.land (Z.lxor x 4294967295) z).

Definition Maj (x y z : Z) : Z :=
  Z.lxor (Z.lxor (Z.land x y) (Z.land x z)) (Z.land y z).

Definition Sigma0 (x : Z) : Z := Z.lxor (Z.lxor (rotr 2 x) (rotr 13 x)) (rotr 22 x).
Definition Sigma1 (x : Z) : Z := Z.lxor (Z.lxor (rotr 6 x) (rotr 11 x)) (rotr 25 x).
Definition sigma0 (x : Z) : Z := Z.lxor (Z.lxor (rotr 7 x) (rotr 18 x)) (Z.shiftr x 3).
Definition sigma1 (x : Z) : Z := Z.lxor (Z.lxor (rotr 17 x) (rotr 19 x)) (Z.shiftr x 10).

(** The first [count] primes at or above [n], looking at [fuel] candidates. *)
Fixpoint primes_from (fuel : nat) (n : Z) (count : nat) : list Z :=
  match fuel, count with
  | S fuel', S count' =>
      if forallb (fun d => negb (n mod Z.of_nat d =? 0)) (seq 2 (Z.to_nat n - 2))
      then n :: primes_from fuel' (n + 1) count'
      else primes_from fuel' (n + 1) count
  | _, _ => []
  end.

(** The integer cube root of [n], found bit by bit below [2 ^ bits]. *)
Fixpoint cube_root (bits : nat) (n r : Z) : Z :=
  match bits with
  | O => r
  | S bits' =>
      let r' := r + 2 ^ Z.of_nat bits' in
      cube_root bits' n (if r' * r' * r' <=? n then r' else r)
  end.

(** The round constants: the first 32 bits of the fractional parts of the
    cube roots of the first 64 primes. *)
Definition K : list Z :=
  map (fun p => w32 (cube_root 36 (p * 2 ^ 96) 0)) (primes_from 400 2 64).

(** The initial hash value: the first 32 bits of the fractional parts of the
    square roots of the first 8 primes. *)
Definition H0 : list Z :=
  map (fun p => w32 (Z.sqrt (p * 2 ^ 64))) (primes_from 400 2 8).

(** Big-endian encoding of [x] on [n] bytes. *)
Fixpoint be_bytes (n : nat) (x : Z) : list Z :=
  match n with
  | O => []
  | S n' => (Z.shiftr x (8 * Z.of_nat n')) mod 256 :: be_bytes n' x
  end.

(** Message padding: a [0x80] byte, zeros up to 56 modulo 64, then the
    bit length on 8 bytes. *)
Definition pad (msg : list Z) : list Z :=
  let len := Z.of_nat (length msg) in
  let zeros := Z.to_nat ((55 - len) mod 64) in
  (msg ++ [128] ++ repeat 0 zeros ++ be_bytes 8 (8 * len))%list.

Fixpoint words (bytes : list Z) : list Z :=
  match bytes with
  | a :: b :: c :: d :: rest =>
      (a * 16777216 + b * 65536 + c * 256 + d) :: words rest
  | _ => []
  end.

Fixpoint chunks (fuel : nat) (ws : list Z) : list (list Z) :=
  match fuel, ws with
  | S f, _ :: _ => firstn 16 ws :: chunks f (skipn 16 ws)
  | _, _ => []
  end.

(** Extends the schedule [w] (most recent word first) by [n] words. *)
Fixpoint schedule (n : nat) (w : list Z) : list Z :=
  match n with
  | O => w
  | S n' =>
      let wt := add32 (add32 (sigma1 (nth 1 w 0)) (nth 6 w 0))
                      (add32 (sigma0 (nth 14 w 0)) (nth 15 w 0)) in
      schedule n' (wt :: w)
  end.

Definition round (st : list Z) (kw : Z * Z) : list Z :=
  match st with
  | [a; b; c; d; e; f; g; h] =>
      let t1 := add32 (add32 (add32 h (Sigma1 e)) (add32 (Ch e f g) (fst kw))) (snd kw) in
      let t2 := add32 (Sigma0 a) (Maj a b c) in
      [add32 t1 t2; a; b; c; add32 d t1; e; f; g]
  | _ => st
  end.

Definition compress (h : list Z) (block : list Z) : list Z :=
  let w := rev (schedule 48 (rev block)) in
  let st := fold_left round (combine K w) h in
  map (fun p => add32 (fst p) (snd p)) (combine h st).

(** [sha256.Sum256]: the 32 bytes of the digest. *)
Definition Sum256 (msg : list Z) : list Z :=
  let ws := words (pad msg) in
  let h := fold_left compress (chunks (length ws) ws) H0 in
  flat_map (be_bytes 4) h.

End SHA256.

(** ** encoding/json: documents as values, and decoding into Go types

    A JSON text is modelled by the value it denotes; [None] stands for bytes
    that are not a JSON text.  The decoders below follow the rules of
    [json.Unmarshal] for the three target types headers.go uses: a JSON
    [null] leaves the target at its current value, and a value of the wrong
    kind is an [UnmarshalTypeError]. *)

Module JSON.

Inductive value : Type :=
| Null
| Bool (b : bool)
| Number (literal : string)
| Str (s : string)
| Array (elements : list value)
| Object (members : list (string * value)).

(** Decoding into a [string] variable holding [cur]. *)
Definition into_string (cur : string) (v : value) : option string :=
  match v with
  | Str s => Some s
  | Null => Some cur
  | _ => None
  end.

(** Decodes every element of a JSON array into a fresh [string]. *)
Fixpoint into_strings (vs : list value) : option (list string) :=
  match vs with
  | [] => Some []
  | v :: vs' =>
      match into_string "" v, into_strings vs' with
      | Some s, Some ss => Some (s :: ss)
      | _, _ => None
      end
  end.

(** Decoding into a fresh [[]string]; [None] inside is the nil slice. *)
Definition into_string_slice (v : value) : option (option (list string)) :=
  match v with
  | Null => Some None
  | Array vs => option_map Some (into_strings vs)
  | _ => None
  end.

(** Decoding the members of an object into a map whose elements are decoded
    by [elem]; a repeated key keeps its last value. *)
Fixpoint into_members {A} (elem : value -> option A) (ms : list (string * value))
    (acc : gmap string A) : option (gmap string A) :=
  match ms with
  | [] => Some acc
  | (k, v) :: ms' =>
      match elem v with
      | Some a => into_members elem ms' (<[k := a]> acc)
      | None => None
      end
  end.

(** Decoding into a nil map variable; [None] inside is the nil map. *)
Definition into_map {A} (elem : value -> option A) (v : value)
  : option (option (gmap string A)) :=
  match v with
  | Null => Some None
  | Object ms => option_map Some (into_members elem ms ∅)
  | _ => None
  end.

(** [json.Unmarshal] into, and [json.MarshalIndent] of, a struct type [A],
    taken as an interface. *)
Class Codec (A : Type) : Type := {
  Unmarshal : string -> A -> result A;
  MarshalIndent : A -> result string
}.

Definition upper (c : ascii) : ascii :=
  let n := N_of_ascii c in
  if ((97 <=? n) && (n <=? 122))%N then ascii_of_N (n - 32) else c.

(** Field names are matched without regard to ASCII case. *)
Fixpoint fold_eq (a b : string) : bool :=
  match a, b with
  | EmptyString, EmptyString => true
  | String x a', String y b' => Ascii.eqb (upper x) (upper y) && fold_eq a' b'
  | _, _ => false
  end.

End JSON.

(** ** Packages os and path/filepath, taken as interfaces *)

(** What the path functions read of the process: the environment and the
    outcome of [os.UserHomeDir]. *)
Module os.
Record t : Type := {
  Getenv : string -> string;
  UserHomeDir : result string
}.
End os.

Module filepath.
(** [filepath.Join] of the elements given. *)
Class Joiner : Type := {
  Join : list string -> string
}.
End filepath.

(** ** Package internal/store *)

Module store.

(** *** headers.go *)

(** [type HeaderMap map[string][]string].  The outer [None] is the nil map,
    an inner [None] a nil slice. *)
Abbreviation HeaderMap := (option (gmap string (option (list string)))).

Module HeaderKV.
Record t : Type := { Name : string; Value : string }.
End HeaderKV.

(** [json.Unmarshal] into a [HeaderKV] holding [cur]. *)
Fixpoint into_HeaderKV_fields (ms : list (string * JSON.value)) (cur : HeaderKV.t)
  : option HeaderKV.t :=
  match ms with
  | [] => Some cur
  | (k, v) :: ms' =>
      if JSON.fold_eq k "name" then
        match JSON.into_string (HeaderKV.Name cur) v with
        | Some s =>
            into_HeaderKV_fields ms' {| HeaderKV.Name := s; HeaderKV.Value := HeaderKV.Value cur |}
        | None => None
        end
      else if JSON.fold_eq k "value" then
        match JSON.into_string (HeaderKV.Value cur) v with
        | Some s =>
            into_HeaderKV_fields ms' {| HeaderKV.Name := HeaderKV.Name cur; HeaderKV.Value := s |}
        | None => None
        end
      else into_HeaderKV_fields ms' cur
  end.

Definition into_HeaderKV (v : JSON.value) : option HeaderKV.t :=
  let zero := {| HeaderKV.Name := ""; HeaderKV.Value := "" |} in
  match v with
  | JSON.Null => Some zero
  | JSON.Object ms => into_HeaderKV_fields ms zero
  | _ => None
  end.

Fixpoint into_HeaderKVs (vs : list JSON.value) : option (list HeaderKV.t) :=
  match vs with
  | [] => Some []
  | v :: vs' =>
      match into_HeaderKV v, into_HeaderKVs vs' with
      | Some kv, Some kvs => Some (kv :: kvs)
      | _, _ => None
      end
  end.

(** [json.Unmarshal] into a nil [[]HeaderKV]. *)
Definition into_HeaderKV_list (v : JSON.value) : option (list HeaderKV.t) :=
  match v with
  | JSON.Null => Some []
  | JSON.Array vs => into_HeaderKVs vs
  | _ => None
  end.

(** [append(converted[item.Name], item.Value)]: a missing key reads as the
    nil slice. *)
Definition append_value (m : gmap string (option (list string))) (name value : string)
  : gmap string (option (list string)) :=
  <[name := Some (default [] (default None (m !! name)) ++ [value])%list]> m.

(** The loop over the pair list: entries with an empty name are skipped. *)
Fixpoint convert_list (items : list HeaderKV.t) (converted : gmap string (option (list string)))
  : gmap string (option (list string)) :=
  match items with
  | [] => converted
  | item :: items' =>
      if String.eqb (HeaderKV.Name item) "" then convert_list items' converted
      else convert_list items'
             (append_value converted (HeaderKV.Name item) (HeaderKV.Value item))
  end.

(** [HeaderMap.UnmarshalJSON]; the result is the new value of [*h]. *)
Definition UnmarshalJSON (data : option JSON.value) : result HeaderMap :=
  match data with
  | Some JSON.Null => Ok None
  | None => Error "unsupported header format"
  | Some v =>
      match JSON.into_map JSON.into_string_slice v with
      | Some multi => Ok multi
      | None =>
          match JSON.into_map (JSON.into_string "") v with
          | Some single =>
              Ok (Some ((fun s => Some [s]) <$> default ∅ single))
          | None =>
              match into_HeaderKV_list v with
              | Some list => Ok (Some (convert_list list ∅))
              | None => Error "unsupported header format"
              end
          end
      end
  end.

(** The rendering of a [HeaderMap] by [json.Marshal]: [null] for a nil map
    or slice, otherwise an object with its keys in sorted order. *)
Definition encode_slice (s : option (list string)) : JSON.value :=
  match s with
  | None => JSON.Null
  | Some l => JSON.Array (JSON.Str <$> l)
  end.

Definition key_le (p q : string * JSON.value) : Prop := String.leb p.1 q.1 = true.

#[global] Instance key_le_dec p q : Decision (key_le p q).
Proof. unfold key_le. apply _. Defined.

Definition MarshalJSON (h : HeaderMap) : JSON.value :=
  match h with
  | None => JSON.Null
  | Some m => JSON.Object (merge_sort key_le (map_to_list (encode_slice <$> m)))
  end.

(** The decoder in the order the specification gives: the single-value map
    first, then the map of lists, then the list of pairs. *)
Definition UnmarshalJSON_spec_order (data : option JSON.value) : result HeaderMap :=
  match data with
  | Some JSON.Null => Ok None
  | None => Error "unsupported header format"
  | Some v =>
      match JSON.into_map (JSON.into_string "") v with
      | Some single => Ok (Some ((fun s => Some [s]) <$> default ∅ single))
      | None =>
          match JSON.into_map JSON.into_string_slice v with
          | Some multi => Ok multi
          | None =>
              match into_HeaderKV_list v with
              | Some list => Ok (Some (convert_list list ∅))
              | None => Error "unsupported header format"
              end
          end
      end
  end.

(** The wire form [{name: value, ...}] of a single-value map. *)
Definition single_value_object (members : list (string * string)) : JSON.value :=
  JSON.Object (prod_map id JSON.Str <$> members).

(** The wire form [[{"name": n, "value": v}, ...]] of a list of pairs. *)
Definition pair_object (item : HeaderKV.t) : JSON.value :=
  JSON.Object [("name", JSON.Str (HeaderKV.Name item));
               ("value", JSON.Str (HeaderKV.Value item))].

Definition pair_list (items : list HeaderKV.t) : JSON.value :=
  JSON.Array (pair_object <$> items).

(** The values the pairs named [name] carry, in order. *)
Definition values_of (name : string) (items : list HeaderKV.t) : list string :=
  HeaderKV.Value <$> List.filter (fun item => String.eqb (HeaderKV.Name item) name) items.

(** *** types.go *)

Module Response.
Record t : Type := {
  Status : Z;
  Headers : HeaderMap;
  Body : string
}.
End Response.

Module Request.
Record t : Type := {
  ID : string;
  OriginalID : string;
  Method : string;
  URL : string;
  PageURL : string;
  ResourceType : string;
  Initiator : string;
  Headers : HeaderMap;
  Body : string;
  Response : option Response.t;
  ResponseEncoding : string;
  Timestamp : Z;
(* computed fields, never written to disk *)
Domain : string;
Path : string
}.

(** [req.Domain = domain; req.Path = path]. *)
Definition with_computed (req : t) (domain path : string) : t :=
  {| ID := ID req; OriginalID := OriginalID req; Method := Method req;
     URL := URL req; PageURL := PageURL req; ResourceType := ResourceType req;
     Initiator := Initiator req; Headers := Headers req; Body := Body req;
     Response := Response req; ResponseEncoding := ResponseEncoding req;
     Timestamp := Timestamp req; Domain := domain; Path := path |}.
End Request.

Module Session.
Record t : Type := {
  ID : string;
  Timestamp : Z;
  Note : string;
  Requests : list Request.t
}.
End Session.

(** [type Store struct]; nil and empty slices and maps are not told apart
    here (the code only takes their length or looks keys up). *)
Module Store.
Record t : Type := {
  Sessions : list Session.t;
  IgnoredDomains : gmap string bool;
  PrimaryDomains : gmap string bool;
(* legacy fields *)
Requests : list Request.t;
LastImport : Z
}.
End Store.

Module FilterOptions.
Record t : Type := {
  Domain : string;
  Domains : list string;
  Method : string;
  Methods : list string;
  Status : Z;
  StatusRange : string;
  StatusRanges : list string;
  ResourceTypes : list string;
  Pattern : string;
  ExcludeIgnored : bool;
  PrimaryOnly : bool;
  Limit : Z;
  Offset : Z
}.

(** The zero value [FilterOptions{}]. *)
Definition zero : t :=
  {| Domain := ""; Domains := []; Method := ""; Methods := []; Status := 0;
     StatusRange := ""; StatusRanges := []; ResourceTypes := []; Pattern := "";
     ExcludeIgnored := false; PrimaryOnly := false; Limit := 0; Offset := 0 |}.

(** [opts.Limit = limit; opts.Offset = offset]. *)
Definition with_page (opts : t) (limit offset : Z) : t :=
  {| Domain := Domain opts; Domains := Domains opts; Method := Method opts;
     Methods := Methods opts; Status := Status opts;
     StatusRange := StatusRange opts; StatusRanges := StatusRanges opts;
     ResourceTypes := ResourceTypes opts; Pattern := Pattern opts;
     ExcludeIgnored := ExcludeIgnored opts; PrimaryOnly := PrimaryOnly opts;
     Limit := limit; Offset := offset |}.

(** [opts.StatusRange = sr; opts.StatusRanges = srs]. *)
Definition with_ranges (opts : t) (sr : string) (srs : list string) : t :=
  {| Domain := Domain opts; Domains := Domains opts; Method := Method opts;
     Methods := Methods opts; Status := Status opts;
     StatusRange := sr; StatusRanges := srs;
     ResourceTypes := ResourceTypes opts; Pattern := Pattern opts;
     ExcludeIgnored := ExcludeIgnored opts; PrimaryOnly := PrimaryOnly opts;
     Limit := Limit opts; Offset := Offset opts |}.
End FilterOptions.

(** *** hash.go *)

(** [RequestHash]; [None] is the nil pointer. *)
Definition RequestHash (req : option Request.t) : string :=
  match req with
  | None => ""
  | Some r =>
      let raw := (Request.Method r ++ "|" ++ Request.URL r ++ "|" ++ Request.Body r
                  ++ "|" ++ GoString.fmt_d (Request.Timestamp r))%string in
      let sum := SHA256.Sum256 (GoString.bytes_of raw) in
      GoString.fmt_x sum
  end.

Definition isStableID (req : option Request.t) : bool :=
  match req with
  | None => false
  | Some r =>
      if String.eqb (Request.ID r) "" then false
      else if negb (String.eqb (Request.OriginalID r) "") then true
      else GoString.HasPrefix (Request.ID r) "h_"
  end.

Definition RequestFingerprint (req : option Request.t) : string :=
  match req with
  | None => ""
  | Some r => if isStableID req then Request.ID r else RequestHash req
  end.

Definition requestIndexKeys (req : option Request.t) : list string :=
  let hash := RequestHash req in
  let keys := if negb (String.eqb hash "") then [("hash:" ++ hash)%string] else [] in
  match req with
  | Some r =>
      if isStableID req && negb (String.eqb (Request.ID r) "")
      then (keys ++ [("id:" ++ Request.ID r)%string])%list else keys
  | None => keys
  end.

(** *** store.go *)

Definition NewStore : Store.t :=
  {| Store.Sessions := []; Store.IgnoredDomains := ∅; Store.PrimaryDomains := ∅;
     Store.Requests := []; Store.LastImport := 0 |}.

(** The body of the loop of [NewTempStore]. *)
Definition temp_fields `{url.Parser} (req : Request.t) : Request.t :=
  match url.Parse (Request.URL req) with
  | Some parsed => Request.with_computed req (url.Host parsed) (url.Path parsed)
  | None => req
  end.

Definition NewTempStore `{url.Parser} (requests : list Request.t) : Store.t :=
  let s := NewStore in
  {| Store.Sessions := Store.Sessions s;
     Store.IgnoredDomains := Store.IgnoredDomains s;
     Store.PrimaryDomains := Store.PrimaryDomains s;
     Store.Requests := temp_fields <$> requests;
     Store.LastImport := Store.LastImport s |}.

Definition ComputeRequestFields `{url.Parser} (req : Request.t) : Request.t :=
  match url.Parse (Request.URL req) with
  | Some parsedURL =>
      let path := url.Path parsedURL in
      let path :=
        if negb (String.eqb (url.RawQuery parsedURL) "")
        then (path ++ "?" ++ url.RawQuery parsedURL)%string else path in
      Request.with_computed req (url.Host parsedURL) path
  | None => req
  end.

(** The outcome of [os.ReadFile]. *)
Inductive ReadFile_result : Type :=
| ReadOk (data : string)
| NotExist
| ReadFailed (err : string).

(** What [Load] reads from its environment: the store path, the file
    system, and the clock ([time.Now] formatted as [20060102] and in
    milliseconds). *)
Module Env.
Record t : Type := {
  StoreFilePath : result string;
  ReadFile : string -> ReadFile_result;
  Today : string;
  NowMilli : Z
}.
End Env.

Definition compute_session `{url.Parser} (sess : Session.t) : Session.t :=
  {| Session.ID := Session.ID sess; Session.Timestamp := Session.Timestamp sess;
     Session.Note := Session.Note sess;
     Session.Requests := ComputeRequestFields <$> Session.Requests sess |}.

(** The part of [Load] that follows a successful decode. *)
Definition migrate `{url.Parser} (env : Env.t) (store : Store.t) : Store.t :=
  let store :=
    if (0 <? Z.of_nat (length (Store.Requests store)))
       && (Z.of_nat (length (Store.Sessions store)) =? 0)
    then
      let session :=
        {| Session.ID := ("migrated-" ++ Env.Today env)%string;
           Session.Timestamp := Env.NowMilli env;
           Session.Note := "Auto-migrated from old format";
           Session.Requests := ComputeRequestFields <$> Store.Requests store |} in
      {| Store.Sessions := (Store.Sessions store ++ [session])%list;
         Store.IgnoredDomains := Store.IgnoredDomains store;
         Store.PrimaryDomains := Store.PrimaryDomains store;
         Store.Requests := [];
         Store.LastImport := 0 |}
    else store in
  {| Store.Sessions := compute_session <$> Store.Sessions store;
     Store.IgnoredDomains := Store.IgnoredDomains store;
     Store.PrimaryDomains := Store.PrimaryDomains store;
     Store.Requests := Store.Requests store;
     Store.LastImport := Store.LastImport store |}.

Definition Load `{url.Parser} `{sonic.Decoder Store.t} (env : Env.t) : result Store.t :=
  match Env.StoreFilePath env with
  | Error err => Error err
  | Ok filePath =>
      let store := NewStore in
      match Env.ReadFile env filePath with
      | NotExist => Ok store
      | ReadFailed err => Error ("failed to read store: " ++ err)%string
      | ReadOk data =>
          match sonic.Unmarshal data store with
          | Error err => Error ("failed to parse store: " ++ err)%string
          | Ok store => Ok (migrate env store)
          end
      end
  end.

(** What [Save] keeps of a request: the computed fields carry the tag
    [json:"-"] and read back as empty. *)
Definition persisted_request (req : Request.t) : Request.t :=
  Request.with_computed req "" "".

Definition persisted_session (sess : Session.t) : Session.t :=
  {| Session.ID := Session.ID sess; Session.Timestamp := Session.Timestamp sess;
     Session.Note := Session.Note sess;
     Session.Requests := persisted_request <$> Session.Requests sess |}.

(** The store a decode reads back from the file [Save] wrote for [s]. *)
Definition persisted (s : Store.t) : Store.t :=
  {| Store.Sessions := persisted_session <$> Store.Sessions s;
     Store.IgnoredDomains := Store.IgnoredDomains s;
     Store.PrimaryDomains := Store.PrimaryDomains s;
     Store.Requests := persisted_request <$> Store.Requests s;
     Store.LastImport := Store.LastImport s |}.

(** [Store.AddSession]: the store afterwards and the session added. *)
Definition AddSession `{url.Parser} (s : Store.t) (id note : string)
    (requests : list Request.t) (nowMilli : Z) : Store.t * Session.t :=
  let session :=
    {| Session.ID := id; Session.Timestamp := nowMilli; Session.Note := note;
       Session.Requests := ComputeRequestFields <$> requests |} in
  ({| Store.Sessions := (Store.Sessions s ++ [session])%list;
      Store.IgnoredDomains := Store.IgnoredDomains s;
      Store.PrimaryDomains := Store.PrimaryDomains s;
      Store.Requests := Store.Requests s;
      Store.LastImport := Store.LastImport s |}, session).

(** [Store.GetRequest]: the first request of the store with this ID. *)
Definition GetRequest (s : Store.t) (id : string) : option Request.t :=
  find (fun r => String.eqb (Request.ID r) id) (Store.Requests s).

(** *** Store.Filter *)

(** [m[key]] on a [map[string]bool]: a missing key reads as [false]. *)
Definition index (m : gmap string bool) (key : string) : bool :=
  default false (m !! key).

(** [len(l) > 0]. *)
Definition nonempty {A} (l : list A) : bool := 0 <? Z.of_nat (length l).

(** The [switch] on [opts.StatusRange]: [true] when the request is
    skipped. *)
Definition outside_range (sr : string) (status : Z) : bool :=
  if String.eqb sr "2xx" then (status <? 200) || (300 <=? status)
  else if String.eqb sr "3xx" then (status <? 300) || (400 <=? status)
  else if String.eqb sr "4xx" then (status <? 400) || (500 <=? status)
  else if String.eqb sr "5xx" then (status <? 500) || (600 <=? status)
  else false.

(** The [switch] inside the loop over [opts.StatusRanges]: [true] when
    [matched] is set. *)
Definition in_range (status : Z) (sr : string) : bool :=
  if String.eqb sr "2xx" then (200 <=? status) && (status <? 300)
  else if String.eqb sr "3xx" then (300 <=? status) && (status <? 400)
  else if String.eqb sr "4xx" then (400 <=? status) && (status <? 500)
  else if String.eqb sr "5xx" then (500 <=? status) && (status <? 600)
  else false.

(** The pattern as prepared before the loop: the trimmed pattern, the
    compiled expression if it compiles, and the lower-cased pattern
    otherwise. *)
Module Prepared.
Record t `{regexp.Engine} : Type := {
  pattern : string;
  patternRE : option regexp.Regexp;
  patternLower : string
}.
End Prepared.

Definition prepare `{GoString.Unicode} `{regexp.Engine} (opts : FilterOptions.t)
  : Prepared.t :=
  let pattern := GoString.TrimSpace (FilterOptions.Pattern opts) in
  if negb (String.eqb pattern "") then
    match regexp.Compile pattern with
    | Some re =>
        {| Prepared.pattern := pattern; Prepared.patternRE := Some re;
           Prepared.patternLower := "" |}
    | None =>
        {| Prepared.pattern := pattern; Prepared.patternRE := None;
           Prepared.patternLower := GoString.ToLower pattern |}
    end
  else
    {| Prepared.pattern := pattern; Prepared.patternRE := None;
       Prepared.patternLower := "" |}.

Section Guards.
Context `{GoString.Unicode} `{regexp.Engine}.
Variables (s : Store.t) (opts : FilterOptions.t) (req : Request.t).

(** The conditions of the [continue] statements, in source order. *)
Definition skip_ignored : bool :=
  FilterOptions.ExcludeIgnored opts
  && index (Store.IgnoredDomains s) (Request.Domain req).

Definition skip_not_primary : bool :=
  FilterOptions.PrimaryOnly opts
  && negb (index (Store.PrimaryDomains s) (Request.Domain req)).

Definition skip_domain : bool :=
  negb (String.eqb (FilterOptions.Domain opts) "")
  && negb (GoString.EqualFold (Request.Domain req) (FilterOptions.Domain opts)).

Definition skip_domains : bool :=
  nonempty (FilterOptions.Domains opts)
  && negb (existsb (GoString.EqualFold (Request.Domain req)) (FilterOptions.Domains opts)).

Definition skip_method : bool :=
  negb (String.eqb (FilterOptions.Method opts) "")
  && negb (GoString.EqualFold (Request.Method req) (FilterOptions.Method opts)).

Definition skip_methods : bool :=
  nonempty (FilterOptions.Methods opts)
  && negb (existsb (GoString.EqualFold (Request.Method req)) (FilterOptions.Methods opts)).

Definition skip_status : bool :=
  negb (FilterOptions.Status opts =? 0)
  && match Request.Response req with
     | None => true
     | Some resp => negb (Response.Status resp =? FilterOptions.Status opts)
     end.

Definition skip_status_range : bool :=
  match Request.Response req with
  | Some resp =>
      negb (String.eqb (FilterOptions.StatusRange opts) "")
      && outside_range (FilterOptions.StatusRange opts) (Response.Status resp)
  | None => false
  end.

Definition skip_status_ranges : bool :=
  match Request.Response req with
  | Some resp =>
      nonempty (FilterOptions.StatusRanges opts)
      && negb (existsb (in_range (Response.Status resp)) (FilterOptions.StatusRanges opts))
  | None => false
  end.

Definition skip_resource_types : bool :=
  nonempty (FilterOptions.ResourceTypes opts)
  && negb (existsb (GoString.EqualFold (Request.ResourceType req))
             (FilterOptions.ResourceTypes opts)).

Definition skip_pattern (p : Prepared.t) : bool :=
  negb (String.eqb (Prepared.pattern p) "")
  && match Prepared.patternRE p with
     | Some re => negb (regexp.MatchString re (Request.URL req))
     | None =>
         negb (GoString.Contains (GoString.ToLower (Request.URL req))
                 (Prepared.patternLower p))
     end.

(** [true] when the loop body reaches the pagination step. *)
Definition passes (p : Prepared.t) : bool :=
  if skip_ignored then false
  else if skip_not_primary then false
  else if skip_domain then false
  else if skip_domains then false
  else if skip_method then false
  else if skip_methods then false
  else if skip_status then false
  else if skip_status_range then false
  else if skip_status_ranges then false
  else if skip_resource_types then false
  else if skip_pattern p then false
  else true.
End Guards.

(** The variables the loop of [Filter] updates; [stopped] is set by
    [break]. *)
Module Loop.
Record t : Type := { Offset : Z; result : list Request.t; stopped : bool }.
End Loop.

Definition Filter_body `{GoString.Unicode} `{regexp.Engine} (s : Store.t)
    (opts : FilterOptions.t) (p : Prepared.t) (st : Loop.t) (req : Request.t) : Loop.t :=
  if Loop.stopped st then st
  else if negb (passes s opts req p) then st
  else if 0 <? Loop.Offset st then
    {| Loop.Offset := Loop.Offset st - 1; Loop.result := Loop.result st;
       Loop.stopped := false |}
  else
    let result := (Loop.result st ++ [req])%list in
    {| Loop.Offset := Loop.Offset st; Loop.result := result;
       Loop.stopped := (0 <? FilterOptions.Limit opts)
                       && (FilterOptions.Limit opts <=? Z.of_nat (length result)) |}.

Definition Filter `{GoString.Unicode} `{regexp.Engine} (s : Store.t)
    (opts : FilterOptions.t) : list Request.t :=
  let p := prepare opts in
  Loop.result
    (fold_left (Filter_body s opts p) (Store.Requests s)
       {| Loop.Offset := FilterOptions.Offset opts; Loop.result := [];
          Loop.stopped := false |}).

(** *** Reference definitions for the filter

    [page limit offset matching] is what pagination keeps of the matching
    requests: it drops [offset] of them and then keeps [limit], where a
    value that is not positive means no bound. *)
Definition page {A} (limit offset : Z) (matching : list A) : list A :=
  let rest := skipn (Z.to_nat offset) matching in
  if 0 <? limit then firstn (Z.to_nat limit) rest else rest.

(** [includes both one]: every predicate that [one] sets is set to the same
    value in [both]. *)
Definition includes `{GoString.Unicode} (both one : FilterOptions.t) : Prop :=
  (FilterOptions.ExcludeIgnored one = false
   \/ FilterOptions.ExcludeIgnored one = FilterOptions.ExcludeIgnored both)
  /\ (FilterOptions.PrimaryOnly one = false
      \/ FilterOptions.PrimaryOnly one = FilterOptions.PrimaryOnly both)
  /\ (FilterOptions.Domain one = "" \/ FilterOptions.Domain one = FilterOptions.Domain both)
  /\ (FilterOptions.Domains one = []
      \/ FilterOptions.Domains one = FilterOptions.Domains both)
  /\ (FilterOptions.Method one = "" \/ FilterOptions.Method one = FilterOptions.Method both)
  /\ (FilterOptions.Methods one = []
      \/ FilterOptions.Methods one = FilterOptions.Methods both)
  /\ (FilterOptions.Status one = 0 \/ FilterOptions.Status one = FilterOptions.Status both)
  /\ (FilterOptions.StatusRange one = ""
      \/ FilterOptions.StatusRange one = FilterOptions.StatusRange both)
  /\ (FilterOptions.StatusRanges one = []
      \/ FilterOptions.StatusRanges one = FilterOptions.StatusRanges both)
  /\ (FilterOptions.ResourceTypes one = []
      \/ FilterOptions.ResourceTypes one = FilterOptions.ResourceTypes both)
  /\ (GoString.TrimSpace (FilterOptions.Pattern one) = ""
      \/ FilterOptions.Pattern one = FilterOptions.Pattern both).

(** *** Sessions, and the ignore and primary sets (store.go) *)

(** [Store.Clear] and [Store.ClearAll]. *)
Definition Clear (s : Store.t) : Store.t :=
  {| Store.Sessions := []; Store.IgnoredDomains := Store.IgnoredDomains s;
     Store.PrimaryDomains := Store.PrimaryDomains s;
     Store.Requests := Store.Requests s; Store.LastImport := Store.LastImport s |}.

Definition ClearAll (s : Store.t) : Store.t :=
  {| Store.Sessions := []; Store.IgnoredDomains := ∅; Store.PrimaryDomains := ∅;
     Store.Requests := Store.Requests s; Store.LastImport := Store.LastImport s |}.

(** [Store.GetSession]: the exact match first, then the first session whose
    ID starts with [id]; [None] is the nil pointer. *)
Definition GetSession (s : Store.t) (id : string) : option Session.t :=
  match find (fun sess => String.eqb (Session.ID sess) id) (Store.Sessions s) with
  | Some sess => Some sess
  | None => find (fun sess => GoString.HasPrefix (Session.ID sess) id) (Store.Sessions s)
  end.

(** [Store.ListSessions]: a copy of the sessions, reversed in place. *)
Definition ListSessions (s : Store.t) : list Session.t := rev (Store.Sessions s).

Definition GetLatestSession (s : Store.t) : option Session.t := last (Store.Sessions s).

Definition SessionCount (s : Store.t) : Z := Z.of_nat (length (Store.Sessions s)).

Definition IsIgnored (s : Store.t) (domain : string) : bool :=
  index (Store.IgnoredDomains s) domain.

Definition IsPrimary (s : Store.t) (domain : string) : bool :=
  index (Store.PrimaryDomains s) domain.

(** The loop of [Ignore] and of [SetPrimary] over a [map[string]bool]: the
    map and [count] after one domain. *)
Definition mark (st : gmap string bool * Z) (domain : string) : gmap string bool * Z :=
  if negb (index (fst st) domain) then (<[domain := true]> (fst st), snd st + 1) else st.

(** The loop of [Unignore] and of [UnsetPrimary]. *)
Definition unmark (st : gmap string bool * Z) (domain : string) : gmap string bool * Z :=
  if index (fst st) domain then (delete domain (fst st), snd st + 1) else st.

Definition with_ignored (s : Store.t) (m : gmap string bool) : Store.t :=
  {| Store.Sessions := Store.Sessions s; Store.IgnoredDomains := m;
     Store.PrimaryDomains := Store.PrimaryDomains s;
     Store.Requests := Store.Requests s; Store.LastImport := Store.LastImport s |}.


(** [Store.Ignore]: the count returned and the store afterwards. *)
Definition Ignore (s : Store.t) (domains : list string) : Z * Store.t :=
  let st := fold_left mark domains (Store.IgnoredDomains s, 0) in
  (snd st, with_ignored s (fst st)).

Definition Unignore (s : Store.t) (domains : list string) : Z * Store.t :=
  let st := fold_left unmark domains (Store.IgnoredDomains s, 0) in
  (snd st, with_ignored s (fst st)).



Definition string_le (a b : string) : Prop := String.leb a b = true.

#[global] Instance string_le_dec a b : Decision (string_le a b).
Proof. unfold string_le. apply _. Defined.

(** [Store.GetIgnoredDomains] and [Store.GetPrimaryDomains]: the keys of the
    map, sorted by [sort.Strings]. *)
Definition GetIgnoredDomains (s : Store.t) : list string :=
  merge_sort string_le (map_to_list (Store.IgnoredDomains s)).*1.

Definition GetPrimaryDomains (s : Store.t) : list string :=
  merge_sort string_le (map_to_list (Store.PrimaryDomains s)).*1.

(** [Store.GetRequestFromSessions]: the first request with this ID, session
    by session. *)
Definition GetRequestFromSessions (s : Store.t) (id : string) : option Request.t :=
  find (fun r => String.eqb (Request.ID r) id)
    (concat (Session.Requests <$> Store.Sessions s)).

(** *** GenerateSessionID *)

(** The runes the loop keeps: [a-z], [0-9] and the hyphen.  They are single
    bytes, and no byte of another rune is one of them, so the loop over runes
    is a filter on bytes. *)
Definition keeps (c : ascii) : bool :=
  let n := N_of_ascii c in
  ((97 <=? n) && (n <=? 122) || (48 <=? n) && (n <=? 57) || (n =? 45))%N.

Fixpoint filter_bytes (f : ascii -> bool) (s : string) : string :=
  match s with
  | EmptyString => EmptyString
  | String c s' => if f c then String c (filter_bytes f s') else filter_bytes f s'
  end.

(** [strings.ReplaceAll(s, " ", "-")]. *)
Fixpoint spaces_to_hyphens (s : string) : string :=
  match s with
  | EmptyString => EmptyString
  | String c s' =>
      String (if Ascii.eqb c " " then "-"%char else c) (spaces_to_hyphens s')
  end.

(** [strings.TrimRight(s, "-")]. *)
Fixpoint trim_hyphens_right (s : string) : string :=
  match s with
  | EmptyString => EmptyString
  | String c s' =>
      match trim_hyphens_right s' with
      | EmptyString => if Ascii.eqb c "-" then EmptyString else String c EmptyString
      | rest => String c rest
      end
  end.

(** [GenerateSessionID note]; [base] is [time.Now().Format("20060102-150405")]. *)
Definition GenerateSessionID `{GoString.Unicode} (base note : string) : string :=
  if String.eqb note "" then base
  else
    let sanitized := GoString.ToLower note in
    let sanitized := spaces_to_hyphens sanitized in
    let sanitized := filter_bytes keeps sanitized in
    let sanitized :=
      if (30 <? String.length sanitized)%nat then String.substring 0 30 sanitized
      else sanitized in
    let sanitized := trim_hyphens_right sanitized in
    if String.eqb sanitized "" then base
    else (base ++ "-" ++ sanitized)%string.

(** *** GetBaseDomain and IsFirstParty *)


(** [strings.Join(parts, sep)] for a separator of one byte. *)
Fixpoint Join (sep : ascii) (parts : list string) : string :=
  match parts with
  | [] => EmptyString
  | [part] => part
  | part :: parts' => (part ++ String sep (Join sep parts'))%string
  end.



(** *** Header lookup (headers.go)

    [range] over a Go map visits the entries in an unspecified order; the
    lookups take that order as [entries], a permutation of the entries of the
    map. *)
Definition HeaderValuesWithKey `{GoString.Unicode}
    (entries : list (string * option (list string))) (name : string)
  : string * option (list string) :=
  match find (fun kv => GoString.EqualFold kv.1 name) entries with
  | Some (key, values) => (key, values)
  | None => ("", None)
  end.

Definition HeaderValues `{GoString.Unicode}
    (entries : list (string * option (list string))) (name : string)
  : option (list string) :=
  match find (fun kv => GoString.EqualFold kv.1 name) entries with
  | Some (_, values) => values
  | None => None
  end.

Definition HeaderFirst `{GoString.Unicode}
    (entries : list (string * option (list string))) (name : string) : string :=
  match HeaderValues entries name with
  | Some (value :: _) => value
  | _ => ""
  end.

(** *** GetDomains *)

Module DomainInfo.
Record t : Type := {
  Domain : string;
  RequestCount : Z;
  Methods : gmap string Z;
  Endpoints : list string;
  IsIgnored : bool;
  IsPrimary : bool
}.
End DomainInfo.

(** [strings.Index(s, sep)] for a separator of one byte. *)
Fixpoint Index (sep : ascii) (s : string) : Z :=
  match s with
  | EmptyString => -1
  | String c s' =>
      if Ascii.eqb c sep then 0
      else let i := Index sep s' in if i <? 0 then -1 else i + 1
  end.

(** The method and the path without its query. *)
Definition endpoint_of (req : Request.t) : string :=
  let pathOnly := Request.Path req in
  let idx := Index "?" pathOnly in
  let pathOnly :=
    if 0 <? idx then String.substring 0 (Z.to_nat idx) pathOnly else pathOnly in
  (Request.Method req ++ " " ++ pathOnly)%string.

(** The body of the first loop of [GetDomains]: [domainMap] after one
    request. *)
Definition GetDomains_body (s : Store.t) (domainMap : gmap string DomainInfo.t)
    (req : Request.t) : gmap string DomainInfo.t :=
  if String.eqb (Request.Domain req) "" then domainMap
  else
    let info :=
      match domainMap !! Request.Domain req with
      | Some info => info
      | None =>
          {| DomainInfo.Domain := Request.Domain req; DomainInfo.RequestCount := 0;
             DomainInfo.Methods := ∅; DomainInfo.Endpoints := [];
             DomainInfo.IsIgnored := index (Store.IgnoredDomains s) (Request.Domain req);
             DomainInfo.IsPrimary := index (Store.PrimaryDomains s) (Request.Domain req) |}
      end in
    let endpoint := endpoint_of req in
    let found := existsb (fun e => String.eqb e endpoint) (DomainInfo.Endpoints info) in
    let endpoints :=
      if negb found && (Z.of_nat (length (DomainInfo.Endpoints info)) <? 100)
      then (DomainInfo.Endpoints info ++ [endpoint])%list
      else DomainInfo.Endpoints info in
    <[Request.Domain req :=
        {| DomainInfo.Domain := DomainInfo.Domain info;
           DomainInfo.RequestCount := DomainInfo.RequestCount info + 1;
           DomainInfo.Methods :=
             <[Request.Method req :=
                 default 0 (DomainInfo.Methods info !! Request.Method req) + 1]>
               (DomainInfo.Methods info);
           DomainInfo.Endpoints := endpoints;
           DomainInfo.IsIgnored := DomainInfo.IsIgnored info;
           DomainInfo.IsPrimary := DomainInfo.IsPrimary info |}]> domainMap.

Definition domainMap (s : Store.t) : gmap string DomainInfo.t :=
  fold_left (GetDomains_body s) (Store.Requests s) ∅.

(** The order [sort.Slice] leaves: no info has fewer requests than the one
    after it. *)
Definition by_count (a b : DomainInfo.t) : Prop :=
  DomainInfo.RequestCount b <= DomainInfo.RequestCount a.

#[global] Instance by_count_dec a b : Decision (by_count a b).
Proof. unfold by_count. apply _. Defined.

(** [GetDomains s] returns the infos of [domainMap], ranged in an
    unspecified order and sorted by a sort that is not stable: [result] is a
    possible outcome when it holds the infos of the map and is in that
    order. *)
Definition GetDomains (s : Store.t) (result : list DomainInfo.t) : Prop :=
  result ≡ₚ (map_to_list (domainMap s)).*2 /\ Sorted by_count result.

(** The requests of [l] to the domain [d], and those of them with the
    method [m]. *)
Definition to_domain (d : string) (l : list Request.t) : list Request.t :=
  List.filter (fun r => String.eqb (Request.Domain r) d) l.

Definition with_method (m : string) (l : list Request.t) : list Request.t :=
  List.filter (fun r => String.eqb (Request.Method r) m) l.

(** *** GetPageFlows *)

Module PageFlowInfo.
Record t : Type := {
  PageURL : string;
  PageDomain : string;
  RequestedDomains : list string;
  RequestCount : Z
}.
End PageFlowInfo.

(** The host [GetPageFlows] records for a page: empty when the page URL
    does not parse. *)
Definition page_host `{url.Parser} (pageURL : string) : string :=
  match url.Parse pageURL with
  | Some parsedPage => url.Host parsedPage
  | None => ""
  end.

(** The body of the first loop of [GetPageFlows]: [pageMap] after one
    request. *)
Definition GetPageFlows_body `{url.Parser} (pageMap : gmap string PageFlowInfo.t)
    (req : Request.t) : gmap string PageFlowInfo.t :=
  if String.eqb (Request.PageURL req) "" then pageMap
  else
    let info :=
      match pageMap !! Request.PageURL req with
      | Some info => info
      | None =>
          {| PageFlowInfo.PageURL := Request.PageURL req;
             PageFlowInfo.PageDomain := page_host (Request.PageURL req);
             PageFlowInfo.RequestedDomains := [];
             PageFlowInfo.RequestCount := 0 |}
      end in
    let found :=
      existsb (fun d => String.eqb d (Request.Domain req))
        (PageFlowInfo.RequestedDomains info) in
    let domains :=
      if negb found && negb (String.eqb (Request.Domain req) "")
      then (PageFlowInfo.RequestedDomains info ++ [Request.Domain req])%list
      else PageFlowInfo.RequestedDomains info in
    <[Request.PageURL req :=
        {| PageFlowInfo.PageURL := PageFlowInfo.PageURL info;
           PageFlowInfo.PageDomain := PageFlowInfo.PageDomain info;
           PageFlowInfo.RequestedDomains := domains;
           PageFlowInfo.RequestCount := PageFlowInfo.RequestCount info + 1 |}]> pageMap.

Definition pageMap `{url.Parser} (s : Store.t) : gmap string PageFlowInfo.t :=
  fold_left GetPageFlows_body (Store.Requests s) ∅.

(** The second loop: [sort.Strings(info.RequestedDomains)]. *)
Definition sort_domains (info : PageFlowInfo.t) : PageFlowInfo.t :=
  {| PageFlowInfo.PageURL := PageFlowInfo.PageURL info;
     PageFlowInfo.PageDomain := PageFlowInfo.PageDomain info;
     PageFlowInfo.RequestedDomains :=
       merge_sort string_le (PageFlowInfo.RequestedDomains info);
     PageFlowInfo.RequestCount := PageFlowInfo.RequestCount info |}.

Definition by_requests (a b : PageFlowInfo.t) : Prop :=
  PageFlowInfo.RequestCount b <= PageFlowInfo.RequestCount a.

#[global] Instance by_requests_dec a b : Decision (by_requests a b).
Proof. unfold by_requests. apply _. Defined.

(** [GetPageFlows s] returns the infos of [pageMap], their domains sorted,
    ranged in an unspecified order and sorted by a sort that is not stable:
    [result] is a possible outcome when it holds these infos and is in that
    order. *)
Definition GetPageFlows `{url.Parser} (s : Store.t) (result : list PageFlowInfo.t) : Prop :=
  result ≡ₚ sort_domains <$> (map_to_list (pageMap s)).*2 /\ Sorted by_requests result.

(** The requests of [l] made from the page [p]. *)
Definition on_page (p : string) (l : list Request.t) : list Request.t :=
  List.filter (fun r => String.eqb (Request.PageURL r) p) l.

(** *** The paths of the store and of the live file (store.go) *)

Definition StoreFileName : string := "store.json".
Definition LiveFileName : string := "live.json".

Definition GetStorePath `{filepath.Joiner} (env : os.t) : result string :=
  let xdgData := os.Getenv env "XDG_DATA_HOME" in
  if negb (String.eqb xdgData "") then Ok (filepath.Join [xdgData; "rep-cli"])
  else
    match os.UserHomeDir env with
    | Error err => Error ("failed to get home directory: " ++ err)%string
    | Ok home => Ok (filepath.Join [home; ".local"; "share"; "rep-cli"])
    end.

(** [path[2:]] is taken when [path] starts with [~/]. *)
Definition expandHomePath `{filepath.Joiner} (env : os.t) (path : string) : result string :=
  if String.eqb path "~" || GoString.HasPrefix path "~/" then
    match os.UserHomeDir env with
    | Error err => Error ("failed to get home directory: " ++ err)%string
    | Ok home =>
        if String.eqb path "~" then Ok home
        else Ok (filepath.Join [home; String.substring 2 (String.length path - 2) path])
    end
  else Ok path.

Definition GetLiveFilePath `{filepath.Joiner} (env : os.t) : result string :=
  let override := os.Getenv env "REPLIVE_PATH" in
  if negb (String.eqb override "") then expandHomePath env override
  else
    match GetStorePath env with
    | Error err => Error err
    | Ok storePath => Ok (filepath.Join [storePath; LiveFileName])
    end.

Definition GetStoreFilePath `{filepath.Joiner} (env : os.t) : result string :=
  match GetStorePath env with
  | Error err => Error err
  | Ok storePath => Ok (filepath.Join [storePath; StoreFileName])
  end.

(** The orders in which [range] may visit a header map. *)
Definition range_of (headers : HeaderMap) (entries : list (string * option (list string)))
  : Prop :=
  entries ≡ₚ map_to_list (default ∅ headers).

End store.

(** ** The chain command: buildChainForRequest *)

Module cmd.
Import store.

Module ChainLink.
Record t : Type := {
  ID : string;
  Method : string;
  URL : string;
  Status : Z;
  Initiator : string;
  ResourceType : string
}.
End ChainLink.

Module RequestChain.
Record t : Type := { PageURL : string; Links : list ChainLink.t }.
End RequestChain.

Definition findRequestByURL `{GoString.Unicode} `{regexp.Engine} (s : Store.t)
    (targetURL : string) : option Request.t :=
  let requests := Filter s FilterOptions.zero in
  find (fun r => String.eqb (Request.URL r) targetURL) requests.

(** The link appended for a visited request. *)
Definition link_of (current : Request.t) : ChainLink.t :=
  let status :=
    match Request.Response current with
    | Some resp => Response.Status resp
    | None => 0
    end in
  {| ChainLink.ID := Request.ID current; ChainLink.Method := Request.Method current;
     ChainLink.URL := Request.URL current; ChainLink.Status := status;
     ChainLink.Initiator := Request.Initiator current;
     ChainLink.ResourceType := Request.ResourceType current |}.

(** The link that stands for an initiator with no matching request. *)
Definition root_of (current : Request.t) : ChainLink.t :=
  {| ChainLink.ID := ""; ChainLink.Method := "→";
     ChainLink.URL := Request.Initiator current; ChainLink.Status := 0;
     ChainLink.Initiator := ""; ChainLink.ResourceType := "" |}.

(** The [for current != nil && !visited[current.ID]] loop.  [fuel] bounds
    the executions of the loop body; the result is the chain and the number
    of executions of the body, or [None] when the fuel runs out. *)
Fixpoint chain_loop `{GoString.Unicode} `{regexp.Engine} (fuel : nat) (s : Store.t)
    (visited : gset string) (current : option Request.t) (links : list ChainLink.t)
  : option (list ChainLink.t * nat) :=
  match current with
  | None => Some (links, O)
  | Some cur =>
      if decide (Request.ID cur ∈ visited) then Some (links, O)
      else
        match fuel with
        | O => None
        | S fuel' =>
            let visited := {[Request.ID cur]} ∪ visited in
            let links := link_of cur :: links in
            if String.eqb (Request.Initiator cur) "" then Some (links, 1%nat)
            else
              match findRequestByURL s (Request.Initiator cur) with
              | None => Some (root_of cur :: links, 1%nat)
              | Some parent =>
                  if String.eqb (Request.ID parent) (Request.ID cur)
                  then Some (root_of cur :: links, 1%nat)
                  else
                    match chain_loop fuel' s visited (Some parent) links with
                    | Some (links', n) => Some (links', S n)
                    | None => None
                    end
              end
        end
  end.

(** [buildChainForRequest s req]; the loop is run with one unit of fuel per
    stored request plus one for [req] itself. *)
Definition buildChainForRequest `{GoString.Unicode} `{regexp.Engine} (s : Store.t)
    (req : Request.t) : RequestChain.t :=
  {| RequestChain.PageURL := Request.PageURL req;
     RequestChain.Links :=
       match chain_loop (S (length (Store.Requests s))) s ∅ (Some req) [] with
       | Some (links, _) => links
       | None => []
       end |}.

(** The IDs of the stored requests, as a set. *)
Definition stored_ids (s : Store.t) : gset string :=
  list_to_set (Request.ID <$> Store.Requests s).

(** Reference predicate for a chain listed from root to target: the URL of
    every link is the initiator of the link after it. *)
Fixpoint linked (links : list ChainLink.t) : Prop :=
  match links with
  | a :: rest =>
      match rest with
      | b :: _ => ChainLink.Initiator b = ChainLink.URL a
      | [] => True
      end /\ linked rest
  | [] => True
  end.

(** [len(s)]. *)
Definition len (s : string) : Z := Z.of_nat (String.length s).

(** The slice expressions [s[:hi]] and [s[lo:]]; [None] is the run-time
    panic on an index out of range. *)
Definition slice_to (s : string) (hi : Z) : option string :=
  if (0 <=? hi) && (hi <=? len s) then Some (String.substring 0 (Z.to_nat hi) s)
  else None.

Definition slice_from (s : string) (lo : Z) : option string :=
  if (0 <=? lo) && (lo <=? len s)
  then Some (String.substring (Z.to_nat lo) (String.length s - Z.to_nat lo) s)
  else None.

(** [truncateURL]; [None] is a panic. *)
Definition truncateURL `{url.Parser} (u : string) (maxLen : Z) : option string :=
  if len u <=? maxLen then Some u
  else
    match url.Parse u with
    | None => option_map (fun head => (head ++ "...")%string) (slice_to u (maxLen - 3))
    | Some parsed =>
        let domain := url.Host parsed in
        if maxLen - 10 <? len domain
        then option_map (fun head => (head ++ "...")%string) (slice_to u (maxLen - 3))
        else
          let remaining := maxLen - len domain - 6 in
          let path := url.Path parsed in
          if remaining <? len path
          then option_map (fun tail => (domain ++ ("..." ++ tail))%string)
                 (slice_from path (len path - remaining + 3))
          else Some (domain ++ path)%string
    end.

Definition getDomainFromURL `{url.Parser} (u : string) : string :=
  match url.Parse u with
  | None => u
  | Some parsed => url.Host parsed
  end.

(** *** The [--since] option (body.go) *)

Definition maxRequestTimestamp (requests : list Request.t) : Z :=
  fold_left
    (fun max req => if max <? Request.Timestamp req then Request.Timestamp req else max)
    requests 0.

Definition is_digit (c : ascii) : bool :=
  let n := N_of_ascii c in ((48 <=? n) && (n <=? 57))%N.

(** [isDigits] ranges over the runes of the text; a rune outside ASCII is
    no digit and none of its bytes is one, so the test is one on bytes. *)
Definition isDigits (text : string) : bool :=
  forallb is_digit (list_ascii_of_string text) && negb (String.eqb text "").

(** The number a text of decimal digits denotes. *)
Definition decimal (text : string) : Z :=
  fold_left (fun acc c => 10 * acc + (Z.of_N (N_of_ascii c) - 48))
    (list_ascii_of_string text) 0.

Definition MaxInt64 : Z := 2 ^ 63 - 1.

(** The value of an [int64] expression whose mathematical value is [z]. *)
Definition wrap64 (z : Z) : Z := (z + 2 ^ 63) mod 2 ^ 64 - 2 ^ 63.

Definition quote : string := String (ascii_of_nat 34) EmptyString.

(** [strconv.ParseInt(text, 10, 64)] on a text of decimal digits: its
    value, or the range error. *)
Definition ParseInt (text : string) : result Z :=
  if decimal text <=? MaxInt64 then Ok (decimal text)
  else Error ("strconv.ParseInt: parsing " ++ quote ++ text ++ quote
              ++ ": value out of range")%string.

(** [time.Parse] with the layouts [RFC3339Nano] and [RFC3339], followed by
    [UnixMilli], taken as an interface. *)
Class TimeParser : Type := {
  ParseRFC3339Nano : string -> result Z;
  ParseRFC3339 : string -> result Z
}.

Definition parseSince `{GoString.Unicode} `{TimeParser} (value : string) : result Z :=
  let text := GoString.TrimSpace value in
  if String.eqb text "" then Ok 0
  else if isDigits text then
    match ParseInt text with
    | Error err => Error ("invalid since value: " ++ err)%string
    | Ok val => if len text <=? 10 then Ok (wrap64 (val * 1000)) else Ok val
    end
  else
    match ParseRFC3339Nano text with
    | Ok t => Ok t
    | Error _ =>
        match ParseRFC3339 text with
        | Error err => Error ("invalid since value: " ++ err)%string
        | Ok t => Ok t
        end
    end.

(** *** The auth command: names and values written for the shell *)

(** The byte [sanitizeEnvPrefix] writes for the byte [ch]. *)
Definition env_byte (ch : ascii) : ascii :=
  let n := N_of_ascii ch in
  if ((97 <=? n) && (n <=? 122))%N then ascii_of_N (n - 32)
  else if ((65 <=? n) && (n <=? 90))%N then ch
  else if ((48 <=? n) && (n <=? 57))%N then ch
  else "_"%char.

Fixpoint map_bytes (f : ascii -> ascii) (s : string) : string :=
  match s with
  | EmptyString => EmptyString
  | String c s' => String (f c) (map_bytes f s')
  end.

(** [strings.TrimLeft], [strings.TrimRight] and [strings.Trim] for a cutset
    of one byte. *)
Fixpoint TrimLeft (cut : ascii) (s : string) : string :=
  match s with
  | EmptyString => EmptyString
  | String c s' => if Ascii.eqb c cut then TrimLeft cut s' else s
  end.

Fixpoint TrimRight (cut : ascii) (s : string) : string :=
  match s with
  | EmptyString => EmptyString
  | String c s' =>
      match TrimRight cut s' with
      | EmptyString => if Ascii.eqb c cut then EmptyString else String c EmptyString
      | rest => String c rest
      end
  end.

Definition Trim (cut : ascii) (s : string) : string := TrimRight cut (TrimLeft cut s).

Definition sanitizeEnvPrefix `{GoString.Unicode} (value : string) : string :=
  let trimmed := GoString.TrimSpace value in
  if String.eqb trimmed "" then ""
  else
    let out := Trim "_" (map_bytes env_byte trimmed) in
    match out with
    | EmptyString => ""
    | String first _ => if is_digit first then ("AUTH_" ++ out)%string else out
    end.

Definition resolveAuthPrefix `{GoString.Unicode} (prefix domain : string) : string :=
  let cleaned := sanitizeEnvPrefix prefix in
  if negb (String.eqb cleaned "") then cleaned
  else
    let cleaned := sanitizeEnvPrefix domain in
    if negb (String.eqb cleaned "") then cleaned else "TARGET".

(** Reference predicate: a name the shell accepts for a variable, in upper
    case: a letter, then letters, digits and underscores. *)
Definition is_upper (c : ascii) : bool :=
  let n := N_of_ascii c in ((65 <=? n) && (n <=? 90))%N.

Definition is_name_byte (c : ascii) : bool :=
  is_upper c || is_digit c || Ascii.eqb c "_".

Definition is_identifier (s : string) : bool :=
  match s with
  | EmptyString => false
  | String first rest => is_upper first && forallb is_name_byte (list_ascii_of_string rest)
  end.

(** [strings.ReplaceAll(s, "'", r)], where [r] closes the single quotes,
    gives a single quote inside double quotes, and opens single quotes
    again. *)
Fixpoint escapeQuote (s : string) : string :=
  match s with
  | EmptyString => EmptyString
  | String c s' =>
      if Ascii.eqb c "'" then ("'" ++ quote ++ "'" ++ quote ++ "'" ++ escapeQuote s')%string
      else String c (escapeQuote s')
  end.

Definition shellQuote (s : string) : string := ("'" ++ escapeQuote s ++ "'")%string.

(** Reference reading of a shell word made of quoted parts only: between
    single quotes every byte stands for itself; between double quotes every
    byte does except the backslash, the dollar and the backquote, which this
    reading refuses; outside quotes only a quote may come.  The result is the
    text the word stands for, or [None] when the word is not of this form or
    a quote is left open. *)
Inductive quoting : Type :=
| Unquoted
| Single
| Double.

Fixpoint shell_word (state : quoting) (word : string) (text : string) : option string :=
  match word with
  | EmptyString =>
      match state with
      | Unquoted => Some text
      | _ => None
      end
  | String c word' =>
      match state with
      | Unquoted =>
          if Ascii.eqb c "'" then shell_word Single word' text
          else if Ascii.eqb c (ascii_of_nat 34) then shell_word Double word' text
          else None
      | Single =>
          if Ascii.eqb c "'" then shell_word Unquoted word' text
          else shell_word Single word' (text ++ String c EmptyString)
      | Double =>
          if Ascii.eqb c (ascii_of_nat 34) then shell_word Unquoted word' text
          else if Ascii.eqb c (ascii_of_nat 92) || Ascii.eqb c "$" || Ascii.eqb c "`"
          then None
          else shell_word Double word' (text ++ String c EmptyString)
      end
  end.

End cmd.

(** ** The native messaging host (cmd/host/main.go) *)

Module host.
Import store.

Definition MaxLiveRequests : Z := 10000.

Module Response.
Record t : Type := { Status : Z; Headers : HeaderMap; Body : string }.
End Response.

Module Request.
Record t : Type := {
  ID : string;
  OriginalID : string;
  Method : string;
  URL : string;
  PageURL : string;
  ResourceType : string;
  Initiator : string;
  Headers : HeaderMap;
  Body : string;
  Response : option Response.t;
  ResponseEncoding : string;
  Timestamp : Z
}.
End Request.

(** [type Message struct]; [Requests = None] is the nil slice and
    [Request = None] the nil pointer. *)
Module Message.
Record t : Type := {
  Type_ : string;
  Requests : option (list Request.t);
  Request : option Request.t;
  Action : string
}.
End Message.

Module LiveData.
Record t : Type := {
  Version : string;
  ExportedAt : string;
  SessionID : string;
  Requests : list Request.t
}.
End LiveData.

(** A value of a [map[string]interface{}] reply. *)
Inductive any : Type :=
| Bool (b : bool)
| Int (n : Z)
| String_ (s : string).

(** The package variables [liveData] and [dataPath] together with the
    files on disk (by path), whether the disk accepts writes, and what
    was written to standard error. *)
Module State.
Record t : Type := {
  liveData : LiveData.t;
  dataPath : string;
  files : gmap string string;
  writable : bool;
  stderr : list string
}.

Definition with_liveData (st : t) (d : LiveData.t) : t :=
  {| liveData := d; dataPath := dataPath st; files := files st;
     writable := writable st; stderr := stderr st |}.

Definition with_files (st : t) (fs : gmap string string) : t :=
  {| liveData := liveData st; dataPath := dataPath st; files := fs;
     writable := writable st; stderr := stderr st |}.

Definition log (st : t) (line : string) : t :=
  {| liveData := liveData st; dataPath := dataPath st; files := files st;
     writable := writable st; stderr := (stderr st ++ [line])%list |}.
End State.

Definition with_requests (d : LiveData.t) (requests : list Request.t) : LiveData.t :=
  {| LiveData.Version := LiveData.Version d; LiveData.ExportedAt := LiveData.ExportedAt d;
     LiveData.SessionID := LiveData.SessionID d; LiveData.Requests := requests |}.

Definition fresh : LiveData.t :=
  {| LiveData.Version := "1.0"; LiveData.ExportedAt := ""; LiveData.SessionID := "";
     LiveData.Requests := [] |}.

(** [loadLiveData]: a missing path in [files] stands for any failure of
    [os.ReadFile]. *)
Definition loadLiveData `{JSON.Codec LiveData.t} (st : State.t) : LiveData.t * State.t :=
  let data := fresh in
  match State.files st !! State.dataPath st with
  | None => (data, st)
  | Some content =>
      match JSON.Unmarshal content data with
      | Error err =>
          (fresh,
           State.log st ("Warning: corrupted live.json, starting fresh: " ++ err ++ "
")%string)
      | Ok data => (data, st)
      end
  end.

(** The start of [main]: the snapshot is loaded, and a session ID is
    generated when there is none or the buffer is empty; [session] is
    [generateSessionID()]. *)
Definition start `{JSON.Codec LiveData.t} (session : string) (st : State.t) : State.t :=
  let (data, st) := loadLiveData st in
  let data :=
    if String.eqb (LiveData.SessionID data) ""
       || (Z.of_nat (length (LiveData.Requests data)) =? 0)
    then {| LiveData.Version := LiveData.Version data;
            LiveData.ExportedAt := LiveData.ExportedAt data;
            LiveData.SessionID := session;
            LiveData.Requests := LiveData.Requests data |}
    else data in
  State.with_liveData st data.

(** [os.WriteFile] to [path]. *)
Definition WriteFile (st : State.t) (path content : string) : result unit * State.t :=
  if State.writable st
  then (Ok tt, State.with_files st (<[path := content]> (State.files st)))
  else (Error "write failed", st).

(** [saveLiveDataUnlocked]; [now] is [time.Now().Format(time.RFC3339)]. *)
Definition saveLiveDataUnlocked `{JSON.Codec LiveData.t} (now : string) (st : State.t)
  : result unit * State.t :=
  let d := State.liveData st in
  let d := {| LiveData.Version := LiveData.Version d; LiveData.ExportedAt := now;
              LiveData.SessionID := LiveData.SessionID d;
              LiveData.Requests := LiveData.Requests d |} in
  let st := State.with_liveData st d in
  match JSON.MarshalIndent d with
  | Error err => (Error err, st)
  | Ok content => WriteFile st (State.dataPath st) content
  end.

Definition unknown_action : gmap string any :=
  <["success" := Bool false]> (<["error" := String_ "unknown action"]> ∅).

(** [handleMessage]: the reply and the state afterwards. *)
Definition handleMessage `{JSON.Codec LiveData.t} (now : string) (st : State.t)
    (msg : Message.t) : gmap string any * State.t :=
  let liveData := State.liveData st in
  if String.eqb (Message.Action msg) "add" then
    match Message.Request msg with
    | Some request =>
        let requests := LiveData.Requests liveData in
        let requests :=
          if MaxLiveRequests <=? Z.of_nat (length requests) then
            let removeCount := MaxLiveRequests / 10 in
            skipn (Z.to_nat removeCount) requests
          else requests in
        let requests := (requests ++ [request])%list in
        let st := State.with_liveData st (with_requests liveData requests) in
        let st := snd (saveLiveDataUnlocked now st) in
        (<["success" := Bool true]> (<["action" := String_ "add"]>
           (<["count" := Int (Z.of_nat (length (LiveData.Requests (State.liveData st))))]> ∅)),
         st)
    | None => (unknown_action, st)
    end
  else if String.eqb (Message.Action msg) "sync" then
    match Message.Requests msg with
    | Some requests =>
        let requests :=
          if MaxLiveRequests <? Z.of_nat (length requests) then
            skipn (Z.to_nat (Z.of_nat (length requests) - MaxLiveRequests)) requests
          else requests in
        let st := State.with_liveData st (with_requests liveData requests) in
        let st := snd (saveLiveDataUnlocked now st) in
        (<["success" := Bool true]> (<["action" := String_ "sync"]>
           (<["count" := Int (Z.of_nat (length (LiveData.Requests (State.liveData st))))]> ∅)),
         st)
    | None => (unknown_action, st)
    end
  else if String.eqb (Message.Action msg) "clear" then
    let st := State.with_liveData st (with_requests liveData []) in
    let st := snd (saveLiveDataUnlocked now st) in
    (<["success" := Bool true]> (<["action" := String_ "clear"]> ∅), st)
  else if String.eqb (Message.Action msg) "ping" then
    (<["success" := Bool true]> (<["action" := String_ "pong"]>
       (<["path" := String_ (State.dataPath st)]>
          (<["count" := Int (Z.of_nat (length (LiveData.Requests liveData)))]> ∅))),
     st)
  else (unknown_action, st).

(** *** The data path *)

Definition LiveFileName : string := "live.json".

Definition expandHomePath `{filepath.Joiner} (env : os.t) (path : string) : result string :=
  if String.eqb path "~" || GoString.HasPrefix path "~/" then
    match os.UserHomeDir env with
    | Error err => Error err
    | Ok home =>
        if String.eqb path "~" then Ok home
        else Ok (filepath.Join [home; String.substring 2 (String.length path - 2) path])
    end
  else Ok path.

(** [getDataPath]; the error of [os.UserHomeDir] is dropped and [home] is
    then the empty string. *)
Definition getDataPath `{filepath.Joiner} (env : os.t) : string :=
  let fallback :=
    let xdg := os.Getenv env "XDG_DATA_HOME" in
    if negb (String.eqb xdg "") then filepath.Join [xdg; "rep-cli"; LiveFileName]
    else
      let home := match os.UserHomeDir env with Ok home => home | Error _ => "" end in
      filepath.Join [home; ".local"; "share"; "rep-cli"; LiveFileName] in
  let override := os.Getenv env "REPLIVE_PATH" in
  if negb (String.eqb override "") then
    match expandHomePath env override with
    | Ok path => path
    | Error _ => fallback
    end
  else fallback.

(** *** Native messaging frames: a length on 4 bytes, little-endian, then
    the JSON text *)

(** The value of a little-endian byte sequence, and the [n] low bytes of
    a value in little-endian order. *)
Fixpoint le_value (bytes : string) : Z :=
  match bytes with
  | EmptyString => 0
  | String c rest => Z.of_N (N_of_ascii c) + 256 * le_value rest
  end.

Fixpoint le_bytes (n : nat) (v : Z) : string :=
  match n with
  | O => EmptyString
  | S n' => String (ascii_of_N (Z.to_N (v mod 256))) (le_bytes n' (v / 256))
  end.

(** The errors of a read: [io.EOF], [io.ErrUnexpectedEOF], and a text that
    does not decode. *)
Inductive read_error : Type :=
| EOF
| ErrUnexpectedEOF
| Invalid (err : string).

(** [io.ReadFull] of [n] bytes from standard input, which holds [input] and
    is then closed: the bytes read or the error, and the input that is
    left.  The error is [EOF] only if no byte was read. *)
Definition ReadFull (n : nat) (input : string) : (string + read_error) * string :=
  if (n =? 0)%nat then (inl EmptyString, input)
  else if (String.length input =? 0)%nat then (inr EOF, input)
  else if (String.length input <? n)%nat then (inr ErrUnexpectedEOF, EmptyString)
  else (inl (String.substring 0 n input),
        String.substring n (String.length input - n) input).

(** The zero [Message] that [readMessage] decodes into. *)
Definition no_message : Message.t :=
  {| Message.Type_ := ""; Message.Requests := None; Message.Request := None;
     Message.Action := "" |}.

Definition readMessage `{JSON.Codec Message.t} (stdin : string)
  : (Message.t + read_error) * string :=
  match ReadFull 4 stdin with
  | (inr err, stdin) => (inr err, stdin)
  | (inl prefix, stdin) =>
      let length := le_value prefix in
      match ReadFull (Z.to_nat length) stdin with
      | (inr err, stdin) => (inr err, stdin)
      | (inl content, stdin) =>
          match JSON.Unmarshal content no_message with
          | Error err => (inr (Invalid err), stdin)
          | Ok msg => (inl msg, stdin)
          end
      end
  end.

(** [json.Marshal] of a reply, taken as an interface. *)
Class ReplyEncoder : Type := {
  Marshal : gmap string any -> result string
}.

(** [writeMessage]: the error returned and standard output afterwards;
    [uint32(len(content))] keeps the low 32 bits of the length. *)
Definition writeMessage `{ReplyEncoder} (msg : gmap string any) (stdout : string)
  : result unit * string :=
  match Marshal msg with
  | Error err => (Error err, stdout)
  | Ok content =>
      let length := Z.of_nat (String.length content) mod 2 ^ 32 in
      (Ok tt, (stdout ++ le_bytes 4 length ++ content)%string)
  end.

(** What the loop of [main] reads until [readMessage] returns [io.EOF];
    [fuel] bounds the number of reads. *)
Fixpoint reads `{JSON.Codec Message.t} (fuel : nat) (stdin : string)
  : option (list (Message.t + read_error)) :=
  match fuel with
  | O => None
  | S fuel' =>
      match readMessage stdin with
      | (inr EOF, _) => Some []
      | (r, stdin) => option_map (cons r) (reads fuel' stdin)
      end
  end.

(** [clearLiveData]; [now] is [time.Now().Format(time.RFC3339)]. *)
Definition clearLiveData `{JSON.Codec LiveData.t} (now : string) (st : State.t) : State.t :=
  let d := {| LiveData.Version := LiveData.Version (State.liveData st);
              LiveData.ExportedAt := now; LiveData.SessionID := "";
              LiveData.Requests := [] |} in
  let st := State.with_liveData st d in
  match JSON.MarshalIndent d with
  | Error err => State.log st ("Error marshaling live data: " ++ err ++ "
")%string
  | Ok content =>
      match WriteFile st (State.dataPath st) content with
      | (Error err, st) => State.log st ("Error writing live.json: " ++ err ++ "
")%string
      | (Ok _, st) => st
      end
  end.

(** What [readMessage] hands to the loop of [main] before [io.EOF]: a
    message, handled at the time [now], or an error other than [io.EOF]. *)
Inductive input : Type :=
| Received (now : string) (msg : Message.t)
| Failed.

Definition received (i : input) : bool :=
  match i with
  | Received _ _ => true
  | Failed => false
  end.

(** One turn of the loop of [main]: the state, and the replies written so
    far.  After an error the loop continues with the next read. *)
Definition turn `{JSON.Codec LiveData.t} (acc : State.t * list (gmap string any))
    (i : input) : State.t * list (gmap string any) :=
  match i with
  | Received now msg =>
      let (reply, st) := handleMessage now (fst acc) msg in (st, (snd acc ++ [reply])%list)
  | Failed => acc
  end.

(** The loop of [main] on what is read before [io.EOF], and the disconnect
    at [io.EOF], at the time [eof]. *)
Definition serve `{JSON.Codec LiveData.t} (keepOnDisconnect : bool) (inputs : list input)
    (eof : string) (st : State.t) : State.t * list (gmap string any) :=
  let (st, replies) := fold_left turn inputs (st, []) in
  (if keepOnDisconnect then st else clearLiveData eof st, replies).

End host.

(** ** Small instances of the library interfaces

    They agree with the Go libraries on plain ASCII input and let the model
    run on concrete requests. *)

Module Sample.
Import store.

Definition lower (c : ascii) : ascii :=
  let n := N_of_ascii c in
  if ((65 <=? n) && (n <=? 90))%N then ascii_of_N (n + 32) else c.

Fixpoint map_ascii (f : ascii -> ascii) (s : string) : string :=
  match s with
  | EmptyString => EmptyString
  | String c s' => String (f c) (map_ascii f s')
  end.

Definition is_space (c : ascii) : bool :=
  let n := N_of_ascii c in ((9 <=? n) && (n <=? 13) || (n =? 32))%N.

Fixpoint trim_left (s : string) : string :=
  match s with
  | String c s' => if is_space c then trim_left s' else s
  | EmptyString => EmptyString
  end.

Definition rev_string (s : string) : string :=
  string_of_list_ascii (rev (list_ascii_of_string s)).

Definition trim (s : string) : string :=
  rev_string (trim_left (rev_string (trim_left s))).

#[global] Instance ascii_strings : GoString.Unicode := {|
  GoString.EqualFold := JSON.fold_eq;
  GoString.ToLower := map_ascii lower;
  GoString.TrimSpace := trim
|}.

Definition is_alnum (c : ascii) : bool :=
  let n := N_of_ascii c in
  ((48 <=? n) && (n <=? 57) || (65 <=? n) && (n <=? 90) || (97 <=? n) && (n <=? 122))%N.

(** An engine for patterns made of letters and digits, which match as
    substrings; every other pattern is reported as not compiling. *)
#[global] Instance literal_regexp : regexp.Engine := {|
  regexp.Regexp := string;
  regexp.Compile := fun p =>
    if forallb is_alnum (list_ascii_of_string p) then Some p else None;
  regexp.MatchString := fun re s => GoString.Contains s re
|}.

(** Splits [s] at the first occurrence of [c]. *)
Fixpoint cut (c : ascii) (s : string) : string * option string :=
  match s with
  | EmptyString => (EmptyString, None)
  | String x s' =>
      if Ascii.eqb x c then (EmptyString, Some s')
      else let (a, b) := cut c s' in (String x a, b)
  end.

Definition is_control (c : ascii) : bool :=
  let n := N_of_ascii c in ((n <? 32) || (n =? 127))%N.

(** A parser for URLs of the shape [scheme://host/path?query#fragment];
    control characters are rejected. *)
Definition parse_url (s : string) : option url.URL :=
  if existsb is_control (list_ascii_of_string s) then None
  else
    let (s1, _) := cut "#" s in
    let (before, query) := cut "?" s1 in
    let (host, path) :=
      match cut ":" before with
      | (_, Some rest) =>
          if String.prefix "//" rest then
            let (h, p) := cut "/" (String.substring 2 (String.length rest) rest) in
            (h, match p with Some p' => String "/" p' | None => EmptyString end)
          else (EmptyString, EmptyString)
      | (_, None) => (EmptyString, before)
      end in
    Some {| url.Host := host; url.Path := path; url.RawQuery := default "" query |}.

#[global] Instance simple_urls : url.Parser := {| url.Parse := parse_url |}.

Definition request (id method url_ initiator : string) (response : option Response.t)
    (timestamp : Z) : Request.t :=
  {| Request.ID := id; Request.OriginalID := ""; Request.Method := method;
     Request.URL := url_; Request.PageURL := ""; Request.ResourceType := "";
     Request.Initiator := initiator; Request.Headers := None; Request.Body := "";
     Request.Response := response; Request.ResponseEncoding := "";
     Request.Timestamp := timestamp; Request.Domain := ""; Request.Path := "" |}.

Definition response (status : Z) : option Response.t :=
  Some {| Response.Status := status; Response.Headers := None; Response.Body := "" |}.

(** A decoder that knows the legacy file [{legacy}], which holds two legacy
    requests and no session; every other text that starts with a brace holds
    no field, and every text that does not is malformed. *)
Definition legacy_requests : list Request.t :=
  [ request "1" "GET" "https://a.example/p?x=1" "" (response 200) 1;
    request "2" "POST" "https://b.example/q" "" None 2 ].

Definition legacy_store : Store.t :=
  {| Store.Sessions := []; Store.IgnoredDomains := ∅; Store.PrimaryDomains := ∅;
     Store.Requests := legacy_requests; Store.LastImport := 7 |}.

#[global] Instance store_decoder : sonic.Decoder Store.t := {|
  sonic.Unmarshal := fun data v =>
    if String.eqb data "{legacy}" then Ok legacy_store
    else if String.prefix "{" data then Ok v
    else Error "invalid character"
|}.

(** Three captured requests: a page, a request it initiated that has no
    response, and a request initiated by the latter. *)
Definition traffic : list Request.t :=
  [ request "1" "GET" "https://a.example/p?x=1" "" (response 200) 1;
    request "2" "POST" "https://b.example/q" "https://a.example/p?x=1" None 2;
    request "3" "GET" "https://a.example/missing" "https://b.example/q" (response 404) 3 ].

(** Two requests that name each other as initiator. *)
Definition cycle : list Request.t :=
  [ request "a" "GET" "https://a.example/" "https://b.example/" None 1;
    request "b" "GET" "https://b.example/" "https://a.example/" None 2 ].

Definition options (method : string) (status : Z) (ranges : list string) (limit offset : Z)
  : FilterOptions.t :=
  {| FilterOptions.Domain := ""; FilterOptions.Domains := [];
     FilterOptions.Method := method; FilterOptions.Methods := [];
     FilterOptions.Status := status; FilterOptions.StatusRange := "";
     FilterOptions.StatusRanges := ranges; FilterOptions.ResourceTypes := [];
     FilterOptions.Pattern := ""; FilterOptions.ExcludeIgnored := false;
     FilterOptions.PrimaryOnly := false; FilterOptions.Limit := limit;
     FilterOptions.Offset := offset |}.

(** An environment whose store file is the legacy file. *)
Definition legacy_env : Env.t :=
  {| Env.StoreFilePath := Ok "store.json";
     Env.ReadFile := fun path =>
       if String.eqb path "store.json" then ReadOk "{legacy}" else NotExist;
     Env.Today := "20250102"; Env.NowMilli := 1735776000000 |}.

Definition host_request (id : string) : host.Request.t :=
  {| host.Request.ID := id; host.Request.OriginalID := ""; host.Request.Method := "GET";
     host.Request.URL := "https://a.example/"; host.Request.PageURL := "";
     host.Request.ResourceType := ""; host.Request.Initiator := "";
     host.Request.Headers := None; host.Request.Body := "";
     host.Request.Response := None; host.Request.ResponseEncoding := "";
     host.Request.Timestamp := 0 |}.

(** A codec for the live snapshot that writes the session and the number of
    requests, reads the text [{11000 requests}] as a snapshot of that many
    requests, reads every other text that starts with a brace as one with no
    field, and rejects every text that does not. *)
#[global] Instance live_codec : JSON.Codec host.LiveData.t := {|
  JSON.Unmarshal := fun content v =>
    if String.eqb content "{11000 requests}" then
      Ok (host.with_requests v (repeat (host_request "old") (Z.to_nat 11000)))
    else if String.prefix "{" content then Ok v
    else Error "invalid character";
  JSON.MarshalIndent := fun v =>
    Ok ("{" ++ host.LiveData.SessionID v ++ ":"
        ++ GoString.fmt_d (Z.of_nat (length (host.LiveData.Requests v))) ++ "}")%string
|}.

Definition host_state (requests : list host.Request.t) (files : gmap string string)
  : host.State.t :=
  {| host.State.liveData :=
       {| host.LiveData.Version := "1.0"; host.LiveData.ExportedAt := "";
          host.LiveData.SessionID := "20250101-000000";
          host.LiveData.Requests := requests |};
     host.State.dataPath := "live.json"; host.State.files := files;
     host.State.writable := true; host.State.stderr := [] |}.

(** Paths joined by slashes, as [filepath.Join] does for clean relative
    elements. *)
#[global] Instance slash_paths : filepath.Joiner := {|
  filepath.Join := String.concat "/"
|}.

Definition home_env : os.t :=
  {| os.Getenv := fun name =>
       if String.eqb name "XDG_DATA_HOME" then "/data" else "";
     os.UserHomeDir := Ok "/home/u" |}.

(** A codec for messages that reads the text [ping] as a ping and nothing
    else. *)
#[global] Instance message_codec : JSON.Codec host.Message.t := {|
  JSON.Unmarshal := fun content v =>
    if String.eqb content "ping" then
      Ok {| host.Message.Type_ := host.Message.Type_ v;
            host.Message.Requests := host.Message.Requests v;
            host.Message.Request := host.Message.Request v;
            host.Message.Action := "ping" |}
    else Error "invalid character";
  JSON.MarshalIndent := fun v => Ok (host.Message.Action v)
|}.

(** An encoder of replies that writes the number of fields. *)
#[global] Instance reply_encoder : host.ReplyEncoder := {|
  host.Marshal := fun reply => Ok (GoString.fmt_d (Z.of_nat (size reply)))
|}.

(** A time parser that knows no layout. *)
#[global] Instance no_times : cmd.TimeParser := {|
  cmd.ParseRFC3339Nano := fun _ => Error "cannot parse";
  cmd.ParseRFC3339 := fun _ => Error "cannot parse"
|}.

End Sample.

(** * Properties *)

Import store.

(** ** Fingerprints (hash.go) *)

(** The digest agrees with the published test vectors. *)
Example Sum256_abc :
  GoString.fmt_x (SHA256.Sum256 (GoString.bytes_of "abc"))
  = "ba7816bf8f01cfea414140de5dae2223b00361a396177a9cb410ff61f20015ad".
Proof. vm_compute. reflexivity. Qed.

Example Sum256_two_blocks :
  GoString.fmt_x
    (SHA256.Sum256
       (GoString.bytes_of "abcdbcdecdefdefgefghfghighijhijkijkljklmklmnlmnomnopnopq"))
  = "248d6a61d20638b8e5c026930c3e6039a33ce45964ff2167f6ecedd419db06c1".
Proof. vm_compute. reflexivity. Qed.

Example RequestHash_sample :
  RequestHash (Some (Sample.request "1" "GET" "https://a.example/x?y=1" "" None 1700000000000))
  = "90d7a06efff73982b3b5bef18a2444c51e76d87db40e1fa4c21bccae0c3d922e".
Proof. vm_compute. reflexivity. Qed.

Lemma eqb_empty_false (s : string) : s <> "" -> String.eqb s "" = false.
Proof. intros Hs. now apply String.eqb_neq. Qed.

Lemma isStableID_spec (r : Request.t) :
  isStableID (Some r) = true <->
  Request.ID r <> "" /\
  (Request.OriginalID r <> "" \/ GoString.HasPrefix (Request.ID r) "h_" = true).
Proof.
  unfold isStableID.
  destruct (String.eqb_spec (Request.ID r) "") as [Hid | Hid].
  - split; [discriminate | intros [Hne _]; contradiction].
  - destruct (String.eqb_spec (Request.OriginalID r) "") as [Ho | Ho]; simpl.
    + split.
      * intros Hp. split; [assumption | now right].
      * intros [_ [Hne | Hp]]; [contradiction | assumption].
    + split; [intros _; split; [assumption | now left] | reflexivity].
Qed.

(** C1. With a stable ID (a non-empty ID that comes with a non-empty
    original ID or starts with the marker [h_]) the fingerprint of a request
    is its ID; without one it is the content hash; an empty ID is never
    stable; and the content hash is a function of the method, the URL, the
    body and the timestamp alone. *)
Theorem C1_fingerprint (r : Request.t) :
  (Request.ID r <> "" ->
   Request.OriginalID r <> "" \/ GoString.HasPrefix (Request.ID r) "h_" = true ->
   RequestFingerprint (Some r) = Request.ID r)
  /\ (~ (Request.ID r <> "" /\
         (Request.OriginalID r <> "" \/ GoString.HasPrefix (Request.ID r) "h_" = true)) ->
      RequestFingerprint (Some r) = RequestHash (Some r))
  /\ (Request.ID r = "" -> isStableID (Some r) = false)
  /\ (forall r' : Request.t,
        Request.Method r' = Request.Method r -> Request.URL r' = Request.URL r ->
        Request.Body r' = Request.Body r -> Request.Timestamp r' = Request.Timestamp r ->
        RequestHash (Some r') = RequestHash (Some r)).
Proof.
  repeat split.
  - intros Hid Hmark. unfold RequestFingerprint.
    now rewrite (proj2 (isStableID_spec r) (conj Hid Hmark)).
  - intros Hnot. unfold RequestFingerprint.
    destruct (isStableID (Some r)) eqn:Hst; [| reflexivity].
    apply isStableID_spec in Hst. contradiction.
  - intros Hid. unfold isStableID. now rewrite Hid.
  - intros r' Hm Hu Hb Ht. unfold RequestHash. now rewrite Hm, Hu, Hb, Ht.
Qed.

Lemma C1_fingerprint_witness :
  RequestFingerprint (Some (Sample.request "h_7" "GET" "https://a.example/" "" None 5)) = "h_7"
  /\ RequestFingerprint (Some (Sample.request "7" "GET" "https://a.example/" "" None 5))
     = "eff5969f153921e98c4f8a1ed87e78043d343ccb845cc9bd9292987ec9b38f68".
Proof.
  split.
  - apply (proj1 (C1_fingerprint (Sample.request "h_7" "GET" "https://a.example/" "" None 5))).
    + discriminate.
    + right. reflexivity.
  - rewrite (proj1 (proj2 (C1_fingerprint
               (Sample.request "7" "GET" "https://a.example/" "" None 5)))).
    + vm_compute. reflexivity.
    + intros [_ [Ho | Hp]]; [now apply Ho | discriminate Hp].
Defined.

(** ** The live buffer (cmd/host/main.go) *)

Section LiveBuffer.
Context `{JSON.Codec host.LiveData.t}.

Lemma save_liveData (now : string) (st : host.State.t) :
  host.LiveData.Requests (host.State.liveData (snd (host.saveLiveDataUnlocked now st)))
  = host.LiveData.Requests (host.State.liveData st)
  /\ host.LiveData.SessionID (host.State.liveData (snd (host.saveLiveDataUnlocked now st)))
     = host.LiveData.SessionID (host.State.liveData st)
  /\ host.State.dataPath (snd (host.saveLiveDataUnlocked now st)) = host.State.dataPath st.
Proof.
  unfold host.saveLiveDataUnlocked, host.WriteFile.
  destruct (JSON.MarshalIndent _); simpl; [| auto].
  destruct (host.State.writable st); simpl; auto.
Qed.

Lemma handleMessage_add (now : string) (st : host.State.t) (msg : host.Message.t)
    (request : host.Request.t) :
  host.Message.Action msg = "add" ->
  host.Message.Request msg = Some request ->
  host.LiveData.Requests (host.State.liveData (snd (host.handleMessage now st msg)))
  = ((if host.MaxLiveRequests <=? Z.of_nat (length (host.LiveData.Requests (host.State.liveData st)))
      then skipn 1000 (host.LiveData.Requests (host.State.liveData st))
      else host.LiveData.Requests (host.State.liveData st)) ++ [request])%list.
Proof.
  intros Hact Hreq. unfold host.handleMessage. rewrite Hact, Hreq. simpl.
  rewrite (proj1 (save_liveData now _)). simpl. reflexivity.
Qed.

(** C2 (as amended). An [add] on a buffer within capacity leaves it within
    capacity; on any buffer at or above capacity it evicts exactly the 1000
    oldest entries and appends the request after the survivors, which keep
    their order; below capacity it only appends. *)
Theorem C2_add_rotation (now : string) (st : host.State.t) (msg : host.Message.t)
    (request : host.Request.t) :
  host.Message.Action msg = "add" ->
  host.Message.Request msg = Some request ->
  let before := host.LiveData.Requests (host.State.liveData st) in
  let after := host.LiveData.Requests (host.State.liveData (snd (host.handleMessage now st msg))) in
  (Z.of_nat (length before) <= host.MaxLiveRequests ->
   Z.of_nat (length after) <= host.MaxLiveRequests)
  /\ (host.MaxLiveRequests <= Z.of_nat (length before) ->
      exists evicted survivors,
        before = (evicted ++ survivors)%list
        /\ Z.of_nat (length evicted) = host.MaxLiveRequests / 10
        /\ after = (survivors ++ [request])%list)
  /\ (Z.of_nat (length before) < host.MaxLiveRequests ->
      after = (before ++ [request])%list).
Proof.
  intros Hact Hreq before after.
  assert (Hafter : after = ((if host.MaxLiveRequests <=? Z.of_nat (length before)
                              then skipn 1000 before else before) ++ [request])%list)
    by (apply handleMessage_add; assumption).
  unfold host.MaxLiveRequests in *.
  repeat split.
  - intros Hle. rewrite Hafter, length_app. simpl.
    destruct (Z.leb_spec 10000 (Z.of_nat (length before))).
    + rewrite length_skipn. lia.
    + lia.
  - intros Hge. exists (firstn 1000 before), (skipn 1000 before).
    split; [now rewrite firstn_skipn |].
    split.
    + rewrite length_firstn. change (10000 / 10) with 1000. lia.
    + rewrite Hafter. destruct (Z.leb_spec 10000 (Z.of_nat (length before))); [reflexivity | lia].
  - intros Hlt. rewrite Hafter.
    destruct (Z.leb_spec 10000 (Z.of_nat (length before))); [lia | reflexivity].
Qed.

(** C7. Loading the snapshot always yields a buffer: when the file cannot be
    read the fresh empty buffer is returned and nothing is logged; when its
    content does not decode the error is logged to standard error and the
    fresh empty buffer is returned, with nothing else changed. *)
Theorem C7_load_fail_open (st : host.State.t) :
  (host.State.files st !! host.State.dataPath st = None ->
   host.loadLiveData st = (host.fresh, st))
  /\ (forall content err,
        host.State.files st !! host.State.dataPath st = Some content ->
        JSON.Unmarshal content host.fresh = Error err ->
        fst (host.loadLiveData st) = host.fresh
        /\ host.LiveData.Requests (fst (host.loadLiveData st)) = []
        /\ host.State.stderr (snd (host.loadLiveData st))
           = (host.State.stderr st
              ++ [("Warning: corrupted live.json, starting fresh: " ++ err ++ "
")%string])%list
        /\ host.State.files (snd (host.loadLiveData st)) = host.State.files st
        /\ host.State.liveData (snd (host.loadLiveData st)) = host.State.liveData st).
Proof.
  split.
  - intros Hnone. unfold host.loadLiveData. now rewrite Hnone.
  - intros content err Hsome Herr. unfold host.loadLiveData.
    rewrite Hsome, Herr. simpl. repeat split.
Qed.

(** C8. A [ping] replies with the number of buffered requests and the path
    of the backing file, and leaves the whole state as it was: the buffer,
    its session, and the files on disk. *)
Theorem C8_ping_read_only (now : string) (st : host.State.t) (msg : host.Message.t) :
  host.Message.Action msg = "ping" ->
  snd (host.handleMessage now st msg) = st
  /\ fst (host.handleMessage now st msg) !! "count"
     = Some (host.Int (Z.of_nat (length (host.LiveData.Requests (host.State.liveData st)))))
  /\ fst (host.handleMessage now st msg) !! "path"
     = Some (host.String_ (host.State.dataPath st))
  /\ fst (host.handleMessage now st msg) !! "success" = Some (host.Bool true).
Proof.
  intros Hact. unfold host.handleMessage. rewrite Hact. simpl. repeat split.
Qed.

End LiveBuffer.

Lemma C2_add_rotation_witness :
  let st := Sample.host_state (repeat (Sample.host_request "old") (Z.to_nat 10000)) ∅ in
  let msg := {| host.Message.Type_ := ""; host.Message.Requests := None;
                host.Message.Request := Some (Sample.host_request "new");
                host.Message.Action := "add" |} in
  Z.of_nat (length (host.LiveData.Requests
                      (host.State.liveData (snd (host.handleMessage "t" st msg)))))
  <= host.MaxLiveRequests.
Proof.
  intros st msg.
  apply (proj1 (C2_add_rotation "t" st msg (Sample.host_request "new") eq_refl eq_refl)).
  vm_compute. discriminate.
Defined.

(** A snapshot of 11000 requests on disk is loaded as it is, and the buffer
    is still above capacity after an [add]. *)
Lemma C2_counterexample :
  let st := host.start "20250101-000000"
              (Sample.host_state [] (<["live.json" := "{11000 requests}"]> ∅)) in
  let msg := {| host.Message.Type_ := ""; host.Message.Requests := None;
                host.Message.Request := Some (Sample.host_request "new");
                host.Message.Action := "add" |} in
  Z.of_nat (length (host.LiveData.Requests (host.State.liveData st))) = 11000
  /\ Z.of_nat (length (host.LiveData.Requests
                         (host.State.liveData (snd (host.handleMessage "t" st msg)))))
     = 10001
  /\ ~ (Z.of_nat (length (host.LiveData.Requests
                            (host.State.liveData (snd (host.handleMessage "t" st msg)))))
        <= host.MaxLiveRequests).
Proof.
  intros st msg.
  rewrite (handleMessage_add "t" st msg (Sample.host_request "new") eq_refl eq_refl).
  split; [vm_compute; reflexivity |].
  split; [vm_compute; reflexivity | vm_compute; intros Hle; now apply Hle].
Qed.

Lemma C7_load_fail_open_witness :
  let st := Sample.host_state [] (<["live.json" := "not json"]> ∅) in
  fst (host.loadLiveData st) = host.fresh
  /\ host.loadLiveData (Sample.host_state [] ∅) = (host.fresh, Sample.host_state [] ∅).
Proof.
  intros st. split.
  - apply (proj2 (C7_load_fail_open st) "not json" "invalid character"); reflexivity.
  - apply (proj1 (C7_load_fail_open (Sample.host_state [] ∅))). reflexivity.
Defined.

Lemma C8_ping_read_only_witness :
  let st := Sample.host_state [Sample.host_request "1"; Sample.host_request "2"] ∅ in
  let msg := {| host.Message.Type_ := ""; host.Message.Requests := None;
                host.Message.Request := None; host.Message.Action := "ping" |} in
  snd (host.handleMessage "t" st msg) = st
  /\ fst (host.handleMessage "t" st msg) !! "count" = Some (host.Int 2).
Proof.
  intros st msg.
  destruct (C8_ping_read_only "t" st msg eq_refl) as (Hst & Hcount & _).
  split; [exact Hst | exact Hcount].
Defined.

(** ** Derived fields and the legacy migration (store.go) *)

Lemma length_append (a b : string) :
  String.length (a ++ b)%string = (String.length a + String.length b)%nat.
Proof. induction a as [| c a IH]; simpl; [reflexivity | now rewrite IH]. Qed.

Lemma append_query_neq (path query : string) :
  path <> (path ++ "?" ++ query)%string.
Proof.
  intros Heq. apply (f_equal String.length) in Heq.
  rewrite length_append in Heq. simpl in Heq. lia.
Qed.

Section DerivedFields.
Context `{url.Parser}.

Lemma ComputeRequestFields_URL (req : Request.t) :
  Request.URL (ComputeRequestFields req) = Request.URL req.
Proof. unfold ComputeRequestFields. now destruct (url.Parse _). Qed.

Lemma ComputeRequestFields_idem (req : Request.t) :
  ComputeRequestFields (ComputeRequestFields req) = ComputeRequestFields req.
Proof.
  unfold ComputeRequestFields at 1. rewrite ComputeRequestFields_URL.
  unfold ComputeRequestFields.
  destruct (url.Parse (Request.URL req)); reflexivity.
Qed.

Lemma ComputeRequestFields_persisted (req : Request.t) :
  ComputeRequestFields (persisted_request (ComputeRequestFields (persisted_request req)))
  = ComputeRequestFields (persisted_request req).
Proof.
  unfold ComputeRequestFields, persisted_request. simpl.
  destruct (url.Parse (Request.URL req)) eqn:Hp; simpl; rewrite Hp; reflexivity.
Qed.

(** C10. When the URL of a request parses and carries a query, the store
    built by [NewTempStore] holds the request with the bare path, while
    [ComputeRequestFields], and with it [AddSession] and the sessions of a
    loaded store, append [?query]; the two paths differ and the domains
    agree.  When the URL does not parse, both leave the request as it is, so
    empty fields stay empty. *)
Theorem C10_path_derivation (requests : list Request.t) (i : nat) (req : Request.t) :
  requests !! i = Some req ->
  (forall u, url.Parse (Request.URL req) = Some u -> url.RawQuery u <> "" ->
     exists temp saved,
       Store.Requests (NewTempStore requests) !! i = Some temp
       /\ (forall s id note now,
             Session.Requests (snd (AddSession s id note requests now)) !! i = Some saved)
       /\ (forall sess, Session.Requests sess = requests ->
             Session.Requests (compute_session sess) !! i = Some saved)
       /\ saved = ComputeRequestFields req
       /\ Request.Path temp = url.Path u
       /\ Request.Path saved = (url.Path u ++ "?" ++ url.RawQuery u)%string
       /\ Request.Path temp <> Request.Path saved
       /\ Request.Domain temp = url.Host u /\ Request.Domain saved = url.Host u)
  /\ (url.Parse (Request.URL req) = None ->
      Store.Requests (NewTempStore requests) !! i = Some req
      /\ ComputeRequestFields req = req
      /\ (Request.Domain req = "" -> Request.Path req = "" ->
          forall r, Store.Requests (NewTempStore requests) !! i = Some r
                    \/ r = ComputeRequestFields req ->
                    Request.Domain r = "" /\ Request.Path r = "")).
Proof.
  intros Hi. split.
  - intros u Hu Hq.
    exists (temp_fields req), (ComputeRequestFields req).
    assert (Hfalse : String.eqb (url.RawQuery u) "" = false) by now apply eqb_empty_false.
    repeat split.
    + simpl. now rewrite list_lookup_fmap, Hi.
    + intros s id note now. simpl. now rewrite list_lookup_fmap, Hi.
    + intros sess Hsess. simpl. now rewrite Hsess, list_lookup_fmap, Hi.
    + unfold temp_fields. now rewrite Hu.
    + unfold ComputeRequestFields. rewrite Hu, Hfalse. reflexivity.
    + unfold temp_fields, ComputeRequestFields. rewrite Hu, Hfalse. simpl.
      apply append_query_neq.
    + unfold temp_fields. now rewrite Hu.
    + unfold ComputeRequestFields. now rewrite Hu.
  - intros Hnone.
    assert (Htemp : Store.Requests (NewTempStore requests) !! i = Some req).
    { simpl. rewrite list_lookup_fmap, Hi. simpl. unfold temp_fields. now rewrite Hnone. }
    assert (Hcomp : ComputeRequestFields req = req).
    { unfold ComputeRequestFields. now rewrite Hnone. }
    split; [assumption |]. split; [assumption |].
    intros Hdom Hpath r [Hr | Hr].
    + rewrite Htemp in Hr. inversion Hr; subst r. now split.
    + rewrite Hr, Hcomp. now split.
Qed.

End DerivedFields.

Lemma C10_path_derivation_witness :
  let req := Sample.request "1" "GET" "https://a.example/p?x=1" "" None 1 in
  (exists temp saved,
     Store.Requests (NewTempStore [req]) !! 0%nat = Some temp
     /\ saved = ComputeRequestFields req
     /\ Request.Path temp = "/p" /\ Request.Path saved = "/p?x=1")
  /\ ComputeRequestFields (Sample.request "2" "GET" (String "001" "x") "" None 1)
     = Sample.request "2" "GET" (String "001" "x") "" None 1.
Proof.
  intros req. split.
  - assert (Hparse : url.Parse (Request.URL req)
                     = Some {| url.Host := "a.example"; url.Path := "/p";
                               url.RawQuery := "x=1" |}) by reflexivity.
    assert (Hquery : url.RawQuery {| url.Host := "a.example"; url.Path := "/p";
                                     url.RawQuery := "x=1" |} <> "") by discriminate.
    destruct (proj1 (C10_path_derivation [req] 0%nat req eq_refl) _ Hparse Hquery)
      as (temp & saved & Ht & _ & _ & Hs & Hpt & Hps & _).
    exists temp, saved. repeat split; assumption.
  - apply (proj2 (C10_path_derivation
                    [Sample.request "2" "GET" (String "001" "x") "" None 1] 0%nat
                    (Sample.request "2" "GET" (String "001" "x") "" None 1) eq_refl)).
    reflexivity.
Defined.

Section Migration.
Context `{url.Parser} `{sonic.Decoder Store.t}.

Lemma persisted_Compute (req : Request.t) :
  persisted_request (ComputeRequestFields req) = persisted_request req.
Proof.
  unfold persisted_request, ComputeRequestFields.
  destruct (url.Parse (Request.URL req)); reflexivity.
Qed.

Lemma compute_session_idem (sess : Session.t) :
  compute_session (compute_session sess) = compute_session sess.
Proof.
  unfold compute_session. simpl. f_equal.
  rewrite <- list_fmap_compose. apply list_fmap_ext.
  intros i r _. apply ComputeRequestFields_idem.
Qed.

Lemma Compute_fmap_idem (requests : list Request.t) :
  ComputeRequestFields <$> (ComputeRequestFields <$> requests)
  = ComputeRequestFields <$> requests.
Proof.
  rewrite <- list_fmap_compose. apply list_fmap_ext.
  intros i r _. apply ComputeRequestFields_idem.
Qed.

Lemma Compute_persisted_Compute (requests : list Request.t) :
  persisted_request <$> requests = requests ->
  ComputeRequestFields <$> (persisted_request <$> (ComputeRequestFields <$> requests))
  = ComputeRequestFields <$> requests.
Proof.
  intros Hp. rewrite <- (list_fmap_compose ComputeRequestFields persisted_request).
  rewrite (list_fmap_ext (persisted_request ∘ ComputeRequestFields) persisted_request requests)
    by (intros i r _; apply persisted_Compute).
  now rewrite Hp.
Qed.

Lemma compute_persisted_session (sess : Session.t) :
  persisted_session sess = sess ->
  compute_session (persisted_session (compute_session sess)) = compute_session sess.
Proof.
  intros Hp. apply (f_equal Session.Requests) in Hp. simpl in Hp.
  unfold compute_session, persisted_session. simpl. f_equal.
  now apply Compute_persisted_Compute.
Qed.

Lemma migrate_idem (env env' : Env.t) (store : Store.t) :
  migrate env' (migrate env store) = migrate env store.
Proof.
  unfold migrate.
  destruct ((0 <? Z.of_nat (length (Store.Requests store)))
            && (Z.of_nat (length (Store.Sessions store)) =? 0)) eqn:Hc; simpl.
  - f_equal. rewrite <- list_fmap_compose. apply list_fmap_ext.
    intros i s _. apply compute_session_idem.
  - rewrite length_fmap, Hc. simpl. f_equal.
    rewrite <- list_fmap_compose. apply list_fmap_ext.
    intros i s _. apply compute_session_idem.
Qed.

Lemma fmap_fixed {A} (f : A -> A) (l : list A) (i : nat) (x : A) :
  f <$> l = l -> l !! i = Some x -> f x = x.
Proof.
  intros Hf Hi. apply (f_equal (fun l' => l' !! i)) in Hf.
  rewrite list_lookup_fmap, Hi in Hf. cbn in Hf. congruence.
Qed.

Lemma migrate_persisted (env env' : Env.t) (store : Store.t) :
  persisted store = store ->
  migrate env' (persisted (migrate env store)) = migrate env store.
Proof.
  intros Hp.
  assert (Hs : persisted_session <$> Store.Sessions store = Store.Sessions store)
    by (apply (f_equal Store.Sessions) in Hp; exact Hp).
  assert (Hr : persisted_request <$> Store.Requests store = Store.Requests store)
    by (apply (f_equal Store.Requests) in Hp; exact Hp).
  unfold migrate.
  destruct ((0 <? Z.of_nat (length (Store.Requests store)))
            && (Z.of_nat (length (Store.Sessions store)) =? 0)) eqn:Hc;
    unfold persisted; simpl.
  - f_equal. rewrite <- !list_fmap_compose. apply list_fmap_ext.
    intros i s Hi. simpl. apply lookup_app_Some in Hi as [Hi | [_ Hi]].
    + apply compute_persisted_session. now apply (fmap_fixed _ _ i s Hs).
    + apply list_lookup_singleton_Some in Hi as [_ <-].
      unfold compute_session, persisted_session. simpl. f_equal.
      rewrite Compute_fmap_idem. now apply Compute_persisted_Compute.
  - rewrite !length_fmap, Hc. simpl. rewrite Hr. f_equal.
    rewrite <- !list_fmap_compose. apply list_fmap_ext.
    intros i s Hi. simpl. apply compute_persisted_session.
    now apply (fmap_fixed _ _ i s Hs).
Qed.

(** C4. When the store file decodes, [Load] succeeds.  It migrates exactly
    when the legacy requests are non-empty and there is no session: the
    loaded store then has the single session [migrated-<today>] holding the
    legacy requests (with their derived fields) and its legacy fields are
    cleared.  Otherwise no session is synthesized.  Loading again what was
    loaded, as it is in memory or as [Save] persists it, gives the same store:
    nothing is migrated a second time. *)
Theorem C4_migration (env : Env.t) (path data : string) (store : Store.t) :
  Env.StoreFilePath env = Ok path ->
  Env.ReadFile env path = ReadOk data ->
  sonic.Unmarshal data NewStore = Ok store ->
  exists loaded,
    Load env = Ok loaded
    /\ (Store.Requests store <> [] -> Store.Sessions store = [] ->
        Store.Sessions loaded =
          [ {| Session.ID := ("migrated-" ++ Env.Today env)%string;
               Session.Timestamp := Env.NowMilli env;
               Session.Note := "Auto-migrated from old format";
               Session.Requests := ComputeRequestFields <$> Store.Requests store |} ]
        /\ Store.Requests loaded = [] /\ Store.LastImport loaded = 0)
    /\ (Store.Requests store = [] \/ Store.Sessions store <> [] ->
        Store.Sessions loaded = compute_session <$> Store.Sessions store
        /\ length (Store.Sessions loaded) = length (Store.Sessions store)
        /\ Store.Requests loaded = Store.Requests store
        /\ Store.LastImport loaded = Store.LastImport store)
    /\ (forall env', migrate env' loaded = loaded)
    /\ (persisted store = store ->
        forall env2 path2 data2,
          Env.StoreFilePath env2 = Ok path2 ->
          Env.ReadFile env2 path2 = ReadOk data2 ->
          sonic.Unmarshal data2 NewStore = Ok (persisted loaded) ->
          Load env2 = Ok loaded).
Proof.
  intros Hpath Hread Hdec. exists (migrate env store).
  split; [unfold Load; now rewrite Hpath, Hread, Hdec |].
  split; [| split; [| split]].
  - intros Hreq Hsess. unfold migrate. rewrite Hsess.
    destruct (Store.Requests store) as [| r rs] eqn:Hrs; [contradiction |].
    replace ((0 <? Z.of_nat (length (r :: rs))) && (Z.of_nat (length (@nil Session.t)) =? 0))
      with true by (simpl length; symmetry; apply andb_true_intro; split;
                    [apply Z.ltb_lt; lia | reflexivity]).
    simpl. repeat split. unfold compute_session. simpl. do 2 f_equal.
    f_equal; [apply ComputeRequestFields_idem |].
    rewrite <- list_fmap_compose. apply list_fmap_ext.
    intros i x _. apply ComputeRequestFields_idem.
  - intros Hno. unfold migrate.
    replace ((0 <? Z.of_nat (length (Store.Requests store)))
             && (Z.of_nat (length (Store.Sessions store)) =? 0)) with false.
    + simpl. rewrite length_fmap. repeat split.
    + symmetry. destruct Hno as [Hreq | Hsess].
      * rewrite Hreq. reflexivity.
      * apply andb_false_iff. right. apply Z.eqb_neq.
        destruct (Store.Sessions store); [contradiction | simpl length; lia].
  - intros env'. apply migrate_idem.
  - intros Hp env2 path2 data2 Hpath2 Hread2 Hdec2.
    unfold Load. rewrite Hpath2, Hread2, Hdec2. f_equal.
    now apply migrate_persisted.
Qed.

End Migration.

Lemma C4_migration_witness :
  exists loaded,
    Load Sample.legacy_env = Ok loaded
    /\ (Session.ID <$> Store.Sessions loaded) = ["migrated-20250102"]
    /\ Store.Requests loaded = [].
Proof.
  assert (Hdec : sonic.Unmarshal "{legacy}" NewStore = Ok Sample.legacy_store)
    by reflexivity.
  destruct (C4_migration Sample.legacy_env "store.json" "{legacy}" Sample.legacy_store
              eq_refl eq_refl Hdec) as (loaded & Hload & Hmig & _).
  exists loaded. split; [exact Hload |].
  destruct Hmig as (Hs & Hr & _); [discriminate | reflexivity |].
  split; [now rewrite Hs | exact Hr].
Defined.

(** ** The filter (Store.Filter) *)

Section FilterProperties.
Context `{GoString.Unicode} `{regexp.Engine}.

Lemma passes_true (s : Store.t) (opts : FilterOptions.t) (req : Request.t) (p : Prepared.t) :
  passes s opts req p = true <->
  skip_ignored s opts req = false /\ skip_not_primary s opts req = false
  /\ skip_domain opts req = false /\ skip_domains opts req = false
  /\ skip_method opts req = false /\ skip_methods opts req = false
  /\ skip_status opts req = false /\ skip_status_range opts req = false
  /\ skip_status_ranges opts req = false /\ skip_resource_types opts req = false
  /\ skip_pattern req p = false.
Proof.
  unfold passes.
  repeat match goal with
         | |- context [if ?b then false else _] => destruct b
         end; intuition congruence.
Qed.

Lemma stopped_fold (s : Store.t) (opts : FilterOptions.t) (p : Prepared.t)
    (l : list Request.t) (st : Loop.t) :
  Loop.stopped st = true -> fold_left (Filter_body s opts p) l st = st.
Proof.
  intros Hst. induction l as [| a l IH]; simpl; [reflexivity |].
  unfold Filter_body at 2. now rewrite Hst.
Qed.

(** The loop of [Filter], started with [acc] collected and [o] still to
    skip. *)
Lemma Filter_loop (s : Store.t) (opts : FilterOptions.t) (p : Prepared.t)
    (l : list Request.t) :
  forall (acc : list Request.t) (o : Z),
    FilterOptions.Limit opts <= 0 \/ Z.of_nat (length acc) < FilterOptions.Limit opts ->
    Loop.result
      (fold_left (Filter_body s opts p) l
         {| Loop.Offset := o; Loop.result := acc; Loop.stopped := false |})
    = (acc ++
       (let rest := skipn (Z.to_nat o) (List.filter (fun r => passes s opts r p) l) in
        if 0 <? FilterOptions.Limit opts
        then firstn (Z.to_nat (FilterOptions.Limit opts - Z.of_nat (length acc))) rest
        else rest))%list.
Proof.
  induction l as [| a l IH]; intros acc o Hlim.
  - simpl. rewrite skipn_nil, firstn_nil. destruct (0 <? _); now rewrite app_nil_r.
  - cbn [fold_left List.filter]. unfold Filter_body at 2. cbn [Loop.stopped].
    destruct (passes s opts a p) eqn:Hpass; cbn [negb].
    + cbn [Loop.Offset Loop.result].
      destruct (Z.ltb_spec 0 o) as [Hpos | Hnpos].
      * rewrite IH by assumption.
        replace (Z.to_nat o) with (S (Z.to_nat (o - 1))) by lia.
        reflexivity.
      * replace (Z.to_nat o) with O by lia. cbn [skipn].
        destruct ((0 <? FilterOptions.Limit opts)
                  && (FilterOptions.Limit opts <=? Z.of_nat (length (acc ++ [a]))))
          eqn:Hstop.
        -- rewrite stopped_fold by reflexivity. cbn [Loop.result].
           apply andb_true_iff in Hstop as [Hl Hle].
           rewrite Hl. apply Z.ltb_lt in Hl. apply Z.leb_le in Hle.
           rewrite length_app in Hle. cbn [length] in Hle.
           replace (Z.to_nat (FilterOptions.Limit opts - Z.of_nat (length acc)))
             with 1%nat by lia.
           reflexivity.
        -- assert (Hcase : FilterOptions.Limit opts <= 0
                           \/ Z.of_nat (length (acc ++ [a])) < FilterOptions.Limit opts).
           { apply andb_false_iff in Hstop as [Hf | Hf].
             - left. apply Z.ltb_ge in Hf. lia.
             - right. now apply Z.leb_gt in Hf. }
           rewrite (IH _ _ Hcase).
           replace (Z.to_nat o) with O by lia. cbn [skipn].
           rewrite <- app_assoc. cbn [app]. f_equal.
           destruct (Z.ltb_spec 0 (FilterOptions.Limit opts)) as [Hl | Hl];
             [| reflexivity].
           rewrite length_app in Hcase |- *. cbn [length] in Hcase |- *.
           replace (Z.to_nat (FilterOptions.Limit opts - Z.of_nat (length acc)))
             with (S (Z.to_nat (FilterOptions.Limit opts
                                - Z.of_nat (length acc + 1)))) by lia.
           reflexivity.
    + apply IH. assumption.
Qed.

(** [Filter] is the page of the requests that pass every predicate. *)
Lemma Filter_page (s : Store.t) (opts : FilterOptions.t) :
  Filter s opts
  = page (FilterOptions.Limit opts) (FilterOptions.Offset opts)
      (List.filter (fun r => passes s opts r (prepare opts)) (Store.Requests s)).
Proof.
  unfold Filter, page. rewrite Filter_loop.
  - cbn [app length]. now rewrite Z.sub_0_r.
  - cbn [length]. lia.
Qed.

Lemma page_none {A} (limit offset : Z) (l : list A) :
  limit <= 0 -> offset <= 0 -> page limit offset l = l.
Proof.
  intros Hl Ho. unfold page. replace (Z.to_nat offset) with O by lia.
  destruct (Z.ltb_spec 0 limit); [lia | reflexivity].
Qed.

Lemma page_sublist {A} (limit offset : Z) (l : list A) : sublist (page limit offset l) l.
Proof.
  unfold page. destruct (0 <? limit).
  - etransitivity; [apply sublist_take | apply sublist_drop].
  - apply sublist_drop.
Qed.

Lemma filter_sublist {A} (f : A -> bool) (l : list A) : sublist (List.filter f l) l.
Proof.
  induction l as [| a l IH]; simpl; [constructor |].
  destruct (f a); now constructor.
Qed.

Lemma Filter_unpaged (s : Store.t) (opts : FilterOptions.t) :
  Filter s (FilterOptions.with_page opts 0 0)
  = List.filter (fun r => passes s opts r (prepare opts)) (Store.Requests s).
Proof. rewrite Filter_page. now apply page_none. Qed.

Lemma Filter_sublist (s : Store.t) (opts : FilterOptions.t) :
  sublist (Filter s opts) (Store.Requests s).
Proof.
  rewrite Filter_page. etransitivity; [apply page_sublist | apply filter_sublist].
Qed.

Lemma prepare_unset (opts : FilterOptions.t) :
  GoString.TrimSpace (FilterOptions.Pattern opts) = "" ->
  Prepared.pattern (prepare opts) = "".
Proof. intros Ht. unfold prepare. rewrite Ht. reflexivity. Qed.

Lemma passes_includes (s : Store.t) (both one : FilterOptions.t) (req : Request.t) :
  includes both one ->
  passes s both req (prepare both) = true ->
  passes s one req (prepare one) = true.
Proof.
  intros (Hei & Hpo & Hd & Hds & Hm & Hms & Hst & Hsr & Hsrs & Hrt & Hpat) Hp.
  apply passes_true in Hp
    as (G1 & G2 & G3 & G4 & G5 & G6 & G7 & G8 & G9 & G10 & G11).
  apply passes_true. repeat split.
  - unfold skip_ignored in *. destruct Hei as [-> | ->]; [reflexivity | assumption].
  - unfold skip_not_primary in *. destruct Hpo as [-> | ->]; [reflexivity | assumption].
  - unfold skip_domain in *. destruct Hd as [-> | ->]; [reflexivity | assumption].
  - unfold skip_domains in *. destruct Hds as [-> | ->]; [reflexivity | assumption].
  - unfold skip_method in *. destruct Hm as [-> | ->]; [reflexivity | assumption].
  - unfold skip_methods in *. destruct Hms as [-> | ->]; [reflexivity | assumption].
  - unfold skip_status in *. destruct Hst as [-> | ->]; [reflexivity | assumption].
  - unfold skip_status_range in *.
    destruct Hsr as [-> | ->]; [now destruct (Request.Response req) | assumption].
  - unfold skip_status_ranges in *.
    destruct Hsrs as [-> | ->]; [now destruct (Request.Response req) | assumption].
  - unfold skip_resource_types in *. destruct Hrt as [-> | ->]; [reflexivity | assumption].
  - destruct Hpat as [Hu | He].
    + unfold skip_pattern. now rewrite (prepare_unset one Hu).
    + unfold prepare in *. now rewrite He.
Qed.

(** C3. With the predicates [a] and [b] both set, [Filter] returns only
    requests that it returns for [a] alone and for [b] alone.  With a limit
    [N > 0] it returns at most [N] requests, and always a subsequence of the
    input.  With an offset and a limit it returns the requests matching with
    both cleared, without the first [Offset] of them and cut after [Limit];
    a limit or an offset of 0 bounds nothing. *)
Theorem C3_filter_composition (s : Store.t) :
  (forall both a b : FilterOptions.t,
     includes both a -> includes both b ->
     FilterOptions.Limit a = 0 -> FilterOptions.Offset a = 0 ->
     FilterOptions.Limit b = 0 -> FilterOptions.Offset b = 0 ->
     forall r, r ∈ Filter s both -> r ∈ Filter s a /\ r ∈ Filter s b)
  /\ (forall opts : FilterOptions.t,
        0 < FilterOptions.Limit opts ->
        Z.of_nat (length (Filter s opts)) <= FilterOptions.Limit opts)
  /\ (forall opts : FilterOptions.t, sublist (Filter s opts) (Store.Requests s))
  /\ (forall opts : FilterOptions.t,
        Filter s opts
        = page (FilterOptions.Limit opts) (FilterOptions.Offset opts)
            (Filter s (FilterOptions.with_page opts 0 0)))
  /\ (forall opts : FilterOptions.t,
        FilterOptions.Limit opts = 0 ->
        Filter s opts
        = skipn (Z.to_nat (FilterOptions.Offset opts))
            (Filter s (FilterOptions.with_page opts 0 0)))
  /\ (forall opts : FilterOptions.t,
        FilterOptions.Offset opts = 0 -> 0 < FilterOptions.Limit opts ->
        Filter s opts
        = firstn (Z.to_nat (FilterOptions.Limit opts))
            (Filter s (FilterOptions.with_page opts 0 0)))
  /\ (forall opts : FilterOptions.t,
        FilterOptions.Limit opts = 0 -> FilterOptions.Offset opts = 0 ->
        Filter s opts
        = List.filter (fun r => passes s opts r (prepare opts)) (Store.Requests s)).
Proof.
  assert (Hpage : forall opts : FilterOptions.t,
             Filter s opts
             = page (FilterOptions.Limit opts) (FilterOptions.Offset opts)
                 (Filter s (FilterOptions.with_page opts 0 0))).
  { intros opts. rewrite Filter_unpaged. apply Filter_page. }
  assert (Hone : forall both one : FilterOptions.t,
             includes both one ->
             FilterOptions.Limit one = 0 -> FilterOptions.Offset one = 0 ->
             forall r, r ∈ Filter s both -> r ∈ Filter s one).
  { intros both one Hinc Hl Ho r Hr.
    rewrite (Filter_page s one), Hl, Ho, page_none by lia.
    rewrite (Filter_page s both) in Hr.
    pose proof (elem_of_sublist _ _ _ Hr (page_sublist _ _ _)) as Hin.
    apply list_elem_of_In, filter_In in Hin as [Hin Hp].
    apply list_elem_of_In, filter_In. split; [assumption |].
    now apply (passes_includes s both one). }
  split; [| repeat split].
  - intros both a b Ha Hb Hla Hoa Hlb Hob r Hr. split.
    + now apply (Hone both a).
    + now apply (Hone both b).
  - intros opts Hl. rewrite Filter_page. unfold page.
    destruct (Z.ltb_spec 0 (FilterOptions.Limit opts)); [| lia].
    pose proof (firstn_le_length (Z.to_nat (FilterOptions.Limit opts))
                  (skipn (Z.to_nat (FilterOptions.Offset opts))
                     (List.filter (fun r => passes s opts r (prepare opts))
                        (Store.Requests s)))).
    lia.
  - apply Filter_sublist.
  - apply Hpage.
  - intros opts Hl. rewrite Hpage at 1. unfold page. now rewrite Hl.
  - intros opts Ho Hl. rewrite Hpage at 1. unfold page. rewrite Ho.
    destruct (Z.ltb_spec 0 (FilterOptions.Limit opts)); [reflexivity | lia].
  - intros opts Hl Ho. rewrite Filter_page, Hl, Ho. now apply page_none.
Qed.

End FilterProperties.

Lemma C3_filter_composition_witness :
  let s := NewTempStore Sample.traffic in
  let r := Request.with_computed
             (Sample.request "3" "GET" "https://a.example/missing" "https://b.example/q"
                (Sample.response 404) 3) "a.example" "/missing" in
  r ∈ Filter s (Sample.options "GET" 0 [] 0 0)
  /\ r ∈ Filter s (Sample.options "" 0 ["4xx"; "5xx"] 0 0).
Proof.
  intros s r.
  apply (proj1 (C3_filter_composition s) (Sample.options "GET" 0 ["4xx"; "5xx"] 1 0)).
  - unfold includes. simpl. repeat split; (left; reflexivity) || (right; reflexivity).
  - unfold includes. simpl. repeat split; (left; reflexivity) || (right; reflexivity).
  - reflexivity.
  - reflexivity.
  - reflexivity.
  - reflexivity.
  - assert (Hf : Filter s (Sample.options "GET" 0 ["4xx"; "5xx"] 1 0) = [r])
      by (vm_compute; reflexivity).
    rewrite Hf. apply list_elem_of_singleton. reflexivity.
Defined.

Section StatusFilters.
Context `{GoString.Unicode} `{regexp.Engine}.

(** C9. For a request without a response: an exact status predicate keeps it
    out of the result, whereas the status range predicates do not look at it,
    so it passes under every range and every set of ranges exactly when it
    passes with them cleared, and an unpaginated [Filter] that returns it
    without status ranges returns it with any. *)
Theorem C9_no_response (s : Store.t) (opts : FilterOptions.t) (req : Request.t) :
  Request.Response req = None ->
  (FilterOptions.Status opts <> 0 -> ~ req ∈ Filter s opts)
  /\ (forall sr srs,
        passes s (FilterOptions.with_ranges opts sr srs) req
          (prepare (FilterOptions.with_ranges opts sr srs))
        = passes s (FilterOptions.with_ranges opts "" []) req
            (prepare (FilterOptions.with_ranges opts "" [])))
  /\ (forall sr srs,
        FilterOptions.Limit opts = 0 -> FilterOptions.Offset opts = 0 ->
        req ∈ Filter s (FilterOptions.with_ranges opts "" []) ->
        req ∈ Filter s (FilterOptions.with_ranges opts sr srs)).
Proof.
  intros Hresp.
  assert (Hranges : forall sr srs,
             passes s (FilterOptions.with_ranges opts sr srs) req
               (prepare (FilterOptions.with_ranges opts sr srs))
             = passes s (FilterOptions.with_ranges opts "" []) req
                 (prepare (FilterOptions.with_ranges opts "" []))).
  { intros sr srs. unfold passes, skip_status_range, skip_status_ranges.
    rewrite Hresp. reflexivity. }
  split; [| split].
  - intros Hst Hin. rewrite Filter_page in Hin.
    pose proof (elem_of_sublist _ _ _ Hin (page_sublist _ _ _)) as Hf.
    apply list_elem_of_In, filter_In in Hf as [_ Hp].
    apply passes_true in Hp as (_ & _ & _ & _ & _ & _ & G7 & _).
    unfold skip_status in G7. rewrite Hresp in G7.
    apply Z.eqb_neq in Hst. rewrite Hst in G7. discriminate G7.
  - exact Hranges.
  - intros sr srs Hl Ho Hin.
    rewrite Filter_page in Hin |- *. cbn [FilterOptions.with_ranges FilterOptions.Limit
      FilterOptions.Offset] in Hin |- *.
    rewrite Hl, Ho, page_none in Hin |- * by lia.
    apply list_elem_of_In, filter_In in Hin as [Hin Hp].
    apply list_elem_of_In, filter_In. split; [assumption |].
    now rewrite Hranges.
Qed.

End StatusFilters.

Lemma C9_no_response_witness :
  let s := NewTempStore Sample.traffic in
  let r := Request.with_computed
             (Sample.request "2" "POST" "https://b.example/q" "https://a.example/p?x=1"
                None 2) "b.example" "/q" in
  ~ r ∈ Filter s (Sample.options "" 404 [] 0 0)
  /\ r ∈ Filter s (FilterOptions.with_ranges (Sample.options "" 0 [] 0 0) "5xx" ["4xx"]).
Proof.
  intros s r. split.
  - apply (proj1 (C9_no_response s (Sample.options "" 404 [] 0 0) r eq_refl)).
    discriminate.
  - apply (proj2 (proj2 (C9_no_response s (Sample.options "" 0 [] 0 0) r eq_refl)));
      [reflexivity | reflexivity |].
    assert (Hf : Filter s (FilterOptions.with_ranges (Sample.options "" 0 [] 0 0) "" [])
                 = Store.Requests s) by (vm_compute; reflexivity).
    rewrite Hf. vm_compute. apply list_elem_of_In. right. left. reflexivity.
Defined.

(** ** Chain reconstruction (buildChainForRequest) *)

Section Chain.
Context {strings : GoString.Unicode} {engine : regexp.Engine}.

Lemma size_list_to_set_le (l : list string) :
  (size (list_to_set l : gset string) <= length l)%nat.
Proof.
  induction l as [| x l IH].
  - rewrite list_to_set_nil, size_empty. reflexivity.
  - rewrite list_to_set_cons, size_union_alt, size_singleton. simpl.
    pose proof (subseteq_size (list_to_set l ∖ {[x]}) (list_to_set l : gset string)) as Hs.
    assert (Hsub : (list_to_set l ∖ {[x]} : gset string) ⊆ list_to_set l) by set_solver.
    specialize (Hs Hsub). lia.
Qed.

Lemma findRequestByURL_stored (s : Store.t) (target : string) (parent : Request.t) :
  cmd.findRequestByURL s target = Some parent ->
  Request.ID parent ∈ cmd.stored_ids s.
Proof.
  unfold cmd.findRequestByURL, cmd.stored_ids. intros Hfind.
  apply find_some in Hfind as [Hin _]. apply list_elem_of_In in Hin.
  pose proof (elem_of_sublist _ _ _ Hin (Filter_sublist s FilterOptions.zero)) as Hreq.
  apply elem_of_list_to_set, list_elem_of_fmap. now exists parent.
Qed.

Lemma size_visit (ids visited : gset string) (id : string) :
  id ∈ ids -> id ∉ visited ->
  size (ids ∖ visited) = S (size (ids ∖ ({[id]} ∪ visited))).
Proof.
  intros Hin Hnot.
  assert (Heq : ids ∖ visited = {[id]} ∪ ids ∖ ({[id]} ∪ visited)).
  { apply set_eq. intros x. destruct (decide (x = id)); set_solver. }
  rewrite Heq, size_union, size_singleton by set_solver. reflexivity.
Qed.

(** From a stored request the loop ends within as many executions of its
    body as there are stored IDs not yet visited. *)
Lemma chain_loop_stored (s : Store.t) (fuel : nat) :
  forall (visited : gset string) (cur : Request.t) (links : list cmd.ChainLink.t),
    Request.ID cur ∈ cmd.stored_ids s ->
    (size (cmd.stored_ids s ∖ visited) <= fuel)%nat ->
    exists links' n,
      cmd.chain_loop fuel s visited (Some cur) links = Some (links', n)
      /\ (n <= size (cmd.stored_ids s ∖ visited))%nat.
Proof.
  induction fuel as [| fuel IH]; intros visited cur links Hcur Hfuel.
  - destruct (decide (Request.ID cur ∈ visited)) as [Hv | Hv].
    + exists links, O. simpl. rewrite decide_True by assumption. split; [reflexivity | lia].
    + rewrite (size_visit _ _ _ Hcur Hv) in Hfuel. lia.
  - destruct (decide (Request.ID cur ∈ visited)) as [Hv | Hv].
    + exists links, O. simpl. rewrite decide_True by assumption. split; [reflexivity | lia].
    + simpl. rewrite decide_False by assumption.
      rewrite (size_visit _ _ _ Hcur Hv) in Hfuel |- *.
      destruct (String.eqb (Request.Initiator cur) "").
      { eexists _, _. split; [reflexivity | lia]. }
      destruct (cmd.findRequestByURL s (Request.Initiator cur)) as [parent |] eqn:Hfind.
      2: { eexists _, _. split; [reflexivity | lia]. }
      destruct (String.eqb (Request.ID parent) (Request.ID cur)).
      { eexists _, _. split; [reflexivity | lia]. }
      destruct (IH ({[Request.ID cur]} ∪ visited) parent (cmd.link_of cur :: links))
        as (links' & n & Hloop & Hn).
      * now apply findRequestByURL_stored in Hfind.
      * lia.
      * rewrite Hloop. exists links', (S n). split; [reflexivity | lia].
Qed.

Lemma chain_loop_more (s : Store.t) (fuel : nat) :
  forall (visited : gset string) (current : option Request.t)
         (links : list cmd.ChainLink.t) (r : list cmd.ChainLink.t * nat),
    cmd.chain_loop fuel s visited current links = Some r ->
    forall fuel', (fuel <= fuel')%nat ->
      cmd.chain_loop fuel' s visited current links = Some r.
Proof.
  induction fuel as [| fuel IH]; intros visited current links r Hloop fuel' Hle.
  - destruct current as [cur |]; [| destruct fuel'; exact Hloop].
    simpl in Hloop. destruct (decide (Request.ID cur ∈ visited)) as [Hv | Hv];
      [| discriminate Hloop].
    destruct fuel'; simpl; now rewrite decide_True by assumption.
  - destruct fuel' as [| fuel']; [lia |].
    destruct current as [cur |]; [| exact Hloop].
    simpl in Hloop |- *.
    destruct (decide (Request.ID cur ∈ visited)) as [Hv | Hv]; [exact Hloop |].
    destruct (String.eqb (Request.Initiator cur) ""); [exact Hloop |].
    destruct (cmd.findRequestByURL s (Request.Initiator cur)) as [parent |];
      [| exact Hloop].
    destruct (String.eqb (Request.ID parent) (Request.ID cur)); [exact Hloop |].
    destruct (cmd.chain_loop fuel s _ (Some parent) _) as [[links' n] |] eqn:Hrec;
      [| discriminate Hloop].
    rewrite (IH _ _ _ _ Hrec fuel') by lia. exact Hloop.
Qed.

(** C6. Reconstructing the chain of any request in any store terminates: the
    loop returns a chain after at most (number of distinct stored IDs + 1)
    executions of its body, with the fuel [buildChainForRequest] provides and
    with any larger fuel, whether or not the initiators form a cycle; and a
    walk that reaches an ID already visited stops at once, without executing
    the body. *)
Theorem C6_chain_terminates (s : Store.t) (req : Request.t) :
  (exists links n,
     (forall fuel, (size (cmd.stored_ids s) + 1 <= fuel)%nat ->
        cmd.chain_loop fuel s ∅ (Some req) [] = Some (links, n))
     /\ (n <= size (cmd.stored_ids s) + 1)%nat
     /\ (size (cmd.stored_ids s) <= length (Store.Requests s))%nat
     /\ cmd.RequestChain.Links (cmd.buildChainForRequest s req) = links)
  /\ (forall fuel visited cur links,
        Request.ID cur ∈ visited ->
        cmd.chain_loop fuel s visited (Some cur) links = Some (links, O)).
Proof.
  assert (Hsize : (size (cmd.stored_ids s) <= length (Store.Requests s))%nat).
  { unfold cmd.stored_ids. etransitivity; [apply size_list_to_set_le |].
    now rewrite length_fmap. }
  split.
  - assert (Hstep : exists links n,
               cmd.chain_loop (S (size (cmd.stored_ids s))) s ∅ (Some req) []
               = Some (links, n)
               /\ (n <= size (cmd.stored_ids s) + 1)%nat).
    { simpl. rewrite decide_False by set_solver.
      destruct (String.eqb (Request.Initiator req) "").
      { eexists _, _. split; [reflexivity | lia]. }
      destruct (cmd.findRequestByURL s (Request.Initiator req)) as [parent |] eqn:Hfind.
      2: { eexists _, _. split; [reflexivity | lia]. }
      destruct (String.eqb (Request.ID parent) (Request.ID req)).
      { eexists _, _. split; [reflexivity | lia]. }
      assert (Hle : (size (cmd.stored_ids s ∖ ({[Request.ID req]} ∪ ∅))
                     <= size (cmd.stored_ids s))%nat)
        by (apply subseteq_size; set_solver).
      apply findRequestByURL_stored in Hfind.
      destruct (chain_loop_stored s (size (cmd.stored_ids s)) ({[Request.ID req]} ∪ ∅)
                  parent [cmd.link_of req] Hfind Hle) as (links' & n & Hloop & Hn).
      rewrite Hloop. exists links', (S n). split; [reflexivity | lia]. }
    destruct Hstep as (links & n & Hloop & Hn).
    exists links, n. repeat split; try assumption.
    + intros fuel Hfuel. apply (chain_loop_more s _ _ _ _ _ Hloop). lia.
    + unfold cmd.buildChainForRequest. cbn [cmd.RequestChain.Links].
      rewrite (chain_loop_more s _ _ _ _ _ Hloop (S (length (Store.Requests s)))) by lia.
      reflexivity.
  - intros fuel visited cur links Hv.
    destruct fuel; simpl; now rewrite decide_True by assumption.
Qed.

End Chain.

(** The chain of a request on a cycle of two: the walk visits both requests
    and stops when it comes back to the first. *)
Example chain_on_cycle :
  let s := NewTempStore Sample.cycle in
  forall a, Store.Requests s !! 0%nat = Some a ->
    cmd.chain_loop 3 s ∅ (Some a) []
    = Some ([cmd.link_of (Sample.request "b" "GET" "https://b.example/"
                            "https://a.example/" None 2);
             cmd.link_of a], 2%nat).
Proof. intros s a Ha. vm_compute in Ha. inversion Ha; subst a. vm_compute. reflexivity. Qed.

(** ** Header decoding (headers.go) *)

Lemma into_strings_Str (l : list string) :
  JSON.into_strings (JSON.Str <$> l) = Some l.
Proof.
  induction l as [| x l IH]; [reflexivity |].
  rewrite fmap_cons. cbn [JSON.into_strings JSON.into_string]. now rewrite IH.
Qed.

Lemma slice_roundtrip (x : option (list string)) :
  JSON.into_string_slice (encode_slice x) = Some x.
Proof.
  destruct x as [l |]; [| reflexivity].
  unfold encode_slice, JSON.into_string_slice. now rewrite into_strings_Str.
Qed.

(** Decoding the members that encode entries of [m], in any order and with
    any repetition, overwrites exactly their keys with what [m] holds. *)
Lemma into_members_encoded (m : gmap string (option (list string)))
    (members : list (string * JSON.value)) :
  (forall k v, (k, v) ∈ members -> exists x, m !! k = Some x /\ v = encode_slice x) ->
  forall acc : gmap string (option (list string)),
    exists res,
      JSON.into_members JSON.into_string_slice members acc = Some res
      /\ forall k, res !! k = if decide (k ∈ members.*1) then m !! k else acc !! k.
Proof.
  induction members as [| [k v] members IH]; intros Hm acc.
  - exists acc. split; [reflexivity |]. intros k.
    rewrite decide_False; [reflexivity | apply not_elem_of_nil].
  - destruct (Hm k v) as (x & Hx & ->); [apply list_elem_of_here |].
    simpl. rewrite slice_roundtrip.
    destruct (IH (fun k' v' Hin => Hm k' v' (list_elem_of_further _ _ _ Hin))
                (<[k := x]> acc)) as (res & Hres & Hlook).
    exists res. split; [exact Hres |]. intros k'. rewrite Hlook.
    destruct (decide (k' ∈ members.*1)) as [Hin | Hnin].
    + rewrite decide_True; [reflexivity | now apply list_elem_of_further].
    + destruct (decide (k' = k)) as [-> | Hne].
      * rewrite decide_True by apply list_elem_of_here.
        now rewrite lookup_insert_eq.
      * rewrite decide_False.
        -- now rewrite lookup_insert_ne.
        -- intros Hin. apply elem_of_cons in Hin as [? | ?]; contradiction.
Qed.

Lemma Marshal_Unmarshal (h : HeaderMap) : UnmarshalJSON (Some (MarshalJSON h)) = Ok h.
Proof.
  destruct h as [m |]; [| reflexivity].
  unfold MarshalJSON, UnmarshalJSON. cbn [JSON.into_map].
  set (members := merge_sort key_le (map_to_list (encode_slice <$> m))).
  assert (Hmem : forall k v, (k, v) ∈ members <-> (encode_slice <$> m) !! k = Some v).
  { intros k v. unfold members. rewrite merge_sort_Permutation.
    apply elem_of_map_to_list. }
  destruct (into_members_encoded m members) with (acc := (∅ : gmap string (option (list string))))
    as (res & Hres & Hlook).
  { intros k v Hin. apply Hmem, lookup_fmap_Some in Hin as (x & <- & Hx). now exists x. }
  rewrite Hres. cbn [option_map]. do 2 f_equal.
  apply map_eq. intros k. rewrite Hlook.
  destruct (decide (k ∈ members.*1)) as [Hin | Hnin]; [reflexivity |].
  rewrite lookup_empty. symmetry. apply eq_None_not_Some. intros [x Hx].
  apply Hnin. apply list_elem_of_fmap. exists (k, encode_slice x).
  split; [reflexivity |]. apply Hmem. now rewrite lookup_fmap, Hx.
Qed.

Lemma single_members (members : list (string * string)) :
  forall acc : gmap string string,
    JSON.into_members (JSON.into_string "") (prod_map id JSON.Str <$> members) acc
    = Some (fold_left (fun a kv => <[kv.1 := kv.2]> a) members acc).
Proof.
  induction members as [| [k s] members IH]; intros acc; [reflexivity |].
  simpl. apply IH.
Qed.

Lemma multi_rejects_string (k s : string) (members : list (string * string))
    (acc : gmap string (option (list string))) :
  JSON.into_members JSON.into_string_slice
    (prod_map id JSON.Str <$> ((k, s) :: members)) acc = None.
Proof. reflexivity. Qed.

Lemma fold_insert_lookup (members : list (string * string)) :
  forall (acc : gmap string string) (k s : string),
    fold_left (fun a kv => <[kv.1 := kv.2]> a) members acc !! k = Some s ->
    (k, s) ∈ members \/ acc !! k = Some s.
Proof.
  induction members as [| [k' s'] members IH]; intros acc k s Hl; [now right |].
  simpl in Hl. apply IH in Hl as [Hin | Hacc].
  - left. now apply list_elem_of_further.
  - destruct (decide (k' = k)) as [-> | Hne].
    + rewrite lookup_insert_eq in Hacc. inversion Hacc; subst. left. apply list_elem_of_here.
    + rewrite lookup_insert_ne in Hacc by assumption. now right.
Qed.

Lemma fold_insert_is_Some (members : list (string * string)) :
  forall (acc : gmap string string) (k : string),
    k ∈ members.*1 \/ is_Some (acc !! k) ->
    is_Some (fold_left (fun a kv => <[kv.1 := kv.2]> a) members acc !! k).
Proof.
  induction members as [| [k' s'] members IH]; intros acc k Hk.
  - destruct Hk as [Hin | Hs]; [now apply not_elem_of_nil in Hin | exact Hs].
  - simpl. apply IH. destruct Hk as [Hin | Hs].
    + cbn in Hin. apply elem_of_cons in Hin as [-> | Hin]; [| now left].
      right. rewrite lookup_insert_eq. eauto.
    + right. destruct (decide (k' = k)) as [-> | Hne].
      * rewrite lookup_insert_eq. eauto.
      * now rewrite lookup_insert_ne.
Qed.

Lemma into_pair_object (item : HeaderKV.t) : into_HeaderKV (pair_object item) = Some item.
Proof. destruct item as [n v]. reflexivity. Qed.

Lemma into_pair_objects (items : list HeaderKV.t) :
  into_HeaderKVs (pair_object <$> items) = Some items.
Proof.
  induction items as [| item items IH]; [reflexivity |].
  cbn [fmap list_fmap into_HeaderKVs]. now rewrite into_pair_object, IH.
Qed.

Lemma convert_list_lookup (items : list HeaderKV.t) :
  forall (acc : gmap string (option (list string))) (k : string),
    convert_list items acc !! k
    = if String.eqb k "" then acc !! k
      else match values_of k items with
           | [] => acc !! k
           | vs => Some (Some (default [] (default None (acc !! k)) ++ vs)%list)
           end.
Proof.
  induction items as [| [n v] items IH]; intros acc k.
  - simpl. now destruct (String.eqb k "").
  - cbn [convert_list HeaderKV.Name HeaderKV.Value]. unfold values_of.
    cbn [List.filter HeaderKV.Name].
    destruct (String.eqb_spec n "") as [-> | Hn].
    + rewrite IH. destruct (String.eqb_spec k "") as [-> | Hk]; [reflexivity |].
      rewrite (proj2 (String.eqb_neq "" k)) by congruence. reflexivity.
    + rewrite IH. unfold append_value.
      destruct (String.eqb_spec k "") as [-> | Hk].
      * now rewrite lookup_insert_ne.
      * destruct (String.eqb_spec n k) as [-> | Hnk].
        -- rewrite lookup_insert_eq. cbn [fmap list_fmap HeaderKV.Value default].
           fold (values_of k items).
           destruct (values_of k items) as [| v' vs]; [reflexivity |].
           simpl. now rewrite <- app_assoc.
        -- now rewrite lookup_insert_ne.
Qed.

Lemma values_of_NoDup (items : list HeaderKV.t) (k : string) :
  NoDup (HeaderKV.Name <$> items) -> (length (values_of k items) <= 1)%nat.
Proof.
  induction items as [| [n v] items IH]; intros Hnd; [simpl; lia |].
  cbn [fmap list_fmap HeaderKV.Name] in Hnd. apply NoDup_cons in Hnd as [Hnin Hnd].
  unfold values_of. cbn [List.filter HeaderKV.Name].
  destruct (String.eqb_spec n k) as [-> | Hnk]; [| now apply IH].
  cbn [fmap list_fmap length].
  assert (Hnone : List.filter (fun item => String.eqb (HeaderKV.Name item) k) items = []).
  { destruct (List.filter _ items) as [| x xs] eqn:Hf; [reflexivity |]. exfalso.
    assert (Hin : In x (List.filter (fun item => String.eqb (HeaderKV.Name item) k) items))
      by (rewrite Hf; now left).
    apply filter_In in Hin as [Hin Heq]. apply String.eqb_eq in Heq.
    apply Hnin. apply list_elem_of_fmap. exists x. split; [now symmetry |].
    now apply list_elem_of_In. }
  rewrite Hnone. simpl. lia.
Qed.

(** Two pairs with the same name decode to one list of two values, and an
    object whose value is [null] decodes through the map of lists, which the
    code tries first, to a nil list, where the order of the specification
    would give the one-element list of the empty string. *)
Lemma C5_counterexample :
  let pairs := pair_list [ {| HeaderKV.Name := "a"; HeaderKV.Value := "1" |};
                           {| HeaderKV.Name := "a"; HeaderKV.Value := "2" |} ] in
  let object := JSON.Object [("a", JSON.Null)] in
  UnmarshalJSON (Some pairs) = Ok (Some {[ "a" := Some ["1"; "2"] ]})
  /\ UnmarshalJSON (Some object) = Ok (Some {[ "a" := None ]})
  /\ UnmarshalJSON_spec_order (Some object) = Ok (Some {[ "a" := Some [""] ]})
  /\ UnmarshalJSON (Some object) <> UnmarshalJSON_spec_order (Some object).
Proof.
  intros pairs object.
  assert (H1 : UnmarshalJSON (Some pairs) = Ok (Some {[ "a" := Some ["1"; "2"] ]})).
  { vm_compute. reflexivity. }
  assert (H2 : UnmarshalJSON (Some object) = Ok (Some {[ "a" := None ]}))
    by reflexivity.
  assert (H3 : UnmarshalJSON_spec_order (Some object) = Ok (Some {[ "a" := Some [""] ]})).
  { vm_compute. reflexivity. }
  split; [exact H1 | split; [exact H2 | split; [exact H3 |]]].
  rewrite H2, H3. intros Heq. inversion Heq.
Qed.

(** C5 (as amended). [UnmarshalJSON] tries the map of name to list of values
    first, then the map of name to single value, then the list of pairs; it
    returns what the first form that decodes gives and fails exactly when the
    bytes are not JSON or no form decodes.  A single-value map with string
    values decodes to one-element lists.  A list of pairs decodes to the
    values of each non-empty name in order of appearance, which are
    one-element lists when no name repeats.  Encoding a header map and
    decoding it gives the map back. *)
Theorem C5_header_decoding :
  (forall v multi,
     JSON.into_map JSON.into_string_slice v = Some multi ->
     UnmarshalJSON (Some v) = Ok multi)
  /\ (forall v single,
        JSON.into_map JSON.into_string_slice v = None ->
        JSON.into_map (JSON.into_string "") v = Some single ->
        UnmarshalJSON (Some v) = Ok (Some ((fun s => Some [s]) <$> default ∅ single)))
  /\ (forall v list,
        JSON.into_map JSON.into_string_slice v = None ->
        JSON.into_map (JSON.into_string "") v = None ->
        into_HeaderKV_list v = Some list ->
        UnmarshalJSON (Some v) = Ok (Some (convert_list list ∅)))
  /\ (forall data,
        (exists msg, UnmarshalJSON data = Error msg) <->
        (data = None
         \/ exists v, data = Some v
                      /\ JSON.into_map JSON.into_string_slice v = None
                      /\ JSON.into_map (JSON.into_string "") v = None
                      /\ into_HeaderKV_list v = None))
  /\ (forall members : list (string * string),
        exists m,
          UnmarshalJSON (Some (single_value_object members)) = Ok (Some m)
          /\ (forall k s, (k, s) ∈ members -> is_Some (m !! k))
          /\ (forall k vs, m !! k = Some vs -> exists s, (k, s) ∈ members /\ vs = Some [s]))
  /\ (forall items : list HeaderKV.t,
        UnmarshalJSON (Some (pair_list items)) = Ok (Some (convert_list items ∅))
        /\ (forall k,
              convert_list items ∅ !! k
              = if String.eqb k "" then None
                else match values_of k items with
                     | [] => None
                     | vs => Some (Some vs)
                     end)
        /\ (NoDup (HeaderKV.Name <$> items) ->
            forall k vs, convert_list items ∅ !! k = Some vs -> exists s, vs = Some [s]))
  /\ (forall h : HeaderMap, UnmarshalJSON (Some (MarshalJSON h)) = Ok h).
Proof.
  assert (Hlook : forall items k,
             convert_list items ∅ !! k
             = if String.eqb k "" then None
               else match values_of k items with
                    | [] => None
                    | vs => Some (Some vs)
                    end).
  { intros items k. rewrite convert_list_lookup, lookup_empty.
    destruct (String.eqb k ""); [reflexivity |].
    now destruct (values_of k items). }
  split; [| split; [| split; [| split; [| split; [| split]]]]].
  - intros v multi Hm. destruct v; cbn in Hm; try discriminate Hm.
    + now inversion Hm.
    + unfold UnmarshalJSON. cbn [JSON.into_map]. now rewrite Hm.
  - intros v single Hm Hs. destruct v; cbn in Hm, Hs; try discriminate.
    unfold UnmarshalJSON. cbn [JSON.into_map]. rewrite Hm.
    destruct (JSON.into_members (JSON.into_string "") members ∅); [| discriminate Hs].
    cbn in Hs. now inversion Hs.
  - intros v list Hm Hs Hl. destruct v; cbn in Hm, Hs, Hl; try discriminate.
    unfold UnmarshalJSON. cbn. now rewrite Hl.
  - intros data. split.
    + intros [msg Herr]. destruct data as [v |]; [right | now left].
      exists v. split; [reflexivity |].
      destruct v; cbn in Herr; try discriminate Herr; cbn.
      * repeat split.
      * repeat split.
      * repeat split.
      * repeat split. now destruct (into_HeaderKVs elements).
      * destruct (JSON.into_members JSON.into_string_slice members ∅);
          [discriminate Herr |].
        destruct (JSON.into_members (JSON.into_string "") members ∅);
          [discriminate Herr |].
        repeat split.
    + intros [-> | (v & -> & Hm & Hs & Hl)]; [now eexists |].
      destruct v; cbn in Hm, Hs, Hl; try discriminate;
        unfold UnmarshalJSON; cbn; try (now eexists).
      * rewrite Hl. now eexists.
      * destruct (JSON.into_members JSON.into_string_slice members ∅);
          [discriminate Hm |].
        destruct (JSON.into_members (JSON.into_string "") members ∅);
          [discriminate Hs |].
        now eexists.
  - intros members.
    exists ((fun s => Some [s]) <$> fold_left (fun a kv => <[kv.1 := kv.2]> a) members ∅).
    split; [| split].
    + destruct members as [| [k s] members].
      * cbn. now rewrite fmap_empty.
      * unfold single_value_object, UnmarshalJSON, JSON.into_map.
        rewrite multi_rejects_string, single_members. reflexivity.
    + intros k s Hin. rewrite lookup_fmap. apply fmap_is_Some.
      apply fold_insert_is_Some. left. apply list_elem_of_fmap. now exists (k, s).
    + intros k vs Hl. rewrite lookup_fmap in Hl.
      destruct (fold_left _ members ∅ !! k) as [s |] eqn:Hf; [| discriminate Hl].
      cbn in Hl. inversion Hl; subst vs. exists s. split; [| reflexivity].
      apply fold_insert_lookup in Hf as [Hin | Hemp]; [exact Hin |].
      rewrite lookup_empty in Hemp. discriminate Hemp.
  - intros items. split; [| split].
    + unfold UnmarshalJSON, pair_list. cbn. now rewrite into_pair_objects.
    + apply Hlook.
    + intros Hnd k vs Hl. rewrite Hlook in Hl.
      destruct (String.eqb k ""); [discriminate Hl |].
      pose proof (values_of_NoDup items k Hnd) as Hlen.
      destruct (values_of k items) as [| s [| s' rest]]; [discriminate Hl | |].
      * inversion Hl. now exists s.
      * simpl in Hlen. lia.
  - apply Marshal_Unmarshal.
Qed.

Lemma C5_header_decoding_witness :
  UnmarshalJSON (Some (JSON.Object [("Accept", JSON.Array [JSON.Str "a"; JSON.Str "b"])]))
  = Ok (Some {[ "Accept" := Some ["a"; "b"] ]})
  /\ UnmarshalJSON (Some (JSON.Object [("Accept", JSON.Str "a")]))
     = Ok (Some {[ "Accept" := Some ["a"] ]}).
Proof.
  split.
  - apply (proj1 C5_header_decoding). reflexivity.
  - rewrite (proj1 (proj2 C5_header_decoding)
               (JSON.Object [("Accept", JSON.Str "a")]) (Some {[ "Accept" := "a" ]}));
      [vm_compute; reflexivity | reflexivity | reflexivity].
Defined.

Lemma C6_chain_terminates_witness :
  let s := NewTempStore Sample.cycle in
  let a := Sample.request "a" "GET" "https://a.example/" "https://b.example/" None 1 in
  exists links n,
    cmd.chain_loop 3 s ∅ (Some a) [] = Some (links, n) /\ (n <= 3)%nat.
Proof.
  intros s a.
  destruct (proj1 (C6_chain_terminates s a)) as (links & n & Hfuel & Hn & Hsize & _).
  assert (Hlen : length (Store.Requests s) = 2%nat) by reflexivity.
  exists links, n. split.
  - apply Hfuel. lia.
  - lia.
Defined.

(** * Further properties of the store *)

(** ** The ignore and primary sets *)

Lemma mark_fold_index (l : list string) :
  forall (m : gmap string bool) (c : Z) (d : string),
    index (fst (fold_left mark l (m, c))) d = index m d || bool_decide (d ∈ l).
Proof.
  induction l as [| x l IH]; intros m c d.
  - cbn [fold_left fst].
    destruct (bool_decide_reflect (d ∈ @nil string)) as [Hin | _];
      [now apply not_elem_of_nil in Hin | now rewrite orb_false_r].
  - cbn [fold_left]. unfold mark at 2. cbn [fst snd].
    destruct (index m x) eqn:Hx; cbn [negb].
    + rewrite IH. destruct (decide (d = x)) as [-> | Hne].
      * rewrite Hx. reflexivity.
      * f_equal. apply bool_decide_ext. rewrite elem_of_cons. tauto.
    + rewrite IH. destruct (decide (d = x)) as [-> | Hne].
      * unfold index at 1. rewrite lookup_insert_eq. cbn.
        rewrite (bool_decide_eq_true_2 (x ∈ x :: l)) by apply list_elem_of_here.
        now rewrite orb_true_r.
      * unfold index at 1. rewrite lookup_insert_ne by congruence.
        fold (index m d). f_equal. apply bool_decide_ext. rewrite elem_of_cons. tauto.
Qed.

Lemma mark_fold_count (l : list string) :
  forall (m : gmap string bool) (c : Z),
    snd (fold_left mark l (m, c))
    = c + Z.of_nat (size (list_to_set (List.filter (fun d => negb (index m d)) l)
                          : gset string)).
Proof.
  induction l as [| x l IH]; intros m c.
  - cbn [fold_left List.filter snd]. rewrite list_to_set_nil, size_empty. lia.
  - cbn [fold_left List.filter]. unfold mark at 2. cbn [fst snd].
    destruct (index m x) eqn:Hx; cbn [negb]; [apply IH |].
    rewrite IH, list_to_set_cons, size_union_alt, size_singleton.
    assert (Hset : (list_to_set
                      (List.filter (fun d => negb (index (<[x := true]> m) d)) l)
                    : gset string)
                   = list_to_set (List.filter (fun d => negb (index m d)) l) ∖ {[x]}).
    { apply set_eq. intros d.
      rewrite elem_of_difference, !elem_of_list_to_set, !list_elem_of_In, !filter_In,
        not_elem_of_singleton.
      unfold index. destruct (decide (d = x)) as [-> | Hne].
      - rewrite lookup_insert_eq. cbn. split; [intros [_ Hf]; discriminate Hf | tauto].
      - rewrite lookup_insert_ne by congruence. tauto. }
    rewrite Hset. lia.
Qed.

Lemma mark_fold_fixed (l : list string) (m : gmap string bool) (c : Z) :
  (forall d, d ∈ l -> index m d = true) -> fold_left mark l (m, c) = (m, c).
Proof.
  induction l as [| x l IH]; intros Hall; [reflexivity |].
  cbn [fold_left]. unfold mark at 2. cbn [fst].
  rewrite (Hall x) by apply list_elem_of_here. cbn [negb].
  apply IH. intros d Hd. apply Hall. now apply list_elem_of_further.
Qed.

Lemma unmark_fold_index (l : list string) :
  forall (m : gmap string bool) (c : Z) (d : string),
    index (fst (fold_left unmark l (m, c))) d = index m d && negb (bool_decide (d ∈ l)).
Proof.
  induction l as [| x l IH]; intros m c d.
  - cbn [fold_left fst].
    destruct (bool_decide_reflect (d ∈ @nil string)) as [Hin | _];
      [now apply not_elem_of_nil in Hin | now rewrite andb_true_r].
  - cbn [fold_left]. unfold unmark at 2. cbn [fst snd].
    destruct (index m x) eqn:Hx.
    + rewrite IH. destruct (decide (d = x)) as [-> | Hne].
      * unfold index at 1. rewrite lookup_delete_eq. cbn.
        rewrite (bool_decide_eq_true_2 (x ∈ x :: l)) by apply list_elem_of_here.
        now rewrite andb_false_r.
      * unfold index at 1. rewrite lookup_delete_ne by congruence.
        fold (index m d). do 2 f_equal. apply bool_decide_ext. rewrite elem_of_cons. tauto.
    + rewrite IH. destruct (decide (d = x)) as [-> | Hne].
      * rewrite Hx. reflexivity.
      * do 2 f_equal. apply bool_decide_ext. rewrite elem_of_cons. tauto.
Qed.

Lemma unmark_fold_count (l : list string) :
  forall (m : gmap string bool) (c : Z),
    snd (fold_left unmark l (m, c))
    = c + Z.of_nat (size (list_to_set (List.filter (index m) l) : gset string)).
Proof.
  induction l as [| x l IH]; intros m c.
  - cbn [fold_left List.filter snd]. rewrite list_to_set_nil, size_empty. lia.
  - cbn [fold_left List.filter]. unfold unmark at 2. cbn [fst snd].
    destruct (index m x) eqn:Hx; [| apply IH].
    rewrite IH, list_to_set_cons, size_union_alt, size_singleton.
    assert (Hset : (list_to_set (List.filter (index (delete x m)) l) : gset string)
                   = list_to_set (List.filter (index m) l) ∖ {[x]}).
    { apply set_eq. intros d.
      rewrite elem_of_difference, !elem_of_list_to_set, !list_elem_of_In, !filter_In,
        not_elem_of_singleton.
      unfold index. destruct (decide (d = x)) as [-> | Hne].
      - rewrite lookup_delete_eq. cbn. split; [intros [_ Hf]; discriminate Hf | tauto].
      - rewrite lookup_delete_ne by congruence. tauto. }
    rewrite Hset. lia.
Qed.

(** X1. [Ignore] makes exactly the listed domains ignored on top of those
    that were; it returns the number of distinct listed domains that were not
    ignored before; it leaves sessions and primary domains alone; and
    ignoring the same domains again returns 0 and changes nothing. *)
Theorem Ignore_adds (s : Store.t) (domains : list string) :
  (forall d, IsIgnored (snd (Ignore s domains)) d
             = IsIgnored s d || bool_decide (d ∈ domains))
  /\ fst (Ignore s domains)
     = Z.of_nat (size (list_to_set (List.filter (fun d => negb (IsIgnored s d)) domains)
                       : gset string))
  /\ Ignore (snd (Ignore s domains)) domains = (0, snd (Ignore s domains))
  /\ Store.PrimaryDomains (snd (Ignore s domains)) = Store.PrimaryDomains s
  /\ Store.Sessions (snd (Ignore s domains)) = Store.Sessions s.
Proof.
  split; [| split; [| split; [| split]]]; try reflexivity.
  - intros d. apply mark_fold_index.
  - unfold Ignore. cbn [fst]. now rewrite mark_fold_count.
  - unfold Ignore. cbn [snd Store.IgnoredDomains with_ignored].
    rewrite (mark_fold_fixed domains (fst (fold_left mark domains (Store.IgnoredDomains s, 0))) 0).
    + reflexivity.
    + intros d Hd. rewrite mark_fold_index, (bool_decide_eq_true_2 _ Hd).
      apply orb_true_r.
Qed.

(** X2. [Unignore] leaves ignored exactly the domains that were ignored and
    are not listed, and returns the number of distinct listed domains that
    were ignored; un-ignoring what was just ignored gives back the ignored
    domains of before, less the listed ones. *)
Theorem Unignore_removes (s : Store.t) (domains : list string) :
  (forall d, IsIgnored (snd (Unignore s domains)) d
             = IsIgnored s d && negb (bool_decide (d ∈ domains)))
  /\ fst (Unignore s domains)
     = Z.of_nat (size (list_to_set (List.filter (IsIgnored s) domains) : gset string))
  /\ (forall d, IsIgnored (snd (Unignore (snd (Ignore s domains)) domains)) d
                = IsIgnored s d && negb (bool_decide (d ∈ domains)))
  /\ fst (Unignore (snd (Ignore s domains)) domains)
     = Z.of_nat (size (list_to_set domains : gset string)).
Proof.
  split; [| split; [| split]].
  - intros d. apply unmark_fold_index.
  - unfold Unignore. cbn [fst]. now rewrite unmark_fold_count.
  - intros d. unfold Unignore, Ignore, IsIgnored.
    cbn [snd Store.IgnoredDomains with_ignored].
    rewrite unmark_fold_index, mark_fold_index.
    destruct (index (Store.IgnoredDomains s) d), (bool_decide (d ∈ domains)); reflexivity.
  - unfold Unignore, Ignore. cbn [fst snd Store.IgnoredDomains with_ignored].
    rewrite unmark_fold_count.
    assert (Htrue : forall l : list string, List.filter (fun _ => true) l = l).
    { intros l. induction l as [| x l IH]; [reflexivity |].
      cbn [List.filter]. now rewrite IH. }
    rewrite (filter_ext_in _ (fun _ => true) domains), Htrue; [lia |].
    intros d Hd. rewrite mark_fold_index.
    rewrite (bool_decide_eq_true_2 (d ∈ domains)) by now apply list_elem_of_In.
    apply orb_true_r.
Qed.


Lemma mark_fold_true (l : list string) :
  forall (m : gmap string bool) (c : Z),
    (forall d b, m !! d = Some b -> b = true) ->
    forall d b, fst (fold_left mark l (m, c)) !! d = Some b -> b = true.
Proof.
  induction l as [| x l IH]; intros m c Hm d b; [apply Hm |].
  cbn [fold_left]. unfold mark at 2. cbn [fst snd].
  destruct (negb (index m x)); [| now apply IH].
  apply IH. intros d' b' Hl. destruct (decide (x = d')) as [-> | Hne].
  - rewrite lookup_insert_eq in Hl. congruence.
  - rewrite lookup_insert_ne in Hl by assumption. now apply (Hm d').
Qed.

Lemma unmark_fold_true (l : list string) :
  forall (m : gmap string bool) (c : Z),
    (forall d b, m !! d = Some b -> b = true) ->
    forall d b, fst (fold_left unmark l (m, c)) !! d = Some b -> b = true.
Proof.
  induction l as [| x l IH]; intros m c Hm d b; [apply Hm |].
  cbn [fold_left]. unfold unmark at 2. cbn [fst snd].
  destruct (index m x); [| now apply IH].
  apply IH. intros d' b' Hl. destruct (decide (x = d')) as [-> | Hne].
  - rewrite lookup_delete_eq in Hl. discriminate Hl.
  - rewrite lookup_delete_ne in Hl by assumption. now apply (Hm d').
Qed.

Lemma string_le_total : Total string_le.
Proof. intros a b. apply String.leb_total. Qed.

Lemma sorted_keys (m : gmap string bool) :
  let keys := merge_sort string_le (map_to_list m).*1 in
  Sorted string_le keys /\ NoDup keys /\ forall d, d ∈ keys <-> is_Some (m !! d).
Proof.
  intros keys. split; [| split].
  - apply Sorted_merge_sort, string_le_total.
  - unfold keys. rewrite merge_sort_Permutation. apply NoDup_fst_map_to_list.
  - intros d. unfold keys. rewrite merge_sort_Permutation, list_elem_of_fmap. split.
    + intros ([k b] & -> & Hin). apply elem_of_map_to_list in Hin. eauto.
    + intros [b Hb]. exists (d, b). split; [reflexivity |]. now apply elem_of_map_to_list.
Qed.

(** X4. [GetIgnoredDomains] lists every key of the ignore map once, in
    ascending byte order, whatever value the key holds.  In a store whose
    ignore map holds only [true], as [NewStore] and every [Ignore] and
    [Unignore] on such a store give, that is exactly the ignored domains. *)
Theorem GetIgnoredDomains_sorted (s : Store.t) :
  Sorted string_le (GetIgnoredDomains s)
  /\ NoDup (GetIgnoredDomains s)
  /\ (forall d, d ∈ GetIgnoredDomains s <-> is_Some (Store.IgnoredDomains s !! d))
  /\ ((forall d b, Store.IgnoredDomains s !! d = Some b -> b = true) ->
      (forall d, d ∈ GetIgnoredDomains s <-> IsIgnored s d = true)
      /\ (forall domains d,
            d ∈ GetIgnoredDomains (snd (Ignore s domains))
            <-> IsIgnored s d = true \/ d ∈ domains)
      /\ (forall domains d,
            d ∈ GetIgnoredDomains (snd (Unignore s domains))
            <-> IsIgnored s d = true /\ d ∉ domains)).
Proof.
  destruct (sorted_keys (Store.IgnoredDomains s)) as (Hsort & Hnd & Hin).
  split; [exact Hsort |]. split; [exact Hnd |]. split; [exact Hin |].
  assert (Htrue : forall s' : Store.t,
             (forall d b, Store.IgnoredDomains s' !! d = Some b -> b = true) ->
             forall d, d ∈ GetIgnoredDomains s' <-> IsIgnored s' d = true).
  { intros s' Hall d.
    rewrite (proj2 (proj2 (sorted_keys (Store.IgnoredDomains s'))) d).
    unfold IsIgnored, index.
    destruct (Store.IgnoredDomains s' !! d) as [b |] eqn:Hd; cbn.
    - rewrite (Hall d b Hd). split; eauto.
    - split; [intros [b Hb]; discriminate Hb | discriminate]. }
  intros Hall. split; [now apply Htrue |]. split.
  - intros domains d. rewrite Htrue.
    + unfold IsIgnored at 1, Ignore. cbn [snd Store.IgnoredDomains with_ignored].
      rewrite mark_fold_index, orb_true_iff, bool_decide_eq_true. tauto.
    + apply mark_fold_true, Hall.
  - intros domains d. rewrite Htrue.
    + unfold IsIgnored at 1, Unignore. cbn [snd Store.IgnoredDomains with_ignored].
      rewrite unmark_fold_index, andb_true_iff, negb_true_iff, bool_decide_eq_false.
      tauto.
    + apply unmark_fold_true, Hall.
Qed.

Lemma GetIgnoredDomains_sorted_witness :
  "a.example" ∈ GetIgnoredDomains (snd (Ignore NewStore ["b.example"; "a.example"])).
Proof.
  assert (Hnew : forall d b, Store.IgnoredDomains NewStore !! d = Some b -> b = true).
  { intros d b Hl. cbn [NewStore Store.IgnoredDomains] in Hl.
    rewrite lookup_empty in Hl. discriminate Hl. }
  apply (proj1 (proj2 (proj2 (proj2 (proj2 (GetIgnoredDomains_sorted NewStore))) Hnew))).
  right. apply list_elem_of_further, list_elem_of_here.
Defined.

(** ** Sessions *)

Lemma prefix_refl (a : string) : String.prefix a a = true.
Proof.
  induction a as [| c a IH]; [reflexivity |].
  simpl. destruct (ascii_dec c c); [exact IH | contradiction].
Qed.

Lemma find_app {A} (f : A -> bool) (l l' : list A) :
  find f (l ++ l') = match find f l with Some y => Some y | None => find f l' end.
Proof.
  induction l as [| x l IH]; [reflexivity |].
  cbn [app find]. destruct (f x); [reflexivity | exact IH].
Qed.

Lemma find_is_Some {A} (f : A -> bool) (l : list A) (x : A) :
  In x l -> f x = true -> exists y, find f l = Some y /\ f y = true.
Proof.
  intros Hin Hf. destruct (find f l) as [y |] eqn:Hfind.
  - exists y. split; [reflexivity |]. now apply find_some in Hfind.
  - rewrite (find_none _ _ Hfind x Hin) in Hf. discriminate Hf.
Qed.

(** X5. [GetSession] returns a stored session whose ID starts with the given
    text, and nothing exactly when no stored ID starts with it; when some
    session has exactly that ID, the session returned has it too, even if an
    earlier session's ID merely starts with the text. *)
Theorem GetSession_lookup (s : Store.t) (id : string) :
  (forall sess, GetSession s id = Some sess ->
     In sess (Store.Sessions s) /\ GoString.HasPrefix (Session.ID sess) id = true)
  /\ (GetSession s id = None <->
      forall sess, In sess (Store.Sessions s) ->
                   GoString.HasPrefix (Session.ID sess) id = false)
  /\ ((exists sess, In sess (Store.Sessions s) /\ Session.ID sess = id) ->
      exists found, GetSession s id = Some found /\ Session.ID found = id).
Proof.
  unfold GetSession. split; [| split].
  - intros sess Hget.
    destruct (find (fun x => String.eqb (Session.ID x) id) (Store.Sessions s))
      as [exact |] eqn:Hexact.
    + inversion Hget; subst exact. apply find_some in Hexact as [Hin Heq].
      split; [exact Hin |]. apply String.eqb_eq in Heq. rewrite Heq. apply prefix_refl.
    + now apply find_some in Hget.
  - split.
    + intros Hnone sess Hin.
      destruct (find (fun x => String.eqb (Session.ID x) id) (Store.Sessions s));
        [discriminate Hnone |].
      exact (find_none _ _ Hnone sess Hin).
    + intros Hall.
      destruct (find (fun x => String.eqb (Session.ID x) id) (Store.Sessions s))
        as [exact |] eqn:Hexact.
      * apply find_some in Hexact as [Hin Heq]. apply String.eqb_eq in Heq.
        specialize (Hall exact Hin). unfold GoString.HasPrefix in Hall.
        rewrite Heq, prefix_refl in Hall. discriminate Hall.
      * destruct (find (fun x => GoString.HasPrefix (Session.ID x) id) (Store.Sessions s))
          as [y |] eqn:Hp; [| reflexivity].
        apply find_some in Hp as [Hin Hy]. rewrite (Hall y Hin) in Hy. discriminate Hy.
  - intros (sess & Hin & Hid).
    destruct (find_is_Some (fun x => String.eqb (Session.ID x) id) _ sess Hin)
      as (found & Hfind & Heq); [now apply String.eqb_eq |].
    rewrite Hfind. exists found. split; [reflexivity | now apply String.eqb_eq].
Qed.

Lemma GetSession_lookup_witness :
  let s := fst (AddSession (fst (AddSession NewStore "20250101-000000-login" "" [] 1))
                  "20250101" "" [] 2) in
  exists found, GetSession s "20250101" = Some found /\ Session.ID found = "20250101".
Proof.
  intros s. apply (proj2 (proj2 (GetSession_lookup s "20250101"))).
  exists {| Session.ID := "20250101"; Session.Timestamp := 2; Session.Note := "";
            Session.Requests := [] |}.
  split; [right; left; reflexivity | reflexivity].
Defined.

Section Sessions.
Context `{url.Parser}.

(** X6. After [AddSession] the new session is the latest one and the first
    of [ListSessions], the session count has grown by one, the earlier
    sessions and both domain sets are as before, the requests of the session
    carry their derived fields, and [GetSession] finds the session by its ID
    unless an earlier session already has that ID. *)
Theorem AddSession_latest (s : Store.t) (id note : string) (requests : list Request.t)
    (now : Z) :
  let s' := fst (AddSession s id note requests now) in
  let session := snd (AddSession s id note requests now) in
  GetLatestSession s' = Some session
  /\ ListSessions s' = session :: ListSessions s
  /\ SessionCount s' = SessionCount s + 1
  /\ Session.ID session = id
  /\ Session.Requests session = ComputeRequestFields <$> requests
  /\ Store.IgnoredDomains s' = Store.IgnoredDomains s
  /\ Store.PrimaryDomains s' = Store.PrimaryDomains s
  /\ ((forall sess, In sess (Store.Sessions s) -> Session.ID sess <> id) ->
      GetSession s' id = Some session).
Proof.
  intros s' session. unfold s', session, AddSession. cbn [fst snd].
  split; [| split; [| split; [| split; [| split; [| split; [| split]]]]]];
    try reflexivity.
  - unfold GetLatestSession. cbn [Store.Sessions]. apply last_snoc.
  - unfold ListSessions. cbn [Store.Sessions]. now rewrite rev_app_distr.
  - unfold SessionCount. cbn [Store.Sessions]. rewrite length_app. cbn [length]. lia.
  - intros Hfresh. unfold GetSession. cbn [Store.Sessions]. rewrite find_app.
    destruct (find (fun x => String.eqb (Session.ID x) id) (Store.Sessions s))
      as [y |] eqn:Hfind.
    + apply find_some in Hfind as [Hin Heq]. apply String.eqb_eq in Heq.
      now destruct (Hfresh y Hin).
    + cbn [find Session.ID]. now rewrite String.eqb_refl.
Qed.

End Sessions.

Lemma AddSession_latest_witness :
  GetSession (fst (AddSession NewStore "20250101-000000" "" Sample.traffic 5))
    "20250101-000000"
  = Some (snd (AddSession NewStore "20250101-000000" "" Sample.traffic 5)).
Proof.
  apply (proj2 (proj2 (proj2 (proj2 (proj2 (proj2 (proj2
           (AddSession_latest NewStore "20250101-000000" "" Sample.traffic 5)))))))).
  intros sess Hin. destruct Hin.
Defined.

(** ** Session identifiers *)





Section SessionIDs.
Context `{GoString.Unicode}.


End SessionIDs.

Example GenerateSessionID_sample :
  GenerateSessionID (H := Sample.ascii_strings) "20250101-000000" "Auth Flow!! -- "
  = "20250101-000000-auth-flow".
Proof. vm_compute. reflexivity. Qed.

(** ** Base domains *)









(** ** Header lookup *)

Section HeaderLookup.
Context {strings : GoString.Unicode}.

Lemma range_of_lookup (headers : HeaderMap) entries key values :
  range_of headers entries ->
  In (key, values) entries <-> default ∅ headers !! key = Some values.
Proof.
  intros Hrange. rewrite <- list_elem_of_In, Hrange. apply elem_of_map_to_list.
Qed.

(** X9. Whatever order [range] visits the header map in: when no key
    equals the name under case folding, the lookups return the empty key, the
    nil slice and the empty string; when some key does, they return a key of
    the map that equals the name under case folding, with its values; and
    when exactly one key does, they return that key, its values, and the
    first of them (the empty string when there is none). *)
Theorem HeaderValues_lookup (headers : HeaderMap)
    (entries : list (string * option (list string))) (name : string) :
  range_of headers entries ->
  ((forall key values, default ∅ headers !! key = Some values ->
                       GoString.EqualFold key name = false) ->
   HeaderValuesWithKey entries name = ("", None)
   /\ HeaderValues entries name = None
   /\ HeaderFirst entries name = "")
  /\ (forall key values,
        default ∅ headers !! key = Some values ->
        GoString.EqualFold key name = true ->
        exists key' values',
          default ∅ headers !! key' = Some values'
          /\ GoString.EqualFold key' name = true
          /\ HeaderValuesWithKey entries name = (key', values')
          /\ HeaderValues entries name = values')
  /\ (forall key values,
        default ∅ headers !! key = Some values ->
        GoString.EqualFold key name = true ->
        (forall key', is_Some (default ∅ headers !! key') ->
                      GoString.EqualFold key' name = true -> key' = key) ->
        HeaderValuesWithKey entries name = (key, values)
        /\ HeaderValues entries name = values
        /\ HeaderFirst entries name
           = match values with Some (value :: _) => value | _ => "" end).
Proof.
  intros Hrange.
  assert (Hsome : forall key values,
             default ∅ headers !! key = Some values ->
             GoString.EqualFold key name = true ->
             exists key' values',
               find (fun kv => GoString.EqualFold kv.1 name) entries = Some (key', values')
               /\ default ∅ headers !! key' = Some values'
               /\ GoString.EqualFold key' name = true).
  { intros key values Hkey Hfold.
    destruct (find_is_Some (fun kv => GoString.EqualFold kv.1 name) entries (key, values))
      as ([key' values'] & Hfind & Hy).
    - now apply (range_of_lookup headers).
    - exact Hfold.
    - exists key', values'. split; [exact Hfind |]. split; [| exact Hy].
      apply find_some in Hfind as [Hin _]. now apply (range_of_lookup headers entries). }
  split; [| split].
  - intros Hnone.
    assert (Hfind : find (fun kv => GoString.EqualFold kv.1 name) entries = None).
    { destruct (find (fun kv => GoString.EqualFold kv.1 name) entries)
        as [[key values] |] eqn:Hfind; [| reflexivity].
      apply find_some in Hfind as [Hin Hfold]. cbn in Hfold.
      apply (range_of_lookup headers entries) in Hin; [| exact Hrange].
      rewrite (Hnone key values Hin) in Hfold. discriminate Hfold. }
    unfold HeaderFirst, HeaderValues, HeaderValuesWithKey. now rewrite Hfind.
  - intros key values Hkey Hfold.
    destruct (Hsome key values Hkey Hfold) as (key' & values' & Hfind & Hkey' & Hfold').
    exists key', values'. unfold HeaderValues, HeaderValuesWithKey. now rewrite Hfind.
  - intros key values Hkey Hfold Honly.
    destruct (Hsome key values Hkey Hfold) as (key' & values' & Hfind & Hkey' & Hfold').
    assert (key' = key) by (apply Honly; [now exists values' | exact Hfold']). subst key'.
    assert (values' = values) by congruence. subst values'.
    unfold HeaderFirst, HeaderValues, HeaderValuesWithKey. now rewrite Hfind.
Qed.

End HeaderLookup.

Lemma HeaderValues_lookup_witness :
  HeaderFirst (H := Sample.ascii_strings)
    [("Content-Type", Some ["text/html"])] "content-type" = "text/html".
Proof.
  pose (headers := Some ({[ "Content-Type" := Some ["text/html"] ]}
                         : gmap string (option (list string)))).
  assert (Hrange : range_of headers [("Content-Type", Some ["text/html"])]).
  { unfold range_of, headers. cbn [default from_option id]. now rewrite map_to_list_singleton. }
  assert (Hkey : default ∅ headers !! "Content-Type" = Some (Some ["text/html"])).
  { unfold headers. cbn [default from_option id]. apply lookup_singleton_eq. }
  assert (Hfold : GoString.EqualFold (Unicode := Sample.ascii_strings)
                    "Content-Type" "content-type" = true) by (vm_compute; reflexivity).
  assert (Honly : forall key', is_Some (default ∅ headers !! key') ->
                    GoString.EqualFold (Unicode := Sample.ascii_strings)
                      key' "content-type" = true -> key' = "Content-Type").
  { intros key' [values Hsome] _. unfold headers in Hsome. cbn [default from_option id] in Hsome.
    apply lookup_singleton_Some in Hsome as [Heq _]. now symmetry. }
  exact (proj2 (proj2 (proj2 (proj2
           (HeaderValues_lookup (strings := Sample.ascii_strings) headers _ "content-type"
              Hrange)) "Content-Type" _ Hkey Hfold Honly))).
Defined.

(** * Further properties of the native messaging host *)

Section LiveHost.
Context {codec : JSON.Codec host.LiveData.t}.

Lemma save_rest (now : string) (st : host.State.t) :
  let st' := snd (host.saveLiveDataUnlocked now st) in
  host.LiveData.ExportedAt (host.State.liveData st') = now
  /\ host.LiveData.Version (host.State.liveData st')
     = host.LiveData.Version (host.State.liveData st)
  /\ host.State.writable st' = host.State.writable st
  /\ host.State.stderr st' = host.State.stderr st
  /\ host.State.files st'
     = match JSON.MarshalIndent (host.State.liveData st') with
       | Ok content =>
           if host.State.writable st
           then <[host.State.dataPath st := content]> (host.State.files st)
           else host.State.files st
       | Error _ => host.State.files st
       end.
Proof.
  unfold host.saveLiveDataUnlocked, host.WriteFile.
  destruct (JSON.MarshalIndent _) as [content | err] eqn:Hm; cbn.
  - destruct (host.State.writable st) eqn:Hw; cbn; rewrite Hm; auto.
  - rewrite Hm. auto.
Qed.

Lemma handleMessage_sync (now : string) (st : host.State.t) (msg : host.Message.t)
    (requests : list host.Request.t) :
  host.Message.Action msg = "sync" ->
  host.Message.Requests msg = Some requests ->
  host.LiveData.Requests (host.State.liveData (snd (host.handleMessage now st msg)))
  = (if host.MaxLiveRequests <? Z.of_nat (length requests)
     then skipn (Z.to_nat (Z.of_nat (length requests) - host.MaxLiveRequests)) requests
     else requests).
Proof.
  intros Hact Hreq. unfold host.handleMessage. rewrite Hact, Hreq.
  cbn [String.eqb Ascii.eqb Bool.eqb snd].
  now rewrite (proj1 (save_liveData now _)).
Qed.

(** X10. A [sync] replaces the buffer by the newest 10000 of the requests
    sent (all of them when there are no more than that), in their order,
    whatever the buffer held; the reply counts the requests kept, and the
    session ID of the buffer stays. *)
Theorem sync_keeps_newest (now : string) (st : host.State.t) (msg : host.Message.t)
    (requests : list host.Request.t) :
  host.Message.Action msg = "sync" ->
  host.Message.Requests msg = Some requests ->
  let st' := snd (host.handleMessage now st msg) in
  let kept := host.LiveData.Requests (host.State.liveData st') in
  (exists dropped,
     requests = (dropped ++ kept)%list
     /\ Z.of_nat (length dropped)
        = Z.max 0 (Z.of_nat (length requests) - host.MaxLiveRequests))
  /\ Z.of_nat (length kept) = Z.min (Z.of_nat (length requests)) host.MaxLiveRequests
  /\ fst (host.handleMessage now st msg) !! "count" = Some (host.Int (Z.of_nat (length kept)))
  /\ host.LiveData.SessionID (host.State.liveData st')
     = host.LiveData.SessionID (host.State.liveData st).
Proof.
  intros Hact Hreq st' kept.
  assert (Hkept : kept = if host.MaxLiveRequests <? Z.of_nat (length requests)
                         then skipn (Z.to_nat (Z.of_nat (length requests)
                                               - host.MaxLiveRequests)) requests
                         else requests)
    by (apply handleMessage_sync; assumption).
  split; [| split; [| split]].
  - exists (firstn (Z.to_nat (Z.of_nat (length requests) - host.MaxLiveRequests)) requests).
    rewrite Hkept. unfold host.MaxLiveRequests.
    destruct (Z.ltb_spec 10000 (Z.of_nat (length requests))) as [Hlt | Hge].
    + rewrite firstn_skipn, length_firstn. split; [reflexivity | lia].
    + replace (Z.to_nat (Z.of_nat (length requests) - 10000)) with O by lia.
      rewrite firstn_O. cbn [app length]. split; [reflexivity | lia].
  - rewrite Hkept. unfold host.MaxLiveRequests.
    destruct (Z.ltb_spec 10000 (Z.of_nat (length requests))) as [Hlt | Hge].
    + rewrite length_skipn. lia.
    + lia.
  - unfold kept, st', host.handleMessage. rewrite Hact, Hreq.
    cbn [String.eqb Ascii.eqb Bool.eqb fst snd].
    rewrite lookup_insert_ne by discriminate. rewrite lookup_insert_ne by discriminate.
    now rewrite lookup_insert_eq.
  - unfold st', host.handleMessage. rewrite Hact, Hreq.
    cbn [String.eqb Ascii.eqb Bool.eqb snd].
    now rewrite (proj1 (proj2 (save_liveData now _))).
Qed.

(** The buffer after any message. *)
Lemma handleMessage_requests (now : string) (st : host.State.t) (msg : host.Message.t) :
  let before := host.LiveData.Requests (host.State.liveData st) in
  host.LiveData.Requests (host.State.liveData (snd (host.handleMessage now st msg)))
  = if String.eqb (host.Message.Action msg) "add" then
      match host.Message.Request msg with
      | Some request =>
          ((if host.MaxLiveRequests <=? Z.of_nat (length before)
            then skipn 1000 before else before) ++ [request])%list
      | None => before
      end
    else if String.eqb (host.Message.Action msg) "sync" then
      match host.Message.Requests msg with
      | Some requests =>
          if host.MaxLiveRequests <? Z.of_nat (length requests)
          then skipn (Z.to_nat (Z.of_nat (length requests) - host.MaxLiveRequests)) requests
          else requests
      | None => before
      end
    else if String.eqb (host.Message.Action msg) "clear" then []
    else before.
Proof.
  intros before. unfold host.handleMessage.
  destruct (String.eqb (host.Message.Action msg) "add").
  { destruct (host.Message.Request msg); [| reflexivity].
    cbn [snd]. rewrite (proj1 (save_liveData now _)). reflexivity. }
  destruct (String.eqb (host.Message.Action msg) "sync").
  { destruct (host.Message.Requests msg); [| reflexivity].
    cbn [snd]. rewrite (proj1 (save_liveData now _)). reflexivity. }
  destruct (String.eqb (host.Message.Action msg) "clear").
  { cbn [snd]. rewrite (proj1 (save_liveData now _)). reflexivity. }
  now destruct (String.eqb (host.Message.Action msg) "ping").
Qed.

(** What no message changes. *)
Lemma handleMessage_fixed (now : string) (st : host.State.t) (msg : host.Message.t) :
  let st' := snd (host.handleMessage now st msg) in
  host.LiveData.SessionID (host.State.liveData st')
  = host.LiveData.SessionID (host.State.liveData st)
  /\ host.LiveData.Version (host.State.liveData st')
     = host.LiveData.Version (host.State.liveData st)
  /\ host.State.dataPath st' = host.State.dataPath st
  /\ host.State.writable st' = host.State.writable st
  /\ host.State.stderr st' = host.State.stderr st.
Proof.
  unfold host.handleMessage.
  repeat match goal with
         | |- context [if String.eqb ?a ?b then _ else _] => destruct (String.eqb a b)
         | |- context [match host.Message.Request msg with _ => _ end] =>
             destruct (host.Message.Request msg)
         | |- context [match host.Message.Requests msg with _ => _ end] =>
             destruct (host.Message.Requests msg)
         end;
    cbn [snd]; try (repeat split; reflexivity);
    match goal with
    | |- context [host.saveLiveDataUnlocked now ?x] =>
        destruct (save_liveData now x) as (_ & Hs & Hp);
        destruct (save_rest now x) as (_ & Hv & Hw & He & _);
        cbn zeta in Hv, Hw, He; rewrite Hs, Hp, Hv, Hw, He
    end; repeat split; reflexivity.
Qed.

Lemma handleMessage_bound (now : string) (st : host.State.t) (msg : host.Message.t) :
  Z.of_nat (length (host.LiveData.Requests
                      (host.State.liveData (snd (host.handleMessage now st msg)))))
  <= Z.max (Z.of_nat (length (host.LiveData.Requests (host.State.liveData st))))
       host.MaxLiveRequests.
Proof.
  rewrite handleMessage_requests. unfold host.MaxLiveRequests.
  destruct (String.eqb (host.Message.Action msg) "add").
  { destruct (host.Message.Request msg); [| lia].
    rewrite length_app. cbn [length].
    destruct (Z.leb_spec 10000
                (Z.of_nat (length (host.LiveData.Requests (host.State.liveData st)))));
      [rewrite length_skipn |]; lia. }
  destruct (String.eqb (host.Message.Action msg) "sync").
  { destruct (host.Message.Requests msg) as [requests |]; [| lia].
    destruct (Z.ltb_spec 10000 (Z.of_nat (length requests)));
      [rewrite length_skipn |]; lia. }
  destruct (String.eqb (host.Message.Action msg) "clear"); cbn [length]; lia.
Qed.

Lemma turns (inputs : list host.input) :
  forall (st : host.State.t) (replies : list (gmap string host.any)),
    let after := fold_left host.turn inputs (st, replies) in
    Z.of_nat (length (host.LiveData.Requests (host.State.liveData (fst after))))
    <= Z.max (Z.of_nat (length (host.LiveData.Requests (host.State.liveData st))))
         host.MaxLiveRequests
    /\ host.LiveData.SessionID (host.State.liveData (fst after))
       = host.LiveData.SessionID (host.State.liveData st)
    /\ host.LiveData.Version (host.State.liveData (fst after))
       = host.LiveData.Version (host.State.liveData st)
    /\ host.State.dataPath (fst after) = host.State.dataPath st
    /\ host.State.writable (fst after) = host.State.writable st
    /\ host.State.stderr (fst after) = host.State.stderr st
    /\ length (snd after)
       = (length replies + length (List.filter host.received inputs))%nat.
Proof.
  induction inputs as [| i inputs IH]; intros st replies.
  - cbn. repeat split; lia.
  - destruct i as [now msg |].
    + pose proof (handleMessage_bound now st msg) as Hb'.
      destruct (handleMessage_fixed now st msg) as (Hs' & Hv' & Hp' & Hw' & He').
      assert (Hturn : host.turn (st, replies) (host.Received now msg)
                      = (snd (host.handleMessage now st msg),
                         (replies ++ [fst (host.handleMessage now st msg)])%list)).
      { cbn [host.turn fst snd]. now destruct (host.handleMessage now st msg). }
      cbn [fold_left]. rewrite Hturn.
      destruct (IH (snd (host.handleMessage now st msg))
                  (replies ++ [fst (host.handleMessage now st msg)])%list)
        as (Hb & Hs & Hv & Hp & Hw & He & Hr).
      cbn zeta. rewrite Hs, Hv, Hp, Hw, He, Hr, length_app.
      cbn [List.filter host.received length].
      repeat split; try assumption; lia.
    + cbn [fold_left host.turn List.filter host.received]. apply IH.
Qed.

(** X11. Whatever the extension sends before it disconnects, the buffer
    never grows beyond the larger of its initial size and 10000 requests,
    every message read is answered by exactly one reply and an unreadable
    one by none, and no message (not even [clear]) changes the session ID or
    the data path; only the disconnect, unless the snapshot is kept, empties
    the buffer and resets the session ID. *)
Theorem serve_bounded (keep : bool) (inputs : list host.input) (eof : string)
    (st : host.State.t) :
  let st' := fst (host.serve keep inputs eof st) in
  let replies := snd (host.serve keep inputs eof st) in
  Z.of_nat (length (host.LiveData.Requests (host.State.liveData st')))
  <= Z.max (Z.of_nat (length (host.LiveData.Requests (host.State.liveData st))))
       host.MaxLiveRequests
  /\ length replies = length (List.filter host.received inputs)
  /\ host.State.dataPath st' = host.State.dataPath st
  /\ host.LiveData.SessionID (host.State.liveData st')
     = (if keep then host.LiveData.SessionID (host.State.liveData st) else "")
  /\ (if keep then True else host.LiveData.Requests (host.State.liveData st') = []).
Proof.
  unfold host.serve.
  destruct (turns inputs st []) as (Hb & Hs & _ & Hp & _ & _ & Hr).
  destruct (fold_left host.turn inputs (st, [])) as [st1 replies] eqn:Hfold.
  cbn [fst snd] in *. destruct keep.
  - repeat split; assumption.
  - assert (Hclear : host.State.liveData (host.clearLiveData eof st1)
                     = {| host.LiveData.Version := host.LiveData.Version (host.State.liveData st1);
                          host.LiveData.ExportedAt := eof;
                          host.LiveData.SessionID := "";
                          host.LiveData.Requests := [] |}
                     /\ host.State.dataPath (host.clearLiveData eof st1)
                        = host.State.dataPath st1).
    { unfold host.clearLiveData, host.WriteFile.
      destruct (JSON.MarshalIndent _); cbn; [| auto].
      destruct (host.State.writable st1); cbn; auto. }
    destruct Hclear as [Hd Hpath]. rewrite Hd, Hpath. cbn.
    repeat split; try assumption. unfold host.MaxLiveRequests. lia.
Qed.


(** X13. A message is refused with the [unknown action] reply, and leaves
    the state exactly as it was, when its action is none of [add], [sync],
    [clear] and [ping], when it is [add] without a request, and when it is
    [sync] without a request list; every other message is answered with
    success. *)
Theorem handleMessage_refuses (now : string) (st : host.State.t) (msg : host.Message.t) :
  let refused :=
    (host.Message.Action msg = "add" /\ host.Message.Request msg = None)
    \/ (host.Message.Action msg = "sync" /\ host.Message.Requests msg = None)
    \/ (host.Message.Action msg <> "add" /\ host.Message.Action msg <> "sync"
        /\ host.Message.Action msg <> "clear" /\ host.Message.Action msg <> "ping") in
  (refused -> host.handleMessage now st msg = (host.unknown_action, st))
  /\ (~ refused -> fst (host.handleMessage now st msg) !! "success" = Some (host.Bool true)).
Proof.
  intros refused. unfold refused, host.handleMessage.
  destruct (String.eqb_spec (host.Message.Action msg) "add") as [Hadd | Hadd].
  { destruct (host.Message.Request msg) as [request |].
    - split.
      + intros [[_ Hn] | [[Hs _] | (Hn & _)]]; congruence.
      + intros _. cbn [fst]. now rewrite lookup_insert_eq.
    - split; [reflexivity |]. intros Hnot. destruct Hnot. left. now split. }
  destruct (String.eqb_spec (host.Message.Action msg) "sync") as [Hsync | Hsync].
  { destruct (host.Message.Requests msg) as [requests |].
    - split.
      + intros [[Ha _] | [[_ Hn] | (_ & Hn & _)]]; congruence.
      + intros _. cbn [fst]. now rewrite lookup_insert_eq.
    - split; [reflexivity |]. intros Hnot. destruct Hnot. right. left. now split. }
  destruct (String.eqb_spec (host.Message.Action msg) "clear") as [Hclear | Hclear].
  { split.
    - intros [[Ha _] | [[Hs _] | (_ & _ & Hn & _)]]; congruence.
    - intros _. cbn [fst]. now rewrite lookup_insert_eq. }
  destruct (String.eqb_spec (host.Message.Action msg) "ping") as [Hping | Hping].
  { split.
    - intros [[Ha _] | [[Hs _] | (_ & _ & _ & Hn)]]; congruence.
    - intros _. cbn [fst]. now rewrite lookup_insert_eq. }
  split; [reflexivity |]. intros Hnot. destruct Hnot. right. right. now repeat split.
Qed.

(** X14. When the extension disconnects and the snapshot is not kept, on a
    disk that takes the write, the file at the data path holds the encoding
    of an empty snapshot without session ID, whatever was received before;
    the next start of the host, reading back what was written, begins with an
    empty buffer under the newly generated session ID. *)
Theorem restart_after_disconnect (inputs : list host.input) (eof session : string)
    (st : host.State.t) (content : string) (loaded : host.LiveData.t) :
  let cleared :=
    {| host.LiveData.Version := host.LiveData.Version (host.State.liveData st);
       host.LiveData.ExportedAt := eof; host.LiveData.SessionID := "";
       host.LiveData.Requests := [] |} in
  let st' := fst (host.serve false inputs eof st) in
  host.State.writable st = true ->
  JSON.MarshalIndent cleared = Ok content ->
  JSON.Unmarshal content host.fresh = Ok loaded ->
  host.LiveData.SessionID loaded = "" ->
  host.LiveData.Requests loaded = [] ->
  host.State.liveData st' = cleared
  /\ host.State.files st' !! host.State.dataPath st' = Some content
  /\ host.State.stderr st' = host.State.stderr st
  /\ host.LiveData.SessionID (host.State.liveData (host.start session st')) = session
  /\ host.LiveData.Requests (host.State.liveData (host.start session st')) = [].
Proof.
  intros cleared st' Hw Hm Hu Hsid Hreqs. unfold st', host.serve.
  destruct (turns inputs st []) as (_ & _ & Hv & Hp & Hw1 & He & _).
  destruct (fold_left host.turn inputs (st, [])) as [st1 replies].
  cbn [fst snd] in *. rewrite Hw in Hw1.
  assert (Hclear : host.clearLiveData eof st1
                   = host.State.with_files (host.State.with_liveData st1 cleared)
                       (<[host.State.dataPath st1 := content]> (host.State.files st1))).
  { unfold host.clearLiveData, host.WriteFile. rewrite Hv. fold cleared. rewrite Hm.
    cbn. now rewrite Hw1. }
  rewrite Hclear. cbn [host.State.with_files host.State.with_liveData host.State.liveData
    host.State.files host.State.dataPath host.State.stderr].
  split; [reflexivity |]. split; [apply lookup_insert_eq |]. split; [exact He |].
  unfold host.start, host.loadLiveData.
  cbn [host.State.with_files host.State.with_liveData host.State.liveData
    host.State.files host.State.dataPath].
  rewrite lookup_insert_eq, Hu, Hsid, Hreqs. cbn. split; reflexivity.
Qed.

End LiveHost.

Lemma sync_keeps_newest_witness :
  let msg := {| host.Message.Type_ := "sync";
                host.Message.Requests :=
                  Some [Sample.host_request "a"; Sample.host_request "b"];
                host.Message.Request := None; host.Message.Action := "sync" |} in
  let st := Sample.host_state [Sample.host_request "old"] ∅ in
  Z.of_nat (length (host.LiveData.Requests
                      (host.State.liveData (snd (host.handleMessage "t" st msg)))))
  = Z.min 2 host.MaxLiveRequests.
Proof.
  intros msg st.
  exact (proj1 (proj2 (sync_keeps_newest (codec := Sample.live_codec) "t" st msg
                         [Sample.host_request "a"; Sample.host_request "b"]
                         eq_refl eq_refl))).
Defined.


Lemma handleMessage_refuses_witness :
  let msg := {| host.Message.Type_ := ""; host.Message.Requests := None;
                host.Message.Request := None; host.Message.Action := "add" |} in
  let st := Sample.host_state [Sample.host_request "old"] ∅ in
  host.handleMessage "t" st msg = (host.unknown_action, st).
Proof.
  intros msg st.
  apply (proj1 (handleMessage_refuses (codec := Sample.live_codec) "t" st msg)).
  left. split; reflexivity.
Defined.

Lemma restart_after_disconnect_witness :
  let add := {| host.Message.Type_ := ""; host.Message.Requests := None;
                host.Message.Request := Some (Sample.host_request "new");
                host.Message.Action := "add" |} in
  let st := Sample.host_state [Sample.host_request "old"] ∅ in
  let st' := fst (host.serve false [host.Received "t1" add] "t2" st) in
  host.LiveData.SessionID (host.State.liveData (host.start "20250102-000000" st'))
  = "20250102-000000".
Proof.
  intros add st st'.
  assert (Hm : JSON.MarshalIndent
                 {| host.LiveData.Version := host.LiveData.Version (host.State.liveData st);
                    host.LiveData.ExportedAt := "t2"; host.LiveData.SessionID := "";
                    host.LiveData.Requests := [] |} = Ok "{:0}") by reflexivity.
  assert (Hu : JSON.Unmarshal "{:0}" host.fresh = Ok host.fresh) by reflexivity.
  exact (proj1 (proj2 (proj2 (proj2
           (restart_after_disconnect (codec := Sample.live_codec)
              [host.Received "t1" add] "t2" "20250102-000000" st "{:0}" host.fresh
              eq_refl Hm Hu eq_refl eq_refl))))).
Defined.

(** * Further properties of the filter *)

Section StatusForms.
Context {strings : GoString.Unicode} {engine : regexp.Engine}.

(** The status ranges enter [passes] through their two guards only. *)
Lemma passes_ranges (s : Store.t) (opts : FilterOptions.t) (r : Request.t) (p : Prepared.t) :
  passes s opts r p
  = passes s (FilterOptions.with_ranges opts "" []) r p
    && negb (skip_status_range opts r) && negb (skip_status_ranges opts r).
Proof.
  unfold passes.
  change (skip_ignored s (FilterOptions.with_ranges opts "" []) r)
    with (skip_ignored s opts r).
  change (skip_not_primary s (FilterOptions.with_ranges opts "" []) r)
    with (skip_not_primary s opts r).
  change (skip_domain (FilterOptions.with_ranges opts "" []) r) with (skip_domain opts r).
  change (skip_domains (FilterOptions.with_ranges opts "" []) r) with (skip_domains opts r).
  change (skip_method (FilterOptions.with_ranges opts "" []) r) with (skip_method opts r).
  change (skip_methods (FilterOptions.with_ranges opts "" []) r) with (skip_methods opts r).
  change (skip_status (FilterOptions.with_ranges opts "" []) r) with (skip_status opts r).
  change (skip_resource_types (FilterOptions.with_ranges opts "" []) r)
    with (skip_resource_types opts r).
  assert (Hr : skip_status_range (FilterOptions.with_ranges opts "" []) r = false)
    by (unfold skip_status_range; now destruct (Request.Response r)).
  assert (Hrs : skip_status_ranges (FilterOptions.with_ranges opts "" []) r = false)
    by (unfold skip_status_ranges; now destruct (Request.Response r)).
  rewrite Hr, Hrs.
  destruct (skip_ignored s opts r); [reflexivity |].
  destruct (skip_not_primary s opts r); [reflexivity |].
  destruct (skip_domain opts r); [reflexivity |].
  destruct (skip_domains opts r); [reflexivity |].
  destruct (skip_method opts r); [reflexivity |].
  destruct (skip_methods opts r); [reflexivity |].
  destruct (skip_status opts r); [reflexivity |].
  destruct (skip_status_range opts r), (skip_status_ranges opts r),
    (skip_resource_types opts r), (skip_pattern r p); reflexivity.
Qed.

Lemma Filter_ranges (s : Store.t) (opts : FilterOptions.t) (sr sr' : string)
    (srs srs' : list string) :
  (forall r,
     In r (Store.Requests s) ->
     skip_status_range (FilterOptions.with_ranges opts sr srs) r
     || skip_status_ranges (FilterOptions.with_ranges opts sr srs) r
     = skip_status_range (FilterOptions.with_ranges opts sr' srs') r
       || skip_status_ranges (FilterOptions.with_ranges opts sr' srs') r) ->
  Filter s (FilterOptions.with_ranges opts sr srs)
  = Filter s (FilterOptions.with_ranges opts sr' srs').
Proof.
  intros Hsame. rewrite !Filter_page.
  change (prepare (FilterOptions.with_ranges opts sr srs)) with (prepare opts).
  change (prepare (FilterOptions.with_ranges opts sr' srs')) with (prepare opts).
  cbn [FilterOptions.Limit FilterOptions.Offset FilterOptions.with_ranges].
  f_equal. apply filter_ext_in. intros r Hin.
  rewrite (passes_ranges s (FilterOptions.with_ranges opts sr srs)).
  rewrite (passes_ranges s (FilterOptions.with_ranges opts sr' srs')).
  change (FilterOptions.with_ranges (FilterOptions.with_ranges opts sr srs) "" [])
    with (FilterOptions.with_ranges opts "" []).
  change (FilterOptions.with_ranges (FilterOptions.with_ranges opts sr' srs') "" [])
    with (FilterOptions.with_ranges opts "" []).
  rewrite <- !andb_assoc, <- !negb_orb, (Hsame r Hin). reflexivity.
Qed.

Lemma outside_in_range (sr : string) (status : Z) :
  sr = "2xx" \/ sr = "3xx" \/ sr = "4xx" \/ sr = "5xx" ->
  outside_range sr status = negb (in_range status sr).
Proof.
  intros [-> | [-> | [-> | ->]]]; unfold outside_range, in_range;
    cbn [String.eqb Ascii.eqb Bool.eqb]; rewrite negb_andb;
    f_equal; (rewrite Z.leb_antisym || rewrite Z.ltb_antisym);
    now rewrite ?negb_involutive.
Qed.

Lemma range_unknown (sr : string) (status : Z) :
  ~ (sr = "2xx" \/ sr = "3xx" \/ sr = "4xx" \/ sr = "5xx") ->
  outside_range sr status = false /\ in_range status sr = false.
Proof.
  intros Hnot. unfold outside_range, in_range.
  destruct (String.eqb_spec sr "2xx"); [tauto |].
  destruct (String.eqb_spec sr "3xx"); [tauto |].
  destruct (String.eqb_spec sr "4xx"); [tauto |].
  destruct (String.eqb_spec sr "5xx"); [tauto |].
  now split.
Qed.

(** X15. For one of the ranges [2xx], [3xx], [4xx] and [5xx], giving it as
    [StatusRange] or as the only entry of [StatusRanges] selects the same
    requests.  For any other text the two differ: as [StatusRange] it filters
    nothing, as an entry of [StatusRanges] it removes every request that has
    a response. *)
Theorem status_range_forms (s : Store.t) (opts : FilterOptions.t) (sr : string) :
  let known := sr = "2xx" \/ sr = "3xx" \/ sr = "4xx" \/ sr = "5xx" in
  (known ->
   Filter s (FilterOptions.with_ranges opts sr [])
   = Filter s (FilterOptions.with_ranges opts "" [sr]))
  /\ (~ known ->
      Filter s (FilterOptions.with_ranges opts sr [])
      = Filter s (FilterOptions.with_ranges opts "" [])
      /\ forall r, r ∈ Filter s (FilterOptions.with_ranges opts "" [sr]) ->
                   Request.Response r = None).
Proof.
  intros known. split.
  - intros Hknown. apply Filter_ranges. intros r _.
    unfold skip_status_range, skip_status_ranges.
    cbn [FilterOptions.StatusRange FilterOptions.StatusRanges FilterOptions.with_ranges].
    destruct (Request.Response r) as [resp |]; [| reflexivity].
    assert (Hnil : nonempty (@nil string) = false) by reflexivity.
    assert (Hone : nonempty [sr] = true) by reflexivity.
    rewrite Hnil, Hone, (outside_in_range sr _ Hknown).
    destruct (String.eqb_spec sr "") as [-> | _].
    + destruct Hknown as [Hk | [Hk | [Hk | Hk]]]; discriminate Hk.
    + cbn. now destruct (in_range (Response.Status resp) sr).
  - intros Hunknown. split.
    + apply Filter_ranges. intros r _.
      unfold skip_status_range, skip_status_ranges.
      cbn [FilterOptions.StatusRange FilterOptions.StatusRanges FilterOptions.with_ranges].
      destruct (Request.Response r) as [resp |]; [| reflexivity].
      rewrite (proj1 (range_unknown sr _ Hunknown)).
      assert (Hnil : nonempty (@nil string) = false) by reflexivity.
      rewrite Hnil, andb_false_r. reflexivity.
    + intros r Hr. rewrite Filter_page in Hr.
      pose proof (elem_of_sublist _ _ _ Hr (page_sublist _ _ _)) as Hin.
      apply list_elem_of_In, filter_In in Hin as [_ Hpass].
      apply passes_true in Hpass as (_ & _ & _ & _ & _ & _ & _ & _ & Hranges & _).
      unfold skip_status_ranges in Hranges.
      cbn [FilterOptions.StatusRanges FilterOptions.with_ranges] in Hranges.
      destruct (Request.Response r) as [resp |]; [| reflexivity].
      assert (Hone : nonempty [sr] = true) by reflexivity.
      rewrite Hone in Hranges. cbn [existsb andb] in Hranges.
      rewrite (proj2 (range_unknown sr _ Hunknown)) in Hranges. discriminate Hranges.
Qed.

(** X16. When trimming the empty pattern gives the empty pattern, the
    zero [FilterOptions] select every request of the store, so
    [findRequestByURL] returns the first stored request whose URL is exactly
    the target, on the ignore list or not, and nil exactly when no stored
    request has that URL. *)
Theorem findRequestByURL_first (s : Store.t) (target : string) :
  GoString.TrimSpace "" = "" ->
  Filter s FilterOptions.zero = Store.Requests s
  /\ (forall r,
        cmd.findRequestByURL s target = Some r ->
        Request.URL r = target
        /\ exists before after,
             Store.Requests s = (before ++ r :: after)%list
             /\ forall x, In x before -> Request.URL x <> target)
  /\ (cmd.findRequestByURL s target = None <->
      forall x, In x (Store.Requests s) -> Request.URL x <> target).
Proof.
  intros Htrim.
  assert (Hall : Filter s FilterOptions.zero = Store.Requests s).
  { rewrite Filter_page. rewrite page_none by (cbn; lia).
    assert (Htrue : forall l : list Request.t, List.filter (fun _ => true) l = l).
    { intros l. induction l as [| x l IH]; [reflexivity |].
      cbn [List.filter]. now rewrite IH. }
    rewrite (filter_ext_in _ (fun _ => true)); [apply Htrue |].
    intros r _. apply passes_true.
    assert (Hp : Prepared.pattern (prepare FilterOptions.zero) = "")
      by (apply prepare_unset; exact Htrim).
    unfold skip_pattern. rewrite Hp.
    repeat split; try reflexivity;
      unfold skip_status_range, skip_status_ranges; now destruct (Request.Response r). }
  split; [exact Hall |]. unfold cmd.findRequestByURL. rewrite Hall. split.
  - intros r Hfind. clear Hall.
    induction (Store.Requests s) as [| x l IH]; [discriminate Hfind |].
    cbn [find] in Hfind. destruct (String.eqb_spec (Request.URL x) target) as [Hx | Hx].
    + inversion Hfind; subst r. split; [exact Hx |].
      exists [], l. split; [reflexivity |]. intros y [].
    + destruct (IH Hfind) as (Hurl & before & after & Hl & Hbefore).
      split; [exact Hurl |]. exists (x :: before), after. split; [now rewrite Hl |].
      intros y [<- | Hy]; [exact Hx | now apply Hbefore].
  - split.
    + intros Hnone x Hin Hx. apply (find_none _ _ Hnone) in Hin.
      apply String.eqb_neq in Hin. contradiction.
    + intros Hno. destruct (find _ (Store.Requests s)) as [r |] eqn:Hfind; [| reflexivity].
      apply find_some in Hfind as [Hin Hr]. apply String.eqb_eq in Hr.
      now destruct (Hno r Hin).
Qed.

End StatusForms.

Lemma status_range_forms_witness :
  let s := NewTempStore Sample.traffic in
  Filter s
    (FilterOptions.with_ranges (Sample.options "" 0 [] 0 0) "2xx" [])
  = Filter s
      (FilterOptions.with_ranges (Sample.options "" 0 [] 0 0) "" ["2xx"]).
Proof.
  intros s.
  apply (proj1 (status_range_forms s (Sample.options "" 0 [] 0 0) "2xx")).
  left. reflexivity.
Defined.

Lemma findRequestByURL_first_witness :
  let s := NewTempStore Sample.traffic in
  Filter s FilterOptions.zero
  = Store.Requests s.
Proof.
  intros s.
  assert (Htrim : GoString.TrimSpace "" = "")
    by reflexivity.
  exact (proj1 (findRequestByURL_first s "" Htrim)).
Defined.

(** * Further properties of the chain command *)

Section ChainShape.
Context {strings : GoString.Unicode} {engine : regexp.Engine}.

(** The loop only puts links in front of those it was given: at most one
    for each execution of its body and one for the root; the link of the
    request it starts from comes last among them; and it keeps the chain
    linked. *)
Lemma chain_loop_shape (s : Store.t) (fuel : nat) :
  forall (visited : gset string) (cur : Request.t) (links links' : list cmd.ChainLink.t)
         (n : nat),
    cmd.chain_loop fuel s visited (Some cur) links = Some (links', n) ->
    exists pre,
      links' = (pre ++ links)%list
      /\ (length pre <= n + 1)%nat
      /\ (Request.ID cur ∉ visited -> exists pre', pre = (pre' ++ [cmd.link_of cur])%list)
      /\ (match links with
          | l :: _ => cmd.ChainLink.Initiator l = Request.URL cur
          | [] => True
          end ->
          cmd.linked links -> cmd.linked links').
Proof.
  induction fuel as [| fuel IH]; intros visited cur links links' n Hloop.
  - cbn [cmd.chain_loop] in Hloop.
    destruct (decide (Request.ID cur ∈ visited)) as [Hv | Hv]; [| discriminate Hloop].
    inversion Hloop; subst. exists []. split; [reflexivity |]. split; [cbn; lia |]. split; tauto.
  - cbn [cmd.chain_loop] in Hloop.
    destruct (decide (Request.ID cur ∈ visited)) as [Hv | Hv].
    { inversion Hloop; subst. exists []. split; [reflexivity |]. split; [cbn; lia |]. split; tauto. }
    assert (Hone : forall l : list cmd.ChainLink.t,
               match links with
               | l0 :: _ => cmd.ChainLink.Initiator l0 = Request.URL cur
               | [] => True
               end ->
               cmd.linked links -> cmd.linked (cmd.link_of cur :: links)).
    { intros _ Hhead Hlinked. cbn [cmd.linked]. split; [| exact Hlinked].
      destruct links; [exact I | exact Hhead]. }
    assert (Hroot : match links with
                    | l0 :: _ => cmd.ChainLink.Initiator l0 = Request.URL cur
                    | [] => True
                    end ->
                    cmd.linked links ->
                    cmd.linked (cmd.root_of cur :: cmd.link_of cur :: links)).
    { intros Hhead Hlinked. split; [reflexivity | now apply (Hone [])]. }
    destruct (String.eqb (Request.Initiator cur) "").
    { inversion Hloop; subst. exists [cmd.link_of cur].
      split; [reflexivity |]. split; [cbn; lia |].
      split; [now exists [] | apply (Hone [])]. }
    destruct (cmd.findRequestByURL s (Request.Initiator cur)) as [parent |] eqn:Hfind.
    2: { inversion Hloop; subst. exists [cmd.root_of cur; cmd.link_of cur].
         split; [reflexivity |]. split; [cbn; lia |].
      split; [now exists [cmd.root_of cur] | exact Hroot]. }
    destruct (String.eqb (Request.ID parent) (Request.ID cur)).
    { inversion Hloop; subst. exists [cmd.root_of cur; cmd.link_of cur].
      split; [reflexivity |]. split; [cbn; lia |].
      split; [now exists [cmd.root_of cur] | exact Hroot]. }
    destruct (cmd.chain_loop fuel s _ (Some parent) _) as [[links0 n0] |] eqn:Hrec;
      [| discriminate Hloop].
    inversion Hloop; subst links0 n. clear Hloop.
    destruct (IH _ _ _ _ _ Hrec) as (pre & Hpre & Hlen & _ & Hlinked).
    exists (pre ++ [cmd.link_of cur])%list.
    split; [| split; [| split]].
    + now rewrite <- app_assoc.
    + rewrite length_app. cbn [length]. lia.
    + intros _. now exists pre.
    + intros Hhead Hl. apply Hlinked; [| now apply (Hone [])].
      cbn [cmd.link_of cmd.ChainLink.Initiator].
      unfold cmd.findRequestByURL in Hfind. apply find_some in Hfind as [_ Hurl].
      apply String.eqb_eq in Hurl. now symmetry.
Qed.

Lemma chain_loop_returns (s : Store.t) (req : Request.t) :
  exists links n,
    cmd.chain_loop (S (length (Store.Requests s))) s ∅ (Some req) [] = Some (links, n)
    /\ (n <= length (Store.Requests s) + 1)%nat.
Proof.
  assert (Hsize : (size (cmd.stored_ids s) <= length (Store.Requests s))%nat).
  { unfold cmd.stored_ids. etransitivity; [apply size_list_to_set_le |].
    now rewrite length_fmap. }
  assert (Hstep : exists links n,
             cmd.chain_loop (S (size (cmd.stored_ids s))) s ∅ (Some req) []
             = Some (links, n)
             /\ (n <= size (cmd.stored_ids s) + 1)%nat).
  { simpl. rewrite decide_False by set_solver.
    destruct (String.eqb (Request.Initiator req) "").
    { eexists _, _. split; [reflexivity | lia]. }
    destruct (cmd.findRequestByURL s (Request.Initiator req)) as [parent |] eqn:Hfind.
    2: { eexists _, _. split; [reflexivity | lia]. }
    destruct (String.eqb (Request.ID parent) (Request.ID req)).
    { eexists _, _. split; [reflexivity | lia]. }
    assert (Hle : (size (cmd.stored_ids s ∖ ({[Request.ID req]} ∪ ∅))
                   <= size (cmd.stored_ids s))%nat)
      by (apply subseteq_size; set_solver).
    apply findRequestByURL_stored in Hfind.
    destruct (chain_loop_stored s (size (cmd.stored_ids s)) ({[Request.ID req]} ∪ ∅)
                parent [cmd.link_of req] Hfind Hle) as (links' & n & Hloop & Hn).
    rewrite Hloop. exists links', (S n). split; [reflexivity | lia]. }
  destruct Hstep as (links & n & Hloop & Hn).
  exists links, n. split; [| lia].
  apply (chain_loop_more s _ _ _ _ _ Hloop). lia.
Qed.

(** X17. The chain built for a request carries the page URL of the
    request, ends with the link of the request itself, is linked from root
    to target (the URL of every link is the initiator of the next, the
    synthetic root included), and has at most two links more than the store
    has requests. *)
Theorem buildChainForRequest_shape (s : Store.t) (req : Request.t) :
  let chain := cmd.buildChainForRequest s req in
  cmd.RequestChain.PageURL chain = Request.PageURL req
  /\ last (cmd.RequestChain.Links chain) = Some (cmd.link_of req)
  /\ cmd.linked (cmd.RequestChain.Links chain)
  /\ (length (cmd.RequestChain.Links chain) <= length (Store.Requests s) + 2)%nat.
Proof.
  intros chain. split; [reflexivity |].
  destruct (chain_loop_returns s req) as (links & n & Hloop & Hn).
  unfold chain, cmd.buildChainForRequest. cbn [cmd.RequestChain.Links]. rewrite Hloop.
  destruct (chain_loop_shape s _ _ _ _ _ _ Hloop) as (pre & Hpre & Hlen & Hlast & Hlinked).
  rewrite app_nil_r in Hpre. subst pre.
  destruct Hlast as [pre' ->]; [set_solver |].
  split; [apply last_snoc |]. split; [now apply Hlinked |]. lia.
Qed.

End ChainShape.

(** ** URL truncation *)

Lemma length_substring (s : string) :
  forall n m : nat,
    String.length (String.substring n m s) = Nat.min m (String.length s - n).
Proof.
  induction s as [| c s IH]; intros n m.
  - destruct n, m; reflexivity.
  - destruct n as [| n].
    + destruct m as [| m]; [reflexivity |]. cbn [String.substring String.length].
      rewrite IH. lia.
    + cbn [String.substring String.length]. rewrite IH. lia.
Qed.

Section Truncation.
Context {urls : url.Parser}.

(** X18. For a bound of at least 3, [truncateURL] never indexes out of
    range and returns at most [maxLen] bytes: the URL itself when it fits,
    its first [maxLen - 3] bytes followed by three dots when it cannot be
    parsed or its host is longer than [maxLen - 10], and otherwise the host
    followed by the path, or by three dots and the end of the path, in at
    most [maxLen - 6] bytes.  For a smaller bound a longer URL that cannot be
    parsed makes it panic. *)
Theorem truncateURL_bounded (u : string) (maxLen : Z) :
  (3 <= maxLen ->
   exists out,
     cmd.truncateURL u maxLen = Some out
     /\ cmd.len out <= maxLen
     /\ (cmd.len u <= maxLen -> out = u)
     /\ (maxLen < cmd.len u ->
         match url.Parse u with
         | None => cmd.len out = maxLen
         | Some parsed =>
             if maxLen - 10 <? cmd.len (url.Host parsed) then cmd.len out = maxLen
             else cmd.len out <= maxLen - 6
                  /\ GoString.HasPrefix out (url.Host parsed) = true
         end))
  /\ (maxLen < 3 -> maxLen < cmd.len u -> url.Parse u = None ->
      cmd.truncateURL u maxLen = None).
Proof.
  unfold cmd.truncateURL. split.
  - intros Hmax. destruct (Z.leb_spec (cmd.len u) maxLen) as [Hfit | Hlong].
    { exists u. repeat split; [exact Hfit | lia]. }
    assert (Hhead : exists out,
               option_map (fun head => (head ++ "...")%string)
                 (cmd.slice_to u (maxLen - 3)) = Some out
               /\ cmd.len out = maxLen).
    { unfold cmd.slice_to.
      destruct (Z.leb_spec 0 (maxLen - 3)); [| lia].
      destruct (Z.leb_spec (maxLen - 3) (cmd.len u)); [| lia].
      eexists. split; [reflexivity |].
      unfold cmd.len in *. rewrite length_append, length_substring. cbn [String.length].
      lia. }
    destruct (url.Parse u) as [parsed |].
    2: { destruct Hhead as (out & Hout & Hlen). exists out.
         repeat split; [exact Hout | lia | lia | intros _; exact Hlen]. }
    destruct (Z.ltb_spec (maxLen - 10) (cmd.len (url.Host parsed))) as [Hhost | Hhost].
    { destruct Hhead as (out & Hout & Hlen). exists out.
      repeat split; [exact Hout | lia | lia | intros _; exact Hlen]. }
    assert (Hprefix : forall a b : string, GoString.HasPrefix (a ++ b) a = true).
    { intros a b. unfold GoString.HasPrefix.
      induction a as [| c a IHa]; [now destruct b |].
      simpl. destruct (ascii_dec c c); [exact IHa | contradiction]. }
    destruct (Z.ltb_spec (maxLen - cmd.len (url.Host parsed) - 6) (cmd.len (url.Path parsed)))
      as [Hpath | Hpath].
    + unfold cmd.slice_from.
      destruct (Z.leb_spec 0 (cmd.len (url.Path parsed)
                              - (maxLen - cmd.len (url.Host parsed) - 6) + 3)); [| lia].
      destruct (Z.leb_spec (cmd.len (url.Path parsed)
                            - (maxLen - cmd.len (url.Host parsed) - 6) + 3)
                  (cmd.len (url.Path parsed))); [| lia].
      eexists. split; [reflexivity |].
      assert (Hlen : cmd.len (url.Host parsed
                              ++ "..."
                              ++ String.substring
                                   (Z.to_nat (cmd.len (url.Path parsed)
                                              - (maxLen - cmd.len (url.Host parsed) - 6) + 3))
                                   (String.length (url.Path parsed)
                                    - Z.to_nat (cmd.len (url.Path parsed)
                                                - (maxLen - cmd.len (url.Host parsed) - 6)
                                                + 3))
                                   (url.Path parsed))
                     <= maxLen - 6).
      { unfold cmd.len in *. rewrite !length_append, length_substring.
        cbn [String.length]. lia. }
      repeat split; [lia | lia | exact Hlen | apply Hprefix].
    + eexists. split; [reflexivity |].
      assert (Hlen : cmd.len (url.Host parsed ++ url.Path parsed) <= maxLen - 6).
      { unfold cmd.len in *. rewrite length_append. lia. }
      repeat split; [lia | lia | exact Hlen | apply Hprefix].
  - intros Hsmall Hlong Hparse.
    destruct (Z.leb_spec (cmd.len u) maxLen); [lia |].
    rewrite Hparse. unfold cmd.slice_to.
    destruct (Z.leb_spec 0 (maxLen - 3)); [lia | reflexivity].
Qed.

End Truncation.

Lemma truncateURL_bounded_witness :
  exists out,
    cmd.truncateURL "https://a.example/some/long/path/to/a/resource?with=a&long=query" 30
    = Some out
    /\ cmd.len out <= 30.
Proof.
  destruct (proj1 (truncateURL_bounded
                     "https://a.example/some/long/path/to/a/resource?with=a&long=query" 30))
    as (out & Hout & Hlen & _); [lia |].
  exists out. split; [exact Hout | exact Hlen].
Defined.

(** * Further properties of the request hash *)

Lemma round_length (st : list Z) (kw : Z * Z) :
  length (SHA256.round st kw) = length st.
Proof.
  unfold SHA256.round.
  do 9 (destruct st as [| ? st]; [reflexivity |]). reflexivity.
Qed.

Lemma rounds_length (kws : list (Z * Z)) :
  forall st, length (fold_left SHA256.round kws st) = length st.
Proof.
  induction kws as [| kw kws IH]; intros st; [reflexivity |].
  cbn [fold_left]. now rewrite IH, round_length.
Qed.

Lemma compress_length (h block : list Z) : length (SHA256.compress h block) = length h.
Proof.
  unfold SHA256.compress. rewrite length_map, length_combine, rounds_length. lia.
Qed.

Lemma compress_all_length (blocks : list (list Z)) :
  forall h, length (fold_left SHA256.compress blocks h) = length h.
Proof.
  induction blocks as [| b blocks IH]; intros h; [reflexivity |].
  cbn [fold_left]. now rewrite IH, compress_length.
Qed.

Lemma be_bytes_bytes (h : list Z) :
  length (flat_map (SHA256.be_bytes 4) h) = (4 * length h)%nat
  /\ Forall (fun b => 0 <= b < 256) (flat_map (SHA256.be_bytes 4) h).
Proof.
  induction h as [| x h [IHl IHf]]; [split; [reflexivity | constructor] |].
  cbn [flat_map]. split.
  - rewrite length_app, IHl. cbn [SHA256.be_bytes length]. lia.
  - apply Forall_app. split; [| exact IHf].
    cbn [SHA256.be_bytes]. repeat (constructor; [apply Z.mod_pos_bound; lia |]).
    constructor.
Qed.

Lemma Sum256_bytes (msg : list Z) :
  length (SHA256.Sum256 msg) = 32%nat
  /\ Forall (fun b => 0 <= b < 256) (SHA256.Sum256 msg).
Proof.
  unfold SHA256.Sum256.
  destruct (be_bytes_bytes
              (fold_left SHA256.compress
                 (SHA256.chunks (length (SHA256.words (SHA256.pad msg)))
                    (SHA256.words (SHA256.pad msg))) SHA256.H0)) as [Hl Hf].
  split; [| exact Hf]. rewrite Hl, compress_all_length.
  assert (H8 : length SHA256.H0 = 8%nat) by (vm_compute; reflexivity).
  rewrite H8. reflexivity.
Qed.

Lemma hex_digit_hex (n : Z) :
  0 <= n < 16 -> In (GoString.hex_digit n) (list_ascii_of_string "0123456789abcdef").
Proof.
  intros Hn.
  assert (Hall : forallb
                   (fun k => existsb (Ascii.eqb (GoString.hex_digit (Z.of_nat k)))
                               (list_ascii_of_string "0123456789abcdef"))
                   (seq 0 16) = true) by (vm_compute; reflexivity).
  rewrite forallb_forall in Hall. specialize (Hall (Z.to_nat n)).
  rewrite Z2Nat.id in Hall by lia.
  assert (Hseq : In (Z.to_nat n) (seq 0 16)) by (apply in_seq; lia).
  apply Hall, existsb_exists in Hseq as (c & Hin & Heq).
  apply Ascii.eqb_eq in Heq. now rewrite Heq.
Qed.

Lemma fmt_x_hex (bytes : list Z) :
  Forall (fun b => 0 <= b < 256) bytes ->
  String.length (GoString.fmt_x bytes) = (2 * length bytes)%nat
  /\ Forall (fun c => In c (list_ascii_of_string "0123456789abcdef"))
       (list_ascii_of_string (GoString.fmt_x bytes)).
Proof.
  induction 1 as [| b bytes Hb _ [IHl IHf]]; [split; [reflexivity | constructor] |].
  cbn [GoString.fmt_x String.length list_ascii_of_string length].
  split; [rewrite IHl; lia |].
  constructor; [| constructor; [| exact IHf]]; apply hex_digit_hex.
  - split; [apply Z.div_pos; lia | apply Z.div_lt_upper_bound; lia].
  - apply Z.mod_pos_bound. lia.
Qed.

(** X19. The hash of a request is always 64 characters, each one of
    [0-9] and [a-f]; only the nil request has the empty hash. *)
Theorem RequestHash_hex (r : Request.t) :
  String.length (RequestHash (Some r)) = 64%nat
  /\ Forall (fun c => In c (list_ascii_of_string "0123456789abcdef"))
       (list_ascii_of_string (RequestHash (Some r)))
  /\ RequestHash None = ""
  /\ RequestHash (Some r) <> "".
Proof.
  assert (Hhex : String.length (RequestHash (Some r)) = 64%nat
                 /\ Forall (fun c => In c (list_ascii_of_string "0123456789abcdef"))
                      (list_ascii_of_string (RequestHash (Some r)))).
  { unfold RequestHash.
    destruct (Sum256_bytes
                (GoString.bytes_of
                   (Request.Method r ++ "|" ++ Request.URL r ++ "|" ++ Request.Body r
                    ++ "|" ++ GoString.fmt_d (Request.Timestamp r)))) as [Hl Hf].
    destruct (fmt_x_hex _ Hf) as [Hlen Hchars]. rewrite Hl in Hlen.
    split; [exact Hlen | exact Hchars]. }
  destruct Hhex as [Hlen Hchars].
  split; [exact Hlen |]. split; [exact Hchars |]. split; [reflexivity |].
  intros Hempty. rewrite Hempty in Hlen. discriminate Hlen.
Qed.

(** X20. A request is indexed under its hash, and under its ID as well
    exactly when the ID is stable; the nil request has no key; and the
    fingerprint of a request, tagged by its kind, is always one of its
    keys. *)
Theorem requestIndexKeys_keys (r : Request.t) :
  requestIndexKeys (Some r)
  = ("hash:" ++ RequestHash (Some r))%string
      :: (if isStableID (Some r) then [("id:" ++ Request.ID r)%string] else [])
  /\ requestIndexKeys None = []
  /\ In ((if isStableID (Some r) then "id:" else "hash:") ++ RequestFingerprint (Some r))%string
       (requestIndexKeys (Some r)).
Proof.
  assert (Hhash : String.eqb (RequestHash (Some r)) "" = false).
  { apply String.eqb_neq. intros Hempty.
    assert (Hlen : String.length (RequestHash (Some r)) = 64%nat).
    { unfold RequestHash.
      destruct (Sum256_bytes
                  (GoString.bytes_of
                     (Request.Method r ++ "|" ++ Request.URL r ++ "|" ++ Request.Body r
                      ++ "|" ++ GoString.fmt_d (Request.Timestamp r)))) as [Hl Hf].
      destruct (fmt_x_hex _ Hf) as [Hlen _]. now rewrite Hl in Hlen. }
    rewrite Hempty in Hlen. discriminate Hlen. }
  assert (Hkeys : requestIndexKeys (Some r)
                  = ("hash:" ++ RequestHash (Some r))%string
                      :: (if isStableID (Some r)
                          then [("id:" ++ Request.ID r)%string] else [])).
  { unfold requestIndexKeys. rewrite Hhash. cbn [negb].
    destruct (isStableID (Some r)) eqn:Hstable; [| reflexivity].
    assert (Hid : String.eqb (Request.ID r) "" = false).
    { unfold isStableID in Hstable.
      destruct (String.eqb (Request.ID r) ""); [discriminate Hstable | reflexivity]. }
    rewrite Hid. reflexivity. }
  split; [exact Hkeys |]. split; [reflexivity |].
  rewrite Hkeys. unfold RequestFingerprint.
  destruct (isStableID (Some r)); [right; left; reflexivity | left; reflexivity].
Qed.

(** * The live file: where the host writes and the commands read *)

Section Paths.
Context {paths : filepath.Joiner}.

(** X21. Provided joining the file name to the joined directory gives
    the same path as joining all the elements at once, the native host writes
    the live file exactly where the commands look for it whenever the
    commands can compute the path at all.  The commands fail only when the
    home directory is unknown and is needed (the override starts with the
    tilde, or neither the override nor [XDG_DATA_HOME] is set). *)
Theorem live_path_agrees (env : os.t) :
  (forall dir,
     filepath.Join [filepath.Join [dir; "rep-cli"]; "live.json"]
     = filepath.Join [dir; "rep-cli"; "live.json"]) ->
  (forall home,
     filepath.Join [filepath.Join [home; ".local"; "share"; "rep-cli"]; "live.json"]
     = filepath.Join [home; ".local"; "share"; "rep-cli"; "live.json"]) ->
  (forall path, GetLiveFilePath env = Ok path -> host.getDataPath env = path)
  /\ ((exists err, GetLiveFilePath env = Error err) <->
      (exists err, os.UserHomeDir env = Error err)
      /\ (os.Getenv env "REPLIVE_PATH" = "~"
          \/ GoString.HasPrefix (os.Getenv env "REPLIVE_PATH") "~/" = true
          \/ (os.Getenv env "REPLIVE_PATH" = "" /\ os.Getenv env "XDG_DATA_HOME" = ""))).
Proof.
  intros Hdir Hhome.
  unfold GetLiveFilePath, host.getDataPath, expandHomePath, host.expandHomePath,
    GetStorePath, LiveFileName, host.LiveFileName.
  destruct (String.eqb_spec (os.Getenv env "REPLIVE_PATH") "") as [Hover | Hover];
    cbn [negb].
  - destruct (String.eqb_spec (os.Getenv env "XDG_DATA_HOME") "") as [Hxdg | Hxdg];
      cbn [negb].
    + destruct (os.UserHomeDir env) as [home | err]; split.
      * intros path Hpath. inversion Hpath. now rewrite Hhome.
      * split; [intros [err Herr]; discriminate Herr |].
        intros [[err Herr] _]. discriminate Herr.
      * intros path Hpath. discriminate Hpath.
      * split; [| now eexists]. intros _. split; [now eexists |]. right. right. now split.
    + split.
      * intros path Hpath. inversion Hpath. now rewrite Hdir.
      * split; [intros [err Herr]; discriminate Herr |].
        intros [_ [Ht | [Ht | [_ Hx]]]].
        -- rewrite Hover in Ht. discriminate Ht.
        -- rewrite Hover in Ht. discriminate Ht.
        -- contradiction.
  - destruct (String.eqb_spec (os.Getenv env "REPLIVE_PATH") "~") as [Htilde | Htilde];
      cbn [orb].
    + destruct (os.UserHomeDir env) as [home | err]; split.
      * intros path Hpath. now inversion Hpath.
      * split; [intros [err Herr]; discriminate Herr |].
        intros [[err Herr] _]. discriminate Herr.
      * intros path Hpath. discriminate Hpath.
      * split; [| now eexists]. intros _. split; [now eexists | now left].
    + destruct (GoString.HasPrefix (os.Getenv env "REPLIVE_PATH") "~/") eqn:Hprefix.
      * destruct (os.UserHomeDir env) as [home | err]; split.
        -- intros path Hpath. now inversion Hpath.
        -- split; [intros [err Herr]; discriminate Herr |].
           intros [[err Herr] _]. discriminate Herr.
        -- intros path Hpath. discriminate Hpath.
        -- split; [| now eexists]. intros _. split; [now eexists | right; now left].
      * split.
        -- intros path Hpath. now inversion Hpath.
        -- split; [intros [err Herr]; discriminate Herr |].
           intros [_ [Ht | [Ht | [Ht _]]]]; [contradiction | discriminate Ht | contradiction].
Qed.

End Paths.

Lemma append_assoc (a b c : string) : ((a ++ b) ++ c)%string = (a ++ b ++ c)%string.
Proof.
  induction a as [| x a IH]; [reflexivity |].
  change (String x ((a ++ b) ++ c) = String x (a ++ b ++ c))%string. now rewrite IH.
Qed.

Lemma live_path_agrees_witness :
  host.getDataPath Sample.home_env = "/data/rep-cli/live.json".
Proof.
  assert (Hdir : forall dir,
             filepath.Join [filepath.Join [dir; "rep-cli"]; "live.json"]
             = filepath.Join [dir; "rep-cli"; "live.json"])
    by (intros dir; exact (append_assoc dir "/rep-cli" "/live.json")).
  assert (Hhome : forall home,
             filepath.Join [filepath.Join [home; ".local"; "share"; "rep-cli"]; "live.json"]
             = filepath.Join [home; ".local"; "share"; "rep-cli"; "live.json"])
    by (intros home; exact (append_assoc home "/.local/share/rep-cli" "/live.json")).
  apply (proj1 (live_path_agrees Sample.home_env Hdir Hhome)).
  reflexivity.
Defined.

(** * Native messaging frames *)

Lemma le_bytes_length (n : nat) : forall v, String.length (host.le_bytes n v) = n.
Proof. induction n as [| n IH]; intros v; cbn; [reflexivity | now rewrite IH]. Qed.

Lemma le_value_le_bytes (n : nat) :
  forall v, 0 <= v -> host.le_value (host.le_bytes n v) = v mod 256 ^ Z.of_nat n.
Proof.
  induction n as [| n IH]; intros v Hv.
  - cbn [host.le_bytes host.le_value]. change (256 ^ Z.of_nat 0) with 1.
    now rewrite Z.mod_1_r.
  - cbn [host.le_bytes host.le_value].
    rewrite IH by (apply Z.div_pos; lia).
    rewrite N_ascii_embedding by (pose proof (Z.mod_pos_bound v 256); lia).
    rewrite Z2N.id by (pose proof (Z.mod_pos_bound v 256); lia).
    rewrite Nat2Z.inj_succ, Z.pow_succ_r by lia.
    rewrite Z.rem_mul_r by lia. reflexivity.
Qed.

Lemma substring_all (s : string) : String.substring 0 (String.length s) s = s.
Proof. induction s as [| c s IH]; cbn; [reflexivity | now rewrite IH]. Qed.

Lemma substring_app (a b : string) :
  String.substring 0 (String.length a) (a ++ b) = a
  /\ String.substring (String.length a) (String.length (a ++ b) - String.length a) (a ++ b)
     = b.
Proof.
  induction a as [| c a [IH1 IH2]].
  - cbn [String.append String.length]. rewrite Nat.sub_0_r, substring_all.
    split; [now destruct b | reflexivity].
  - simpl. rewrite IH1. split; [reflexivity | exact IH2].
Qed.

Lemma ReadFull_app (a rest : string) :
  host.ReadFull (String.length a) (a ++ rest) = (inl a, rest).
Proof.
  unfold host.ReadFull. destruct a as [| c a]; [reflexivity |].
  destruct (substring_app (String c a) rest) as [H1 H2].
  rewrite length_append. cbn [String.length Nat.add Nat.eqb].
  destruct (Nat.ltb_spec (S (String.length a + String.length rest)) (S (String.length a)));
    [lia |].
  rewrite length_append in H2. cbn [String.length Nat.add] in H1, H2.
  now rewrite H1, H2.
Qed.

Section Frames.
Context {messages : JSON.Codec host.Message.t} {replies : host.ReplyEncoder}.

(** X22. [writeMessage] appends to standard output the length of the
    encoded reply on 4 little-endian bytes and then the encoding; and
    [readMessage] reads one such frame (a text shorter than 2^32 bytes behind
    its length), decodes the text, and leaves what follows the frame
    unread. *)
Theorem frame_round_trip (content rest : string) :
  Z.of_nat (String.length content) < 2 ^ 32 ->
  let frame := (host.le_bytes 4 (Z.of_nat (String.length content)) ++ content)%string in
  (forall reply stdout,
     host.Marshal reply = Ok content ->
     host.writeMessage reply stdout = (Ok tt, (stdout ++ frame)%string))
  /\ host.readMessage (frame ++ rest)
     = (match JSON.Unmarshal content host.no_message with
        | Ok msg => inl msg
        | Error err => inr (host.Invalid err)
        end, rest).
Proof.
  intros Hlen frame. split.
  - intros reply stdout Hm. unfold host.writeMessage. rewrite Hm.
    rewrite Z.mod_small by lia. reflexivity.
  - unfold host.readMessage, frame. rewrite !append_assoc.
    pose proof (ReadFull_app (host.le_bytes 4 (Z.of_nat (String.length content)))
                  (content ++ rest)) as Hprefix.
    rewrite le_bytes_length in Hprefix. rewrite Hprefix.
    rewrite le_value_le_bytes by lia.
    change (256 ^ Z.of_nat 4) with (2 ^ 32). rewrite Z.mod_small by lia.
    rewrite Nat2Z.id, ReadFull_app.
    now destruct (JSON.Unmarshal content host.no_message).
Qed.

Lemma readMessage_progress (stdin : string) :
  (String.length (snd (host.readMessage stdin)) <= String.length stdin)%nat
  /\ (fst (host.readMessage stdin) <> inr host.EOF ->
      (String.length (snd (host.readMessage stdin)) < String.length stdin)%nat).
Proof.
  unfold host.readMessage.
  assert (Hfull : forall n input,
             (String.length (snd (host.ReadFull n input)) <= String.length input)%nat
             /\ (String.length (snd (host.ReadFull n input))
                 = String.length input - n
                 \/ exists err, fst (host.ReadFull n input) = inr err)%nat).
  { intros n input. unfold host.ReadFull.
    destruct (Nat.eqb_spec n 0) as [-> | Hn]; [cbn; split; [lia | left; lia] |].
    destruct (Nat.eqb_spec (String.length input) 0) as [H0 | H0];
      [cbn; split; [lia | right; now eexists] |].
    destruct (Nat.ltb_spec (String.length input) n);
      [cbn; split; [lia | right; now eexists] |].
    cbn [fst snd]. rewrite length_substring. split; [lia | left; lia]. }
  assert (Hfirst : fst (host.ReadFull 4 stdin) = inr host.EOF
                   \/ (String.length (snd (host.ReadFull 4 stdin))
                       < String.length stdin)%nat).
  { unfold host.ReadFull. cbn [Nat.eqb].
    destruct (Nat.eqb_spec (String.length stdin) 0) as [H0 | H0]; [now left |].
    destruct (Nat.ltb_spec (String.length stdin) 4); cbn [fst snd];
      [right; cbn; lia |].
    right. rewrite length_substring. lia. }
  destruct (host.ReadFull 4 stdin) as [[prefix | err] stdin1] eqn:Hread; cbn [fst snd] in *.
  - destruct Hfirst as [Heof | Hlt]; [discriminate Heof |].
    destruct (Hfull (Z.to_nat (host.le_value prefix)) stdin1) as [Hle _].
    destruct (host.ReadFull (Z.to_nat (host.le_value prefix)) stdin1)
      as [[content | err] stdin2]; cbn [fst snd] in *.
    + destruct (JSON.Unmarshal content host.no_message); cbn [fst snd]; split; lia.
    + split; lia.
  - destruct Hfirst as [Heof | Hlt]; [| split; lia].
    inversion Heof; subst err. split; [| intros Hne; now destruct Hne].
    destruct (Hfull 4%nat stdin) as [Hle _]. now rewrite Hread in Hle.
Qed.

(** X23. On every finite input the loop of [main] comes to [io.EOF]: it
    makes at most one read for each byte of the input before the read that
    returns [io.EOF], whatever the bytes are (truncated frames and texts that
    do not decode included). *)
Theorem reads_terminate (stdin : string) :
  exists results,
    (forall fuel, (String.length stdin < fuel)%nat -> host.reads fuel stdin = Some results)
    /\ (length results <= String.length stdin)%nat
    /\ Forall (fun r => r <> inr host.EOF) results.
Proof.
  remember (String.length stdin) as n eqn:Hn.
  assert (Hle : (String.length stdin <= n)%nat) by lia. clear Hn.
  revert stdin Hle. induction n as [| n IH]; intros stdin Hle.
  - exists []. split; [| split; [cbn; lia | constructor]].
    intros fuel Hfuel. destruct fuel as [| fuel]; [lia |].
    cbn [host.reads]. destruct stdin; [reflexivity | cbn in Hle; lia].
  - destruct (readMessage_progress stdin) as [_ Hprogress].
    destruct (host.readMessage stdin) as [r rest] eqn:Hread. cbn [fst snd] in Hprogress.
    assert (Hcases : r = inr host.EOF \/ r <> inr host.EOF).
    { destruct r as [msg | [| | err]]; [right | left | right | right]; congruence. }
    destruct Hcases as [-> | Hne].
    + exists []. split; [| split; [cbn; lia | constructor]].
      intros fuel Hfuel. destruct fuel as [| fuel]; [lia |].
      cbn [host.reads]. now rewrite Hread.
    + destruct (IH rest) as (results & Hreads & Hlen & Hall);
        [specialize (Hprogress Hne); lia |].
      specialize (Hprogress Hne).
      exists (r :: results). split; [| split; [cbn [length]; lia | now constructor]].
      intros fuel Hfuel. destruct fuel as [| fuel]; [lia |].
      cbn [host.reads]. rewrite Hread, (Hreads fuel) by lia.
      destruct r as [msg | [| | err]]; [reflexivity | congruence | reflexivity | reflexivity].
Qed.

End Frames.

Lemma frame_round_trip_witness :
  host.readMessage (host.le_bytes 4 4 ++ "ping" ++ "left over")
  = (inl {| host.Message.Type_ := ""; host.Message.Requests := None;
            host.Message.Request := None; host.Message.Action := "ping" |},
     "left over").
Proof.
  assert (Hlen : Z.of_nat (String.length "ping") < 2 ^ 32) by (cbn; lia).
  pose proof (proj2 (frame_round_trip "ping" "left over" Hlen)) as Hread.
  rewrite append_assoc in Hread. exact Hread.
Defined.

(** * Domain statistics *)

(** What [domainMap] holds for the domain [d] after the requests [l]. *)
Lemma GetDomains_body_inv (s : Store.t) (l : list Request.t) :
  forall (done : list Request.t) (m : gmap string DomainInfo.t),
    (forall d,
       match m !! d with
       | Some info =>
           d <> ""
           /\ DomainInfo.Domain info = d
           /\ DomainInfo.RequestCount info = Z.of_nat (length (to_domain d done))
           /\ 1 <= DomainInfo.RequestCount info
           /\ (forall meth,
                 default 0 (DomainInfo.Methods info !! meth)
                 = Z.of_nat (length (with_method meth (to_domain d done))))
           /\ NoDup (DomainInfo.Endpoints info)
           /\ (length (DomainInfo.Endpoints info) <= 100)%nat
           /\ DomainInfo.IsIgnored info = IsIgnored s d
           /\ DomainInfo.IsPrimary info = IsPrimary s d
       | None => d <> "" -> to_domain d done = []
       end) ->
    forall d,
      match fold_left (GetDomains_body s) l m !! d with
      | Some info =>
          d <> ""
          /\ DomainInfo.Domain info = d
          /\ DomainInfo.RequestCount info = Z.of_nat (length (to_domain d (done ++ l)))
          /\ 1 <= DomainInfo.RequestCount info
          /\ (forall meth,
                default 0 (DomainInfo.Methods info !! meth)
                = Z.of_nat (length (with_method meth (to_domain d (done ++ l)))))
          /\ NoDup (DomainInfo.Endpoints info)
          /\ (length (DomainInfo.Endpoints info) <= 100)%nat
          /\ DomainInfo.IsIgnored info = IsIgnored s d
          /\ DomainInfo.IsPrimary info = IsPrimary s d
      | None => d <> "" -> to_domain d (done ++ l) = []
      end.
Proof.
  induction l as [| x l IH]; intros done m Hinv; [now rewrite app_nil_r |].
  cbn [fold_left].
  replace (done ++ x :: l)%list with ((done ++ [x]) ++ l)%list
    by (now rewrite <- app_assoc).
  apply IH. clear IH. intros d. unfold GetDomains_body.
  assert (Hsplit : forall d', to_domain d' (done ++ [x])
                              = (to_domain d' done
                                 ++ (if String.eqb (Request.Domain x) d' then [x] else []))%list).
  { intros d'. unfold to_domain. rewrite List.filter_app. cbn [List.filter].
    now destruct (String.eqb (Request.Domain x) d'). }
  destruct (String.eqb_spec (Request.Domain x) "") as [Hempty | Hdomain].
  { specialize (Hinv d). rewrite Hsplit.
    destruct (String.eqb_spec (Request.Domain x) d) as [Hd | Hd].
    - destruct (m !! d) as [info |]; [destruct Hinv as [Hne _] | intros Hne]; congruence.
    - now rewrite app_nil_r. }
  destruct (decide (Request.Domain x = d)) as [Hd | Hd].
  - subst d. rewrite lookup_insert_eq.
    specialize (Hinv (Request.Domain x)). rewrite Hsplit, String.eqb_refl.
    set (old := match m !! Request.Domain x with
                | Some info => info
                | None =>
                    {| DomainInfo.Domain := Request.Domain x;
                       DomainInfo.RequestCount := 0;
                       DomainInfo.Methods := ∅; DomainInfo.Endpoints := [];
                       DomainInfo.IsIgnored :=
                         index (Store.IgnoredDomains s) (Request.Domain x);
                       DomainInfo.IsPrimary :=
                         index (Store.PrimaryDomains s) (Request.Domain x) |}
                end).
    assert (Hold : DomainInfo.Domain old = Request.Domain x
                   /\ DomainInfo.RequestCount old
                      = Z.of_nat (length (to_domain (Request.Domain x) done))
                   /\ (forall meth,
                         default 0 (DomainInfo.Methods old !! meth)
                         = Z.of_nat (length (with_method meth
                                               (to_domain (Request.Domain x) done))))
                   /\ NoDup (DomainInfo.Endpoints old)
                   /\ (length (DomainInfo.Endpoints old) <= 100)%nat
                   /\ DomainInfo.IsIgnored old = IsIgnored s (Request.Domain x)
                   /\ DomainInfo.IsPrimary old = IsPrimary s (Request.Domain x)).
    { unfold old. destruct (m !! Request.Domain x) as [info |].
      - destruct Hinv as (_ & H1 & H2 & _ & H3 & H4 & H5 & H6 & H7). now repeat split.
      - rewrite (Hinv Hdomain). cbn.
        repeat split; try reflexivity; try lia; constructor. }
    destruct Hold as (H1 & H2 & H3 & H4 & H5 & H6 & H7).
    cbn [DomainInfo.Domain DomainInfo.RequestCount DomainInfo.Methods
         DomainInfo.Endpoints DomainInfo.IsIgnored DomainInfo.IsPrimary].
    split; [exact Hdomain |]. split; [exact H1 |].
    split; [rewrite H2, length_app; cbn [length]; lia |].
    split; [rewrite H2; lia |].
    split; [| split; [| split; [| split; [exact H6 | exact H7]]]].
    + intros meth. unfold with_method. rewrite List.filter_app, length_app.
      cbn [List.filter]. fold (with_method meth (to_domain (Request.Domain x) done)).
      destruct (String.eqb_spec (Request.Method x) meth) as [Hm | Hm].
      * subst meth. rewrite lookup_insert_eq. cbn [default from_option id length].
        rewrite H3. lia.
      * rewrite lookup_insert_ne by assumption. rewrite H3. cbn [length]. lia.
    + destruct (existsb (fun e => String.eqb e (endpoint_of x)) (DomainInfo.Endpoints old))
        eqn:Hfound; cbn [negb andb]; [exact H4 |].
      destruct (Z.of_nat (length (DomainInfo.Endpoints old)) <? 100); [| exact H4].
      apply NoDup_app. split; [exact H4 |]. split; [| apply NoDup_singleton].
      intros e He Hin. apply list_elem_of_singleton in Hin. subst e.
      assert (Hex : existsb (fun e => String.eqb e (endpoint_of x))
                      (DomainInfo.Endpoints old) = true).
      { apply existsb_exists. exists (endpoint_of x).
        split; [now apply list_elem_of_In | apply String.eqb_refl]. }
      rewrite Hex in Hfound. discriminate Hfound.
    + destruct (negb _ && (Z.of_nat (length (DomainInfo.Endpoints old)) <? 100))
        eqn:Hadd; [| exact H5].
      apply andb_true_iff in Hadd as [_ Hlt]. apply Z.ltb_lt in Hlt.
      rewrite length_app. cbn [length]. lia.
  - rewrite lookup_insert_ne by assumption. specialize (Hinv d). rewrite Hsplit.
    destruct (String.eqb_spec (Request.Domain x) d) as [Hd' | _]; [contradiction |].
    now rewrite app_nil_r.
Qed.

Lemma by_count_total : Total by_count.
Proof. intros a b. unfold by_count. lia. Qed.

(** X24. [GetDomains] yields exactly one entry for each non-empty
    domain of the stored requests, by decreasing number of requests.  The
    entry of a domain counts the requests to that domain, in all and by
    method, lists at most 100 endpoints without repetition, and carries the
    ignore and primary marks of the domain; requests without a domain are not
    counted anywhere. *)
Theorem GetDomains_counts (s : Store.t) :
  (exists result, GetDomains s result)
  /\ forall result,
       GetDomains s result ->
       Sorted by_count result
       /\ NoDup (DomainInfo.Domain <$> result)
       /\ (forall d,
             d ∈ DomainInfo.Domain <$> result
             <-> d <> "" /\ exists r, In r (Store.Requests s) /\ Request.Domain r = d)
       /\ forall info,
            info ∈ result ->
            DomainInfo.RequestCount info
            = Z.of_nat (length (to_domain (DomainInfo.Domain info) (Store.Requests s)))
            /\ 1 <= DomainInfo.RequestCount info
            /\ (forall meth,
                  default 0 (DomainInfo.Methods info !! meth)
                  = Z.of_nat (length (with_method meth
                                        (to_domain (DomainInfo.Domain info)
                                           (Store.Requests s)))))
            /\ NoDup (DomainInfo.Endpoints info)
            /\ (length (DomainInfo.Endpoints info) <= 100)%nat
            /\ DomainInfo.IsIgnored info = IsIgnored s (DomainInfo.Domain info)
            /\ DomainInfo.IsPrimary info = IsPrimary s (DomainInfo.Domain info).
Proof.
  assert (Hinv := GetDomains_body_inv s (Store.Requests s) [] ∅).
  cbn [app] in Hinv. fold (domainMap s) in Hinv.
  assert (Hmap : forall d, match domainMap s !! d with
                           | Some info =>
                               d <> "" /\ DomainInfo.Domain info = d
                               /\ DomainInfo.RequestCount info
                                  = Z.of_nat (length (to_domain d (Store.Requests s)))
                               /\ 1 <= DomainInfo.RequestCount info
                               /\ (forall meth,
                                     default 0 (DomainInfo.Methods info !! meth)
                                     = Z.of_nat (length (with_method meth
                                                           (to_domain d (Store.Requests s)))))
                               /\ NoDup (DomainInfo.Endpoints info)
                               /\ (length (DomainInfo.Endpoints info) <= 100)%nat
                               /\ DomainInfo.IsIgnored info = IsIgnored s d
                               /\ DomainInfo.IsPrimary info = IsPrimary s d
                           | None => d <> "" -> to_domain d (Store.Requests s) = []
                           end).
  { apply Hinv. intros d. rewrite lookup_empty. reflexivity. }
  clear Hinv.
  assert (Hkey : forall d info, domainMap s !! d = Some info -> DomainInfo.Domain info = d).
  { intros d info Hl. specialize (Hmap d). rewrite Hl in Hmap. tauto. }
  split.
  { exists (merge_sort by_count (map_to_list (domainMap s)).*2). split.
    - apply merge_sort_Permutation.
    - apply Sorted_merge_sort, by_count_total. }
  intros result [Hperm Hsorted]. split; [exact Hsorted |].
  assert (Hdomains : DomainInfo.Domain <$> result ≡ₚ (map_to_list (domainMap s)).*1).
  { rewrite Hperm. rewrite <- list_fmap_compose.
    assert (Hsame : forall l : list (string * DomainInfo.t),
               (forall d info, In (d, info) l -> DomainInfo.Domain info = d) ->
               (DomainInfo.Domain ∘ snd) <$> l = l.*1).
    { intros l. induction l as [| [d info] l IHl]; intros Hl; [reflexivity |].
      cbn. rewrite (Hl d info) by now left.
      f_equal. apply IHl. intros d' info' Hin. apply Hl. now right. }
    rewrite Hsame; [reflexivity |].
    intros d info Hin. apply Hkey. now apply elem_of_map_to_list, list_elem_of_In. }
  split; [rewrite Hdomains; apply NoDup_fst_map_to_list |]. split.
  - intros d. rewrite Hdomains, list_elem_of_fmap. split.
    + intros ([d' info] & -> & Hin). apply elem_of_map_to_list in Hin. cbn.
      specialize (Hmap d'). rewrite Hin in Hmap.
      destruct Hmap as (Hne & _ & Hcount & Hpos & _). split; [exact Hne |].
      destruct (to_domain d' (Store.Requests s)) as [| r rest] eqn:Hto;
        [cbn in Hcount; lia |].
      assert (Hr : In r (to_domain d' (Store.Requests s))) by (rewrite Hto; now left).
      apply filter_In in Hr as [Hin' Heq]. apply String.eqb_eq in Heq. now exists r.
    + intros (Hne & r & Hin & Hr). specialize (Hmap d).
      destruct (domainMap s !! d) as [info |] eqn:Hl.
      * exists (d, info). split; [reflexivity | now apply elem_of_map_to_list].
      * assert (Hin' : In r (to_domain d (Store.Requests s))).
        { apply filter_In. split; [exact Hin | now apply String.eqb_eq]. }
        rewrite (Hmap Hne) in Hin'. destruct Hin'.
  - intros info Hin. rewrite Hperm in Hin. apply list_elem_of_fmap in Hin as ([d info'] & -> & Hin).
    apply elem_of_map_to_list in Hin. cbn [snd].
    specialize (Hmap d). rewrite Hin in Hmap.
    destruct Hmap as (_ & Hd & H2 & H3 & H4 & H5 & H6 & H7 & H8).
    rewrite Hd. now repeat split.
Qed.

Lemma GetDomains_counts_witness :
  let s := NewTempStore Sample.traffic in
  let result := merge_sort by_count (map_to_list (domainMap s)).*2 in
  NoDup (DomainInfo.Domain <$> result).
Proof.
  intros s result.
  assert (Hresult : GetDomains s result).
  { split; [apply merge_sort_Permutation | apply Sorted_merge_sort, by_count_total]. }
  exact (proj1 (proj2 (proj2 (GetDomains_counts s) result Hresult))).
Defined.

(** * Requests of saved sessions *)

Lemma find_fmap {A B} (f : B -> bool) (g : A -> B) (l : list A) :
  find f (g <$> l) = g <$> find (fun a => f (g a)) l.
Proof.
  induction l as [| a l IH]; [reflexivity |].
  cbn [fmap list_fmap find]. destruct (f (g a)); [reflexivity | exact IH].
Qed.

Lemma find_same {A} (f g : A -> bool) (l : list A) :
  (forall a, f a = g a) -> find f l = find g l.
Proof.
  intros Hfg. induction l as [| a l IH]; [reflexivity |].
  cbn [find]. now rewrite Hfg, IH.
Qed.

Lemma find_None {A} (f : A -> bool) (l : list A) :
  find f l = None <-> forall a, In a l -> f a = false.
Proof.
  split; [apply find_none |]. intros Hall.
  destruct (find f l) as [a |] eqn:Hfind; [| reflexivity].
  apply find_some in Hfind as [Hin Ha]. rewrite (Hall a Hin) in Ha. discriminate Ha.
Qed.

Section SavedRequests.
Context {urls : url.Parser}.

(** X25. [GetRequestFromSessions] returns a request of a saved session
    that has the ID asked for, and nil exactly when no saved session holds
    such a request.  A request saved by [AddSession] under an ID that no
    earlier session holds is then found by that ID, with its derived fields
    computed. *)
Theorem GetRequestFromSessions_finds (s : Store.t) (id : string) :
  (forall r,
     GetRequestFromSessions s id = Some r ->
     Request.ID r = id
     /\ exists sess, In sess (Store.Sessions s) /\ In r (Session.Requests sess))
  /\ (GetRequestFromSessions s id = None <->
      forall sess r,
        In sess (Store.Sessions s) -> In r (Session.Requests sess) -> Request.ID r <> id)
  /\ forall sid note requests now,
       (forall sess r,
          In sess (Store.Sessions s) -> In r (Session.Requests sess) -> Request.ID r <> id) ->
       GetRequestFromSessions (fst (AddSession s sid note requests now)) id
       = ComputeRequestFields
           <$> find (fun r => String.eqb (Request.ID r) id) requests.
Proof.
  assert (Hin : forall (sessions : list Session.t) r,
             In r (concat (Session.Requests <$> sessions))
             <-> exists sess, In sess sessions /\ In r (Session.Requests sess)).
  { intros sessions r. rewrite in_concat. split.
    - intros (l & Hl & Hr). apply list_elem_of_In, list_elem_of_fmap in Hl as (sess & -> & Hs).
      exists sess. split; [now apply list_elem_of_In | exact Hr].
    - intros (sess & Hs & Hr). exists (Session.Requests sess). split; [| exact Hr].
      apply list_elem_of_In, list_elem_of_fmap. exists sess.
      split; [reflexivity | now apply list_elem_of_In]. }
  assert (Hnone : forall sessions : list Session.t,
             find (fun r => String.eqb (Request.ID r) id)
               (concat (Session.Requests <$> sessions)) = None
             <-> forall sess r,
                   In sess sessions -> In r (Session.Requests sess) -> Request.ID r <> id).
  { intros sessions. rewrite find_None. split.
    - intros Hall sess r Hs Hr. apply String.eqb_neq, Hall, Hin. now exists sess.
    - intros Hall r Hr. apply Hin in Hr as (sess & Hs & Hr).
      apply String.eqb_neq. now apply (Hall sess). }
  unfold GetRequestFromSessions. split; [| split].
  - intros r Hfind. apply find_some in Hfind as [Hr Hid].
    split; [now apply String.eqb_eq | now apply Hin].
  - apply Hnone.
  - intros sid note requests now Hfresh. cbn [AddSession fst Store.Sessions].
    rewrite fmap_app, concat_app, find_app.
    rewrite (proj2 (Hnone (Store.Sessions s)) Hfresh).
    cbn [fmap list_fmap concat Session.Requests]. rewrite app_nil_r, find_fmap.
    f_equal. apply find_same. intros r.
    unfold ComputeRequestFields. now destruct (url.Parse (Request.URL r)).
Qed.

End SavedRequests.

Lemma GetRequestFromSessions_finds_witness :
  GetRequestFromSessions
    (fst (AddSession NewStore "20250101-000000" "" Sample.traffic 5)) "none" = None.
Proof.
  rewrite (proj2 (proj2 (GetRequestFromSessions_finds NewStore "none"))
             "20250101-000000" "" Sample.traffic 5).
  - vm_compute. reflexivity.
  - intros sess r Hsess. destruct Hsess.
Defined.

(** * The [--since] option *)

Lemma max_fold (requests : list Request.t) :
  forall acc,
    let result :=
      fold_left
        (fun max req => if max <? Request.Timestamp req then Request.Timestamp req else max)
        requests acc in
    acc <= result
    /\ (forall r, In r requests -> Request.Timestamp r <= result)
    /\ (result = acc \/ exists r, In r requests /\ Request.Timestamp r = result).
Proof.
  induction requests as [| x requests IH]; intros acc.
  - cbn. split; [lia |]. split; [intros r [] | now left].
  - cbn [fold_left]. cbn zeta.
    destruct (Z.ltb_spec acc (Request.Timestamp x)) as [Hlt | Hge].
    + destruct (IH (Request.Timestamp x)) as (H1 & H2 & H3). cbn zeta in H1, H2, H3.
      split; [lia |]. split.
      * intros r [<- | Hr]; [exact H1 | now apply H2].
      * right. destruct H3 as [-> | (r & Hr & Ht)].
        -- exists x. split; [now left | reflexivity].
        -- exists r. split; [now right | exact Ht].
    + destruct (IH acc) as (H1 & H2 & H3). cbn zeta in H1, H2, H3.
      split; [exact H1 |]. split.
      * intros r [<- | Hr]; [lia | now apply H2].
      * destruct H3 as [-> | (r & Hr & Ht)]; [now left |].
        right. exists r. split; [now right | exact Ht].
Qed.

(** X26. [maxRequestTimestamp] is never negative and never below the
    timestamp of a request; it is 0, or the timestamp of one of the requests.
    So it is 0 for no requests and when no timestamp is positive. *)
Theorem maxRequestTimestamp_max (requests : list Request.t) :
  0 <= cmd.maxRequestTimestamp requests
  /\ (forall r, In r requests -> Request.Timestamp r <= cmd.maxRequestTimestamp requests)
  /\ (cmd.maxRequestTimestamp requests = 0
      \/ exists r, In r requests /\ Request.Timestamp r = cmd.maxRequestTimestamp requests)
  /\ ((forall r, In r requests -> Request.Timestamp r <= 0) ->
      cmd.maxRequestTimestamp requests = 0).
Proof.
  destruct (max_fold requests 0) as (H1 & H2 & H3). cbn zeta in H1, H2, H3.
  fold (cmd.maxRequestTimestamp requests) in H1, H2, H3.
  split; [exact H1 |]. split; [exact H2 |]. split; [exact H3 |].
  intros Hall. destruct H3 as [H0 | (r & Hr & Ht)]; [exact H0 |].
  specialize (Hall r Hr). lia.
Qed.

Lemma decimal_fold (chars : list ascii) :
  forall acc,
    forallb cmd.is_digit chars = true ->
    0 <= acc ->
    0 <= fold_left (fun acc c => 10 * acc + (Z.of_N (N_of_ascii c) - 48)) chars acc
      < (acc + 1) * 10 ^ Z.of_nat (length chars).
Proof.
  induction chars as [| c chars IH]; intros acc Hdigits Hacc.
  - cbn. lia.
  - cbn [forallb] in Hdigits. apply andb_true_iff in Hdigits as [Hc Hrest].
    unfold cmd.is_digit in Hc. cbn zeta in Hc. apply andb_true_iff in Hc as [Hlo Hhi].
    apply N.leb_le in Hlo, Hhi.
    cbn [fold_left length]. rewrite Nat2Z.inj_succ, Z.pow_succ_r by lia.
    destruct (IH (10 * acc + (Z.of_N (N_of_ascii c) - 48)) Hrest) as [H1 H2]; [lia |].
    split; [exact H1 |].
    assert (Hpow : 0 < 10 ^ Z.of_nat (length chars)) by (apply Z.pow_pos_nonneg; lia).
    nia.
Qed.

Section Since.
Context {strings : GoString.Unicode} {times : cmd.TimeParser}.

(** X27. [parseSince] gives 0 for a blank value.  A value that is a
    number of at most 10 digits is taken as seconds and returned as
    milliseconds, without overflow; a longer number is returned as it is when
    it fits 64 bits, and is an error when it does not. *)
Theorem parseSince_numbers (value : string) :
  let text := GoString.TrimSpace value in
  (text = "" -> cmd.parseSince value = Ok 0)
  /\ (cmd.isDigits text = true ->
      0 <= cmd.decimal text
      /\ (cmd.len text <= 10 ->
          cmd.parseSince value = Ok (cmd.decimal text * 1000)
          /\ cmd.decimal text * 1000 < 10 ^ 13)
      /\ (10 < cmd.len text -> cmd.decimal text <= cmd.MaxInt64 ->
          cmd.parseSince value = Ok (cmd.decimal text))
      /\ (cmd.MaxInt64 < cmd.decimal text ->
          exists err, cmd.parseSince value = Error err)).
Proof.
  intros text. unfold cmd.parseSince. fold text. split.
  - intros ->. reflexivity.
  - intros Hdigits. rewrite Hdigits.
    assert (Hne : String.eqb text "" = false).
    { unfold cmd.isDigits in Hdigits. apply andb_true_iff in Hdigits as [_ Hne].
      now apply negb_true_iff in Hne. }
    rewrite Hne.
    assert (Hbound : 0 <= cmd.decimal text < 10 ^ cmd.len text).
    { unfold cmd.isDigits in Hdigits. apply andb_true_iff in Hdigits as [Hall _].
      pose proof (decimal_fold (list_ascii_of_string text) 0 Hall ltac:(lia)) as Hfold.
      unfold cmd.decimal, cmd.len.
      assert (Hlen : length (list_ascii_of_string text) = String.length text).
      { clear. induction text as [| c text IH]; cbn; [reflexivity | now rewrite IH]. }
      rewrite Hlen in Hfold. lia. }
    split; [lia |]. unfold cmd.ParseInt, cmd.MaxInt64. split; [| split].
    + intros Hshort.
      assert (Hsmall : cmd.decimal text < 10 ^ 10).
      { apply Z.lt_le_trans with (10 ^ cmd.len text); [lia |].
        apply Z.pow_le_mono_r; [lia |]. exact Hshort. }
      destruct (Z.leb_spec (cmd.decimal text) (2 ^ 63 - 1)); [| lia].
      destruct (Z.leb_spec (cmd.len text) 10); [| lia].
      unfold cmd.wrap64. rewrite Z.mod_small by lia.
      split; [f_equal; lia | lia].
    + intros Hlong Hfits.
      destruct (Z.leb_spec (cmd.decimal text) (2 ^ 63 - 1)); [| lia].
      destruct (Z.leb_spec (cmd.len text) 10); [lia | reflexivity].
    + intros Hbig.
      destruct (Z.leb_spec (cmd.decimal text) (2 ^ 63 - 1)); [lia |]. now eexists.
Qed.

End Since.

Lemma parseSince_numbers_witness :
  cmd.parseSince " 1700000000 " = Ok 1700000000000.
Proof.
  assert (Hdigits : cmd.isDigits (GoString.TrimSpace " 1700000000 ") = true)
    by (vm_compute; reflexivity).
  assert (Hlen : cmd.len (GoString.TrimSpace " 1700000000 ") <= 10) by (vm_compute; discriminate).
  exact (proj1 (proj1 (proj2 (proj2 (parseSince_numbers " 1700000000 ") Hdigits)) Hlen)).
Defined.

(** * Page flows *)

Section PageFlows.
Context {urls : url.Parser}.

(** What [pageMap] holds for the page [p] after the requests [done] and
    then [l]. *)
Lemma GetPageFlows_body_inv (l : list Request.t) :
  forall (done : list Request.t) (m : gmap string PageFlowInfo.t),
    (forall p,
       match m !! p with
       | Some info =>
           p <> ""
           /\ PageFlowInfo.PageURL info = p
           /\ PageFlowInfo.PageDomain info = page_host p
           /\ PageFlowInfo.RequestCount info = Z.of_nat (length (on_page p done))
           /\ 1 <= PageFlowInfo.RequestCount info
           /\ NoDup (PageFlowInfo.RequestedDomains info)
           /\ (forall d,
                 In d (PageFlowInfo.RequestedDomains info)
                 <-> d <> "" /\ exists r, In r (on_page p done) /\ Request.Domain r = d)
       | None => p <> "" -> on_page p done = []
       end) ->
    forall p,
      match fold_left GetPageFlows_body l m !! p with
      | Some info =>
          p <> ""
          /\ PageFlowInfo.PageURL info = p
          /\ PageFlowInfo.PageDomain info = page_host p
          /\ PageFlowInfo.RequestCount info = Z.of_nat (length (on_page p (done ++ l)))
          /\ 1 <= PageFlowInfo.RequestCount info
          /\ NoDup (PageFlowInfo.RequestedDomains info)
          /\ (forall d,
                In d (PageFlowInfo.RequestedDomains info)
                <-> d <> ""
                    /\ exists r, In r (on_page p (done ++ l)) /\ Request.Domain r = d)
      | None => p <> "" -> on_page p (done ++ l) = []
      end.
Proof.
  induction l as [| x l IH]; intros done m Hinv; [now rewrite app_nil_r |].
  cbn [fold_left].
  replace (done ++ x :: l)%list with ((done ++ [x]) ++ l)%list
    by (now rewrite <- app_assoc).
  apply IH. clear IH. intros p. unfold GetPageFlows_body.
  assert (Hsplit : forall p', on_page p' (done ++ [x])
                              = (on_page p' done
                                 ++ (if String.eqb (Request.PageURL x) p' then [x] else []))%list).
  { intros p'. unfold on_page. rewrite List.filter_app. cbn [List.filter].
    now destruct (String.eqb (Request.PageURL x) p'). }
  destruct (String.eqb_spec (Request.PageURL x) "") as [Hempty | Hpage].
  { specialize (Hinv p). rewrite Hsplit.
    destruct (String.eqb_spec (Request.PageURL x) p) as [Hp | Hp].
    - destruct (m !! p) as [info |]; [destruct Hinv as [Hne _] | intros Hne]; congruence.
    - now rewrite app_nil_r. }
  destruct (decide (Request.PageURL x = p)) as [Hp | Hp].
  - subst p. rewrite lookup_insert_eq.
    specialize (Hinv (Request.PageURL x)). rewrite Hsplit, String.eqb_refl.
    set (old := match m !! Request.PageURL x with
                | Some info => info
                | None =>
                    {| PageFlowInfo.PageURL := Request.PageURL x;
                       PageFlowInfo.PageDomain := page_host (Request.PageURL x);
                       PageFlowInfo.RequestedDomains := [];
                       PageFlowInfo.RequestCount := 0 |}
                end).
    assert (Hold : PageFlowInfo.PageURL old = Request.PageURL x
                   /\ PageFlowInfo.PageDomain old = page_host (Request.PageURL x)
                   /\ PageFlowInfo.RequestCount old
                      = Z.of_nat (length (on_page (Request.PageURL x) done))
                   /\ NoDup (PageFlowInfo.RequestedDomains old)
                   /\ (forall d,
                         In d (PageFlowInfo.RequestedDomains old)
                         <-> d <> ""
                             /\ exists r, In r (on_page (Request.PageURL x) done)
                                          /\ Request.Domain r = d)).
    { unfold old. destruct (m !! Request.PageURL x) as [info |].
      - destruct Hinv as (_ & H1 & H2 & H3 & _ & H4 & H5).
        exact (conj H1 (conj H2 (conj H3 (conj H4 H5)))).
      - rewrite (Hinv Hpage). cbn.
        split; [reflexivity |]. split; [reflexivity |]. split; [reflexivity |].
        split; [constructor |]. intros d. split; [intros [] |].
        intros (_ & r & [] & _). }
    destruct Hold as (H1 & H2 & H3 & H4 & H5).
    cbn [PageFlowInfo.PageURL PageFlowInfo.PageDomain PageFlowInfo.RequestedDomains
         PageFlowInfo.RequestCount].
    split; [exact Hpage |]. split; [exact H1 |]. split; [exact H2 |].
    split; [rewrite H3, length_app; cbn [length]; lia |].
    split; [rewrite H3; lia |].
    assert (Hfound : existsb (fun d => String.eqb d (Request.Domain x))
                       (PageFlowInfo.RequestedDomains old) = true
                     <-> In (Request.Domain x) (PageFlowInfo.RequestedDomains old)).
    { rewrite existsb_exists. split.
      - intros (d & Hd & Heq). apply String.eqb_eq in Heq. now subst d.
      - intros Hd. exists (Request.Domain x). split; [exact Hd | apply String.eqb_refl]. }
    destruct (existsb (fun d => String.eqb d (Request.Domain x))
                (PageFlowInfo.RequestedDomains old)) eqn:Hex; cbn [negb andb].
    + split; [exact H4 |]. intros d. rewrite H5. split.
      * intros (Hne & r & Hr & Hd). split; [exact Hne |]. exists r.
        split; [apply in_or_app; now left | exact Hd].
      * intros (Hne & r & Hr & Hd). split; [exact Hne |].
        apply in_app_or in Hr as [Hr | [<- | []]]; [now exists r |].
        apply H5. rewrite <- Hd. now apply Hfound.
    + assert (Hnot : ~ In (Request.Domain x) (PageFlowInfo.RequestedDomains old)).
      { intros Hd. apply Hfound in Hd. discriminate Hd. }
      destruct (String.eqb_spec (Request.Domain x) "") as [Hd0 | Hd0]; cbn [negb].
      * split; [exact H4 |]. intros d. rewrite H5. split.
        -- intros (Hne & r & Hr & Hd). split; [exact Hne |]. exists r.
           split; [apply in_or_app; now left | exact Hd].
        -- intros (Hne & r & Hr & Hd). split; [exact Hne |].
           apply in_app_or in Hr as [Hr | [<- | []]]; [now exists r | congruence].
      * split.
        -- apply NoDup_app. split; [exact H4 |]. split; [| apply NoDup_singleton].
           intros e He Hin. apply list_elem_of_singleton in Hin. subst e.
           now apply Hnot, list_elem_of_In.
        -- intros d. rewrite in_app_iff, H5. split.
           ++ intros [(Hne & r & Hr & Hd) | [<- | []]].
              ** split; [exact Hne |]. exists r.
                 split; [apply in_or_app; now left | exact Hd].
              ** split; [exact Hd0 |]. exists x.
                 split; [apply in_or_app; right; now left | reflexivity].
           ++ intros (Hne & r & Hr & Hd).
              apply in_app_or in Hr as [Hr | [<- | []]].
              ** left. split; [exact Hne |]. now exists r.
              ** right. now left.
  - rewrite lookup_insert_ne by assumption. specialize (Hinv p). rewrite Hsplit.
    destruct (String.eqb_spec (Request.PageURL x) p) as [Hp' | _]; [contradiction |].
    now rewrite app_nil_r.
Qed.

Lemma by_requests_total : Total by_requests.
Proof. intros a b. unfold by_requests. lia. Qed.

(** X28. [GetPageFlows] yields exactly one flow for each non-empty page
    URL of the stored requests, by decreasing number of requests.  The flow
    of a page counts the requests made from it, names the host of the page
    (nothing when the page URL does not parse), and lists in ascending order,
    each once, the non-empty domains those requests went to. *)
Theorem GetPageFlows_groups (s : Store.t) :
  (exists result, GetPageFlows s result)
  /\ forall result,
       GetPageFlows s result ->
       Sorted by_requests result
       /\ NoDup (PageFlowInfo.PageURL <$> result)
       /\ (forall p,
             p ∈ PageFlowInfo.PageURL <$> result
             <-> p <> "" /\ exists r, In r (Store.Requests s) /\ Request.PageURL r = p)
       /\ forall info,
            info ∈ result ->
            PageFlowInfo.PageDomain info = page_host (PageFlowInfo.PageURL info)
            /\ PageFlowInfo.RequestCount info
               = Z.of_nat (length (on_page (PageFlowInfo.PageURL info) (Store.Requests s)))
            /\ 1 <= PageFlowInfo.RequestCount info
            /\ Sorted string_le (PageFlowInfo.RequestedDomains info)
            /\ NoDup (PageFlowInfo.RequestedDomains info)
            /\ (forall d,
                  d ∈ PageFlowInfo.RequestedDomains info
                  <-> d <> ""
                      /\ exists r,
                           In r (on_page (PageFlowInfo.PageURL info) (Store.Requests s))
                           /\ Request.Domain r = d).
Proof.
  assert (Hinv := GetPageFlows_body_inv (Store.Requests s) [] ∅).
  cbn [app] in Hinv. fold (pageMap s) in Hinv.
  assert (Hmap := Hinv (fun p => ltac:(rewrite lookup_empty; reflexivity))).
  clear Hinv.
  assert (Hkey : forall p info, pageMap s !! p = Some info -> PageFlowInfo.PageURL info = p).
  { intros p info Hl. specialize (Hmap p). rewrite Hl in Hmap. tauto. }
  split.
  { exists (merge_sort by_requests (sort_domains <$> (map_to_list (pageMap s)).*2)). split.
    - apply merge_sort_Permutation.
    - apply Sorted_merge_sort, by_requests_total. }
  intros result [Hperm Hsorted]. split; [exact Hsorted |].
  assert (Hpages : PageFlowInfo.PageURL <$> result ≡ₚ (map_to_list (pageMap s)).*1).
  { rewrite Hperm. rewrite <- !list_fmap_compose.
    assert (Hsame : forall l : list (string * PageFlowInfo.t),
               (forall p info, In (p, info) l -> PageFlowInfo.PageURL info = p) ->
               (PageFlowInfo.PageURL ∘ (sort_domains ∘ snd)) <$> l = l.*1).
    { intros l. induction l as [| [p info] l IHl]; intros Hl; [reflexivity |].
      cbn. rewrite (Hl p info) by now left.
      f_equal. apply IHl. intros p' info' Hin. apply Hl. now right. }
    rewrite Hsame; [reflexivity |].
    intros p info Hin. apply Hkey. now apply elem_of_map_to_list, list_elem_of_In. }
  split; [rewrite Hpages; apply NoDup_fst_map_to_list |]. split.
  - intros p. rewrite Hpages, list_elem_of_fmap. split.
    + intros ([p' info] & -> & Hin). apply elem_of_map_to_list in Hin. cbn.
      specialize (Hmap p'). rewrite Hin in Hmap.
      destruct Hmap as (Hne & _ & _ & Hcount & Hpos & _). split; [exact Hne |].
      destruct (on_page p' (Store.Requests s)) as [| r rest] eqn:Hon;
        [cbn in Hcount; lia |].
      assert (Hr : In r (on_page p' (Store.Requests s))) by (rewrite Hon; now left).
      apply filter_In in Hr as [Hin' Heq]. apply String.eqb_eq in Heq. now exists r.
    + intros (Hne & r & Hin & Hr). specialize (Hmap p).
      destruct (pageMap s !! p) as [info |] eqn:Hl.
      * exists (p, info). split; [reflexivity | now apply elem_of_map_to_list].
      * assert (Hin' : In r (on_page p (Store.Requests s))).
        { apply filter_In. split; [exact Hin | now apply String.eqb_eq]. }
        rewrite (Hmap Hne) in Hin'. destruct Hin'.
  - intros info Hin. rewrite Hperm in Hin.
    apply list_elem_of_fmap in Hin as (info0 & -> & Hin).
    apply list_elem_of_fmap in Hin as ([p info'] & -> & Hin).
    apply elem_of_map_to_list in Hin. cbn [snd].
    specialize (Hmap p). rewrite Hin in Hmap.
    destruct Hmap as (_ & Hp & H2 & H3 & H4 & H5 & H6).
    cbn [sort_domains PageFlowInfo.PageURL PageFlowInfo.PageDomain
         PageFlowInfo.RequestedDomains PageFlowInfo.RequestCount].
    rewrite Hp. split; [exact H2 |]. split; [exact H3 |]. split; [exact H4 |].
    split; [apply Sorted_merge_sort, string_le_total |].
    split; [now rewrite merge_sort_Permutation |].
    intros d. rewrite merge_sort_Permutation, list_elem_of_In. apply H6.
Qed.

End PageFlows.

Lemma GetPageFlows_groups_witness :
  let s := NewTempStore Sample.traffic in
  let result := merge_sort by_requests (sort_domains <$> (map_to_list (pageMap s)).*2) in
  NoDup (PageFlowInfo.PageURL <$> result).
Proof.
  intros s result.
  assert (Hresult : GetPageFlows s result).
  { split; [apply merge_sort_Permutation | apply Sorted_merge_sort, by_requests_total]. }
  exact (proj1 (proj2 (proj2 (GetPageFlows_groups s) result Hresult))).
Defined.

(** * Names and values written for the shell *)

Lemma env_byte_name (ch : ascii) : cmd.is_name_byte (cmd.env_byte ch) = true.
Proof.
  unfold cmd.is_name_byte, cmd.is_upper, cmd.is_digit, cmd.env_byte. cbn zeta.
  destruct ((97 <=? N_of_ascii ch) && (N_of_ascii ch <=? 122))%N eqn:Hlower.
  - apply andb_true_iff in Hlower as [Hlo Hhi]. apply N.leb_le in Hlo, Hhi.
    rewrite N_ascii_embedding by lia.
    assert (H1 : (65 <=? N_of_ascii ch - 32)%N = true) by (apply N.leb_le; lia).
    assert (H2 : (N_of_ascii ch - 32 <=? 90)%N = true) by (apply N.leb_le; lia).
    now rewrite H1, H2.
  - destruct ((65 <=? N_of_ascii ch) && (N_of_ascii ch <=? 90))%N eqn:Hupper.
    { now rewrite Hupper. }
    destruct ((48 <=? N_of_ascii ch) && (N_of_ascii ch <=? 57))%N eqn:Hdigit.
    + now rewrite Hupper, Hdigit.
    + reflexivity.
Qed.

Lemma map_bytes_names (s : string) :
  forallb cmd.is_name_byte (list_ascii_of_string (cmd.map_bytes cmd.env_byte s)) = true.
Proof.
  induction s as [| c s IH]; [reflexivity |].
  cbn [cmd.map_bytes list_ascii_of_string forallb]. now rewrite env_byte_name, IH.
Qed.

Lemma TrimLeft_names (f : ascii -> bool) (cut : ascii) (s : string) :
  forallb f (list_ascii_of_string s) = true ->
  forallb f (list_ascii_of_string (cmd.TrimLeft cut s)) = true
  /\ match cmd.TrimLeft cut s with
     | EmptyString => True
     | String first _ => first <> cut
     end.
Proof.
  induction s as [| c s IH]; intros Hs; [now split |].
  cbn [cmd.TrimLeft]. destruct (Ascii.eqb_spec c cut) as [Hc | Hc].
  - apply IH. cbn [list_ascii_of_string forallb] in Hs.
    now apply andb_true_iff in Hs as [_ Hs].
  - now split.
Qed.

Lemma TrimRight_names (f : ascii -> bool) (cut : ascii) (s : string) :
  forallb f (list_ascii_of_string s) = true ->
  forallb f (list_ascii_of_string (cmd.TrimRight cut s)) = true
  /\ match cmd.TrimRight cut s, s with
     | String first _, String first' _ => first = first'
     | String _ _, EmptyString => False
     | EmptyString, _ => True
     end.
Proof.
  induction s as [| c s IH]; intros Hs; [now split |].
  cbn [list_ascii_of_string forallb] in Hs. apply andb_true_iff in Hs as [Hc Hs].
  destruct (IH Hs) as [Hf _]. cbn [cmd.TrimRight].
  destruct (cmd.TrimRight cut s) as [| d rest].
  - destruct (Ascii.eqb c cut); cbn [list_ascii_of_string forallb]; [now split |].
    rewrite Hc. now split.
  - cbn [list_ascii_of_string forallb] in *. rewrite Hc, Hf. now split.
Qed.

Section ShellNames.
Context {strings : GoString.Unicode}.

Lemma sanitizeEnvPrefix_identifier (value : string) :
  cmd.sanitizeEnvPrefix value = ""
  \/ cmd.is_identifier (cmd.sanitizeEnvPrefix value) = true.
Proof.
  unfold cmd.sanitizeEnvPrefix.
  destruct (String.eqb (GoString.TrimSpace value) ""); [now left |].
  unfold cmd.Trim.
  destruct (TrimLeft_names cmd.is_name_byte "_"
              (cmd.map_bytes cmd.env_byte (GoString.TrimSpace value))
              (map_bytes_names _)) as [Hleft Hfirst].
  destruct (TrimRight_names cmd.is_name_byte "_" _ Hleft) as [Hright Hsame].
  destruct (cmd.TrimRight "_" (cmd.TrimLeft "_" _)) as [| first rest] eqn:Hout;
    [now left |].
  right.
  destruct (cmd.TrimLeft "_" (cmd.map_bytes cmd.env_byte (GoString.TrimSpace value)))
    as [| first' rest']; [destruct Hsame |].
  subst first'. cbn [list_ascii_of_string forallb] in Hright.
  apply andb_true_iff in Hright as [Hc Hrest].
  destruct (cmd.is_digit first) eqn:Hdigit.
  - change ("AUTH_" ++ String first rest)%string
      with (String "A" (String "U" (String "T" (String "H"
              (String "_" (String first rest)))))).
    cbn [cmd.is_identifier list_ascii_of_string forallb]. rewrite Hc, Hrest. reflexivity.
  - cbn [cmd.is_identifier]. rewrite Hrest, andb_true_r.
    unfold cmd.is_name_byte in Hc. rewrite Hdigit, orb_false_r in Hc.
    apply orb_true_iff in Hc as [Hc | Hc]; [exact Hc |].
    apply Ascii.eqb_eq in Hc. contradiction.
Qed.

(** X29. The prefix [resolveAuthPrefix] gives for the names of shell
    variables is always a name the shell accepts, whatever the prefix and the
    domain given: an upper-case letter followed by upper-case letters, digits
    and underscores.  It is the cleaned prefix if that is not empty, else the
    cleaned domain if that is not empty, else [TARGET]. *)
Theorem resolveAuthPrefix_identifier (prefix domain : string) :
  cmd.is_identifier (cmd.resolveAuthPrefix prefix domain) = true
  /\ (cmd.sanitizeEnvPrefix prefix = "" -> cmd.sanitizeEnvPrefix domain = "" ->
      cmd.resolveAuthPrefix prefix domain = "TARGET")
  /\ (cmd.sanitizeEnvPrefix prefix <> "" ->
      cmd.resolveAuthPrefix prefix domain = cmd.sanitizeEnvPrefix prefix).
Proof.
  unfold cmd.resolveAuthPrefix.
  destruct (String.eqb_spec (cmd.sanitizeEnvPrefix prefix) "") as [Hp | Hp]; cbn [negb].
  - destruct (String.eqb_spec (cmd.sanitizeEnvPrefix domain) "") as [Hd | Hd]; cbn [negb].
    + split; [reflexivity |]. split; [reflexivity | contradiction].
    + split; [| split; [contradiction | contradiction]].
      destruct (sanitizeEnvPrefix_identifier domain); [contradiction | assumption].
  - split; [| split; [contradiction | reflexivity]].
    destruct (sanitizeEnvPrefix_identifier prefix); [contradiction | assumption].
Qed.

End ShellNames.

Lemma resolveAuthPrefix_identifier_witness :
  cmd.resolveAuthPrefix " 9 api.example-site " "" = "AUTH_9_API_EXAMPLE_SITE".
Proof.
  rewrite (proj2 (proj2 (resolveAuthPrefix_identifier " 9 api.example-site " ""))).
  - vm_compute. reflexivity.
  - vm_compute. discriminate.
Defined.

Lemma shell_word_single (s : string) :
  forall text rest,
    cmd.shell_word cmd.Single (cmd.escapeQuote s ++ rest) text
    = cmd.shell_word cmd.Single rest (text ++ s).
Proof.
  induction s as [| c s IH]; intros text rest.
  - cbn [cmd.escapeQuote]. change (EmptyString ++ rest)%string with rest.
    f_equal. clear. induction text as [| x text IHt]; [reflexivity |].
    change (String x text ++ EmptyString)%string with (String x (text ++ EmptyString)).
    now rewrite <- IHt.
  - cbn [cmd.escapeQuote]. destruct (Ascii.eqb_spec c "'") as [-> | Hc].
    + change (("'" ++ cmd.quote ++ "'" ++ cmd.quote ++ "'" ++ cmd.escapeQuote s) ++ rest)%string
        with (String "'" (String (ascii_of_nat 34) (String "'" (String (ascii_of_nat 34)
               (String "'" (cmd.escapeQuote s ++ rest)))))).
      cbn [cmd.shell_word Ascii.eqb Bool.eqb ascii_of_nat ascii_of_pos
           Pos.of_succ_nat Pos.succ ascii_of_N andb orb].
      rewrite IH. f_equal. now rewrite append_assoc.
    + change (String c (cmd.escapeQuote s) ++ rest)%string
        with (String c (cmd.escapeQuote s ++ rest)).
      cbn [cmd.shell_word]. destruct (Ascii.eqb_spec c "'"); [contradiction |].
      rewrite IH. f_equal. now rewrite append_assoc.
Qed.

(** X30. [shellQuote] gives one shell word that stands for exactly the
    text quoted, whatever bytes the text holds (quotes, dollars, backquotes,
    line ends): read as a shell reads quoted parts, the word closes every
    quote it opens and yields the text unchanged. *)
Theorem shellQuote_reads_back (s : string) :
  cmd.shell_word cmd.Unquoted (cmd.shellQuote s) "" = Some s.
Proof.
  unfold cmd.shellQuote.
  change ("'" ++ cmd.escapeQuote s ++ "'")%string
    with (String "'" (cmd.escapeQuote s ++ "'")).
  cbn [cmd.shell_word Ascii.eqb Bool.eqb]. rewrite shell_word_single.
  reflexivity.
Qed.

Lemma maxRequestTimestamp_max_witness :
  cmd.maxRequestTimestamp
    [Sample.request "1" "GET" "https://a.example/" "" None (-5)] = 0.
Proof.
  apply (proj2 (proj2 (proj2 (maxRequestTimestamp_max
           [Sample.request "1" "GET" "https://a.example/" "" None (-5)])))).
  intros r [<- | []]. cbn. lia.
Defined.

Lemma reads_terminate_witness :
  exists results, host.reads 3 "pi" = Some results /\ (length results <= 2)%nat.
Proof.
  destruct (reads_terminate "pi") as (results & Hreads & Hlen & _).
  exists results. split; [apply Hreads; cbn; lia | exact Hlen].
Defined.
